(** * bookprint: segmentation of an HTML document into chapters and pages

    A shallow embedding of the Go packages [parsetree], [slices] and [book]
    of bookprint, and the properties of section extraction, numbering,
    navigation and cross-reference resolution proved about them.

    Conventions of the embedding.
    - Go's [int] is a 64-bit two's complement integer: it is a [Z], and the
      [+], [-] and [++] of the source on a counter, a level, an index
      returned by [slices.Index] or an id go through [GoInt.add] and
      [GoInt.sub], which wrap around.  The index of a [for ... range] loop
      stays below the length of the slice and is incremented in [Z].  The
      length of a Go slice fits in an [int]; a list of Rocq need not, and a
      property that depends on it states the bound [slices.len l <=
      GoInt.MaxInt].
    - [*html.Node] is the first-child / next-sibling tree of
      golang.org/x/net/html, with [html.nil] for the nil pointer.  The fields
      [Parent], [PrevSibling] and [LastChild] are never read by the code and
      are left out.  A pointer into a tree that the code writes through
      (the links of [ResolveCrossReferences]) is a path from the root.
    - A [for child := n.FirstChild; child != nil; child = child.NextSibling]
      loop is a [Fixpoint] on [child]; a [for ... range slice] loop is a
      [Fixpoint] on the list, or a fold over its indices when it writes to
      the slice it ranges over.
    - A slice of pointers built by [Chapters] or [Pages] holds pointers to
      structs allocated in the loop, none of them nil: it is a list of
      records.  A pointer that may be nil is an [option].
    - A run-time panic ([slices.Insert] with a negative index) is [None].
    - [html.Parse], [html.Render], [url.QueryUnescape] and [strings.Fields]
      belong to libraries outside the repository; the code is parameterised
      by them ([Variable]s of a [Section]).  Module [url] holds the
      [QueryUnescape] of Go's library, for the properties that depend on
      what decoding a reference gives. *)

From stdpp Require Import base numbers option list strings gmap pretty.

Local Open Scope string_scope.
Local Open Scope list_scope.
Local Open Scope Z_scope.

(** ** Go's [int] *)

Module GoInt.

Definition MaxInt : Z := 2 ^ 63 - 1.
Definition MinInt : Z := - 2 ^ 63.

Definition wrap (z : Z) : Z := (z + 2 ^ 63) `mod` 2 ^ 64 - 2 ^ 63.

Definition add (a b : Z) : Z := wrap (a + b).
Definition sub (a b : Z) : Z := wrap (a - b).

End GoInt.

(** ** Errors

    [New] is [errors.New]; [Lib] stands for an error value made by a library
    outside the repository. *)

Module errors.

Inductive error : Type :=
  | New (text : string)
  | Lib (text : string).

End errors.

Abbreviation error := errors.error.

(** ** net/url: [QueryUnescape]

    [ResolveCrossReferences] decodes a reference with [url.QueryUnescape],
    which is [unescape] in the mode [encodeQueryComponent] (Go's
    net/url/url.go).  [unescape] reads the string twice.  The first loop
    counts the percent signs, returns an [EscapeError] at one that is not
    followed by two hexadecimal digits, and notes a plus sign when the
    mode is [encodeQueryComponent]; the checks of the modes [encodeHost]
    and [encodeZone] are left out.  A string without a percent sign and
    without a plus sign to decode is returned as it is.  The second loop
    writes the byte of each escape, a space for a plus sign in the mode
    [encodeQueryComponent], and every other byte as it is.  The text of the
    [EscapeError], which quotes the escape, is abridged: the code does not
    read it. *)

Module url.

Import Stdlib.Strings.Ascii.

Inductive encoding : Type :=
  | encodePathSegment
  | encodeQueryComponent.

Definition is_query (mode : encoding) : bool :=
  match mode with
  | encodeQueryComponent => true
  | encodePathSegment => false
  end.

Definition ishex (c : Ascii.ascii) : bool :=
  let n := Ascii.N_of_ascii c in
  (bool_decide (48 <= n <= 57) || bool_decide (97 <= n <= 102)
   || bool_decide (65 <= n <= 70))%N.

Definition unhex (c : Ascii.ascii) : N :=
  let n := Ascii.N_of_ascii c in
  (if bool_decide (48 <= n <= 57) then n - 48
   else if bool_decide (97 <= n <= 102) then n - 97 + 10
   else if bool_decide (65 <= n <= 70) then n - 65 + 10
   else 0)%N.

(** The first loop: the number of percent signs and [hasPlus] after it;
    [None] is the return of an [EscapeError]. *)
Fixpoint unescape_check (s : string) (mode : encoding) (n : nat)
    (hasPlus : bool) : option (nat * bool) :=
  match s with
  | EmptyString => Some (n, hasPlus)
  | String c rest =>
      if Ascii.eqb c "%" then
        match rest with
        | String a (String b rest) =>
            if ishex a && ishex b then unescape_check rest mode (S n) hasPlus
            else None
        | _ => None
        end
      else if Ascii.eqb c "+" then unescape_check rest mode n (is_query mode)
      else unescape_check rest mode n hasPlus
  end.

(** The second loop, which runs on a string that passed the first: there
    every percent sign is followed by two characters. *)
Fixpoint unescape_write (s : string) (mode : encoding) : string :=
  match s with
  | EmptyString => EmptyString
  | String c rest =>
      if Ascii.eqb c "%" then
        match rest with
        | String a (String b rest) =>
            String (Ascii.ascii_of_N (unhex a * 16 + unhex b))
              (unescape_write rest mode)
        | _ => EmptyString
        end
      else if Ascii.eqb c "+" then
        String (if is_query mode then " "%char else "+"%char)
          (unescape_write rest mode)
      else String c (unescape_write rest mode)
  end.

Definition unescape (s : string) (mode : encoding) : string * option error :=
  match unescape_check s mode 0 false with
  | None => ("", Some (errors.Lib "invalid URL escape"))
  | Some (n, hasPlus) =>
      if bool_decide (n = 0%nat) && negb hasPlus then (s, None)
      else (unescape_write s mode, None)
  end.

Definition QueryUnescape (s : string) : string * option error :=
  unescape s encodeQueryComponent.

End url.

(** ** golang.org/x/net/html: the node type *)

Module html.

Inductive NodeType : Type :=
  | ErrorNode
  | TextNode
  | DocumentNode
  | ElementNode
  | CommentNode
  | DoctypeNode
  | RawNode.

Global Instance NodeType_eq_dec : EqDecision NodeType.
Proof. solve_decision. Defined.

Record Attribute : Type := mkAttribute {
  Namespace : string;
  Key : string;
  Val : string
}.

Global Instance Attribute_eq_dec : EqDecision Attribute.
Proof. solve_decision. Defined.

(** [*html.Node]: [nil], or a pointer to a node with its type, data,
    attributes, first child and next sibling. *)
Inductive Node : Type :=
  | nil
  | node (type : NodeType) (data : string) (attr : list Attribute)
         (firstChild nextSibling : Node).

Definition Type_ (n : Node) : NodeType :=
  match n with nil => ErrorNode | node t _ _ _ _ => t end.
Definition Data (n : Node) : string :=
  match n with nil => "" | node _ d _ _ _ => d end.
Definition Attr (n : Node) : list Attribute :=
  match n with nil => [] | node _ _ a _ _ => a end.
Definition FirstChild (n : Node) : Node :=
  match n with nil => nil | node _ _ _ c _ => c end.
Definition NextSibling (n : Node) : Node :=
  match n with nil => nil | node _ _ _ _ s => s end.

(** A pointer to a node below a given node is the way to it: which of
    the two links to follow, in order. *)
Inductive step : Type := down | right.

Global Instance step_eq_dec : EqDecision step.
Proof. solve_decision. Defined.

Definition path : Type := list step.

Global Instance path_eq_dec : EqDecision path.
Proof. unfold path. apply _. Defined.

Fixpoint deref (root : Node) (p : path) : Node :=
  match p with
  | [] => root
  | down :: p' => deref (FirstChild root) p'
  | right :: p' => deref (NextSibling root) p'
  end.

(** [update root p f]: the tree after the attributes of the node that
    [p] points to were overwritten in place by [f]. *)
Fixpoint update (root : Node) (p : path)
    (f : list Attribute -> list Attribute) : Node :=
  match root with
  | nil => nil
  | node t d a c s =>
      match p with
      | [] => node t d (f a) c s
      | down :: p' => node t d a (update c p' f) s
      | right :: p' => node t d a c (update s p' f)
      end
  end.

End html.

(** ** Package slices *)

Module slices.

(** The constraint [comparable]: the type has Go's [==]. *)
Class Comparable (A : Type) := go_eq : A -> A -> bool.

Global Instance string_comparable : Comparable string :=
  fun a b => bool_decide (a = b).

Section generic.
Context {Element : Type}.

Fixpoint Index_loop `{Comparable Element}
    (slice : list Element) (element : Element) (index : Z) : Z :=
  match slice with
  | [] => -1
  | current :: rest =>
      if go_eq element current then index
      else Index_loop rest element (index + 1)
  end.

(** [Index]: the index of the first occurrence, or -1. *)
Definition Index `{Comparable Element}
    (slice : list Element) (element : Element) : Z :=
  Index_loop slice element 0.

Definition Contains `{Comparable Element}
    (slice : list Element) (element : Element) : bool :=
  bool_decide (Index slice element >= 0).

(** [FindFunc]: the first element that satisfies the predicate; [None]
    is the zero value [empty] (the nil pointer, for the slices of
    non-nil pointers it is used on). *)
Fixpoint FindFunc (slice : list Element) (predicate : Element -> bool)
    : option Element :=
  match slice with
  | [] => None
  | element :: rest =>
      if predicate element then Some element else FindFunc rest predicate
  end.

Definition len (slice : list Element) : Z := Z.of_nat (length slice).

(** [Insert]: [zero] is the zero value of [Element] that [make] fills
    the new slice with.  [None] is a run-time panic: [make] with a
    negative size, or an index out of range. *)
Definition Insert (zero : Element)
    (slice : list Element) (element : Element) (index : Z)
    : option (list Element) :=
  let size := 0 in
  let isIndexWithinBounds := bool_decide (index < len slice) in
  let size := if isIndexWithinBounds then len slice else size in
  let isIndexOutOfBounds := bool_decide (index >= len slice) in
  let size :=
    if isIndexOutOfBounds then
      let boundsDifference := GoInt.sub (GoInt.add index 1) (len slice) in
      GoInt.add (len slice) boundsDifference
    else size in
  if bool_decide (size < 0) then None
  else
    let values := resize (Z.to_nat size) zero slice in
    if bool_decide (0 <= index < size)
    then Some (<[Z.to_nat index := element]> values)
    else None.

Definition IsEmpty (slice : list Element) : bool :=
  bool_decide (len slice = 0).

End generic.

End slices.

(** ** Package parsetree *)

Module parsetree.

Import html.

Definition IsNil (n : Node) : bool :=
  match n with nil => true | _ => false end.

Definition IsText (n : Node) : bool :=
  negb (IsNil n) && bool_decide (Type_ n = TextNode).

Definition IsElement (n : Node) : bool :=
  negb (IsNil n) && bool_decide (Type_ n = ElementNode).

(** A predicate argument (a Go func value) may be nil: [None]. *)
Definition IsElementFunc (n : Node) (predicate : option (Node -> bool))
    : bool :=
  match predicate with
  | None => IsElement n
  | Some predicate => IsElement n && predicate n
  end.

Definition HeadingMap : gmap string Z :=
  <["h6" := 6]> (<["h5" := 5]> (<["h4" := 4]> (<["h3" := 3]>
    (<["h2" := 2]> (<["h1" := 1]> ∅))))).

Definition IsHeading (n : Node) : bool :=
  IsElementFunc n (Some (fun _ => bool_decide (is_Some (HeadingMap !! Data n)))).

Definition IsHead (n : Node) : bool :=
  IsElementFunc n (Some (fun n => bool_decide (Data n = "head"))).

Definition IsBody (n : Node) : bool :=
  IsElementFunc n (Some (fun n => bool_decide (Data n = "body"))).

(** [Body]: the loop keeps the result of the last child searched, unless
    a direct child is the body. *)
Fixpoint Body_loop (child : Node) (body : Node) : Node :=
  match child with
  | nil => body
  | node _ _ _ c s =>
      if IsBody child then child
      else Body_loop s (Body_loop c nil)
  end.

Definition Body (n : Node) : Node :=
  if IsNil n then nil
  else if IsBody n then n
  else Body_loop (FirstChild n) nil.

(** [Head]: the same search, for the head element. *)
Fixpoint Head_loop (child : Node) (head : Node) : Node :=
  match child with
  | nil => head
  | node _ _ _ c s =>
      if IsHead child then child
      else Head_loop s (Head_loop c nil)
  end.

Definition Head (n : Node) : Node :=
  if IsNil n then nil
  else if IsHead n then n
  else Head_loop (FirstChild n) nil.

(** [AttributeMap]: the attributes as a map from key to value. *)
Fixpoint AttributeMap_loop (attr : list Attribute)
    (attributeMap : gmap string string) : gmap string string :=
  match attr with
  | [] => attributeMap
  | attribute :: rest =>
      AttributeMap_loop rest (<[Key attribute := Val attribute]> attributeMap)
  end.

Definition AttributeMap (n : Node) : gmap string string :=
  if IsNil n then ∅ else AttributeMap_loop (Attr n) ∅.

Fixpoint ChildrenFunc_loop (child : Node) (predicate : option (Node -> bool))
    : list Node :=
  match child with
  | nil => []
  | node _ _ _ _ s =>
      match predicate with
      | Some p => if p child then [child] else []
      | None => []
      end ++ ChildrenFunc_loop s predicate
  end.

Definition ChildrenFunc (n : Node) (predicate : option (Node -> bool))
    : list Node :=
  if IsNil n then [] else ChildrenFunc_loop (FirstChild n) predicate.

Definition Children (n : Node) : list Node :=
  ChildrenFunc n (Some (fun n => IsElement n || IsText n)).

(** [Headings]: the heading elements that are direct children. *)
Definition Headings (n : Node) : list Node :=
  if IsNil n then [] else ChildrenFunc n (Some IsHeading).

Definition HeadingLevel (n : Node) : Z * option error :=
  match HeadingMap !! Data n with
  | Some headingLevel => (headingLevel, None)
  | None => (-1, Some (errors.New "the given node contains no valid heading tag"))
  end.

Fixpoint SiblingsUntilFunc_loop (sibling : Node)
    (predicate : option (Node -> bool)) : list Node :=
  match sibling with
  | nil => []
  | node _ _ _ _ s =>
      match predicate with
      | Some p =>
          if p sibling then []
          else sibling :: SiblingsUntilFunc_loop s predicate
      | None => sibling :: SiblingsUntilFunc_loop s predicate
      end
  end.

Definition SiblingsUntilFunc (n : Node) (predicate : option (Node -> bool))
    : list Node :=
  if IsNil n then [] else SiblingsUntilFunc_loop (NextSibling n) predicate.

(** [ElementsByTagName]: pointers to the descendants whose [Data] is one
    of the tags, in document order; each is the way from the node the
    loop is at. *)
Fixpoint ElementsByTagName_loop (child : Node) (tags : list string)
    : list path :=
  match child with
  | nil => []
  | node _ d _ c s =>
      (if slices.Contains tags d then [[]] else [])
      ++ (cons down <$> ElementsByTagName_loop c tags)
      ++ (cons right <$> ElementsByTagName_loop s tags)
  end.

Definition ElementsByTagName (n : Node) (tags : list string) : list path :=
  if IsNil n then []
  else if slices.IsEmpty tags then []
  else cons down <$> ElementsByTagName_loop (FirstChild n) tags.

Definition TagName (n : Node) : string :=
  if IsElement n then Data n else "".

Fixpoint Text_loop (child : Node) : string :=
  match child with
  | nil => ""
  | node _ d _ c s =>
      (if IsText child then d else "")
      +:+ (if IsElement child then Text_loop c else "")
      +:+ Text_loop s
  end.

Definition Text (n : Node) : string :=
  if IsNil n then "" else Text_loop (FirstChild n).

Section render.
(** [html.Render] into a buffer: the markup of the node, or an error. *)
Variable Render : Node -> string + error.

Fixpoint Html_loop (nodes : list Node) (buffer : string)
    : string * option error :=
  match nodes with
  | [] => (buffer, None)
  | n :: rest =>
      if negb (IsNil n) then
        match Render n with
        | inr err => ("", Some err)
        | inl text => Html_loop rest (buffer +:+ text)
        end
      else Html_loop rest buffer
  end.

Definition Html (nodes : list Node) : string * option error :=
  Html_loop nodes "".
End render.

Section parse.
(** [html.Parse] of the text: the tree and an error. *)
Variable Parse : string -> Node * option error.

Definition New (text : string) : Node * option error :=
  match Parse text with
  | (tree, Some err) => (tree, Some err)
  | (tree, None) => (tree, None)
  end.
End parse.

End parsetree.


(** ** Package book *)

Module book.

Import html.

(** *** The heap

    [&Chapter{...}] and [&Content{...}] allocate.  A [*Chapter] is compared
    by address ([slices.Index]) and a [*Content] is written through
    ([page.Content.Html = html]), so both get an address; the heap holds
    the [Html] field of every [Content] allocated so far.  [Title] and
    [Page] structs are neither compared nor written after their creation
    and are kept by value. *)

Definition loc : Type := nat.

Record Heap : Type := mkHeap {
  next : loc;
  contents : gmap loc string
}.

Definition alloc (h : Heap) : loc * Heap :=
  (next h, mkHeap (S (next h)) (contents h)).

Definition load (h : Heap) (a : loc) : string :=
  default "" (contents h !! a).

Definition store (h : Heap) (a : loc) (v : string) : Heap :=
  mkHeap (next h) (<[a := v]> (contents h)).

(** [&Content{Html: v}] *)
Definition new_Content (h : Heap) (v : string) : loc * Heap :=
  let '(a, h) := alloc h in (a, store h a v).

(** *** The records *)

Record Title : Type := mkTitle {
  Prefix : string;
  Html : string;
  Text : string
}.

Module Chapter.
(** A non-nil [*Chapter]: the address of the struct and its fields. *)
Record t : Type := mk {
  addr : loc;
  Id : Z;
  Level : Z;
  Path : string;
  Title : Title;
  Content : loc
}.
End Chapter.

Global Instance Chapter_comparable : slices.Comparable Chapter.t :=
  fun a b => bool_decide (Chapter.addr a = Chapter.addr b).

Module Page.
Record t : Type := mk {
  Id : Z;
  Level : Z;
  Path : string;
  Title : Title;
  Content : loc;
  Next : option Chapter.t;
  HasNext : bool;
  Previous : option Chapter.t;
  HasPrevious : bool;
  Parents : list (option Chapter.t);
  HasParents : bool;
  Children : list Chapter.t;
  HasChildren : bool
}.
End Page.

(** [fmt.Sprintf] with the verb [%d]: the decimal numeral. *)
Definition Sprintf_d (n : Z) : string := pretty n.

(** [strings.Join] *)
Definition Join (elems : list string) (sep : string) : string :=
  String.concat sep elems.

(** *** chapters.go *)

(** The variables captured by the closure that [getPrefix] returns. *)
Record Counters : Type := mkCounters {
  h1Counter : Z;
  h2Counter : Z;
  h3Counter : Z
}.

(** [getPrefix()]: the closure, as its captured variables at creation. *)
Definition getPrefix : Counters := mkCounters 0 0 0.

(** One call of the closure: the counters after it and the string returned. *)
Definition prefix (c : Counters) (heading : Node) : Counters * string :=
  let tagName := parsetree.TagName heading in
  if bool_decide (tagName = "h1") then
    let h1 := GoInt.add (h1Counter c) 1 in
    (mkCounters h1 0 (h3Counter c), Sprintf_d h1)
  else if bool_decide (tagName = "h2") then
    let h2 := GoInt.add (h2Counter c) 1 in
    (mkCounters (h1Counter c) h2 0,
     Sprintf_d (h1Counter c) +:+ "." +:+ Sprintf_d h2)
  else if bool_decide (tagName = "h3") then
    let h3 := GoInt.add (h3Counter c) 1 in
    (mkCounters (h1Counter c) (h2Counter c) h3,
     Sprintf_d (h1Counter c) +:+ "." +:+ Sprintf_d (h2Counter c)
       +:+ "." +:+ Sprintf_d h3)
  else (c, "").

Definition not_body : error :=
  errors.New "passed HTML node is not a 'body' element".

Section extraction.

Variable Render : Node -> string + error.
Variable Fields : string -> list string.

(** The body of the loop of [Chapters], for the heading at [index]: [c]
    is the state of the closure [prefix] and [h] the heap before it.  It
    returns an error, or the chapter to append with the state after it. *)
Definition Chapters_body (heading : Node) (index : Z) (c : Counters)
    (h : Heap) : error + Chapter.t * Counters * Heap :=
  let id := GoInt.add index 1 in
  let path := "page" +:+ Sprintf_d id +:+ ".html" in
  match parsetree.HeadingLevel heading with
  | (_, Some err) => inl err
  | (level, None) =>
      let headingText := parsetree.Text heading in
      let headingText := Join (Fields headingText) " " in
      match parsetree.Html Render (parsetree.Children heading) with
      | (_, Some err) => inl err
      | (headingHtml, None) =>
          let content :=
            parsetree.SiblingsUntilFunc heading (Some parsetree.IsHeading) in
          match parsetree.Html Render content with
          | (_, Some err) => inl err
          | (contentHtml, None) =>
              let '(c, pre) := prefix c heading in
              let title := mkTitle pre headingHtml headingText in
              let '(contentPtr, h) := new_Content h contentHtml in
              let '(chapterPtr, h) := alloc h in
              inr (Chapter.mk chapterPtr id level path title contentPtr, c, h)
          end
      end
  end.

(** The loop of [Chapters]: [chapters] is the slice built so far; an
    error returns it as it is. *)
Fixpoint Chapters_loop (headings : list Node) (index : Z) (c : Counters)
    (h : Heap) (chapters : list Chapter.t)
    : Heap * (list Chapter.t * option error) :=
  match headings with
  | [] => (h, (chapters, None))
  | heading :: rest =>
      match Chapters_body heading index c h with
      | inl err => (h, (chapters, Some err))
      | inr (chapter, c, h) =>
          Chapters_loop rest (index + 1) c h (chapters ++ [chapter])
      end
  end.

Definition Chapters (h : Heap) (body : Node)
    : Heap * (list Chapter.t * option error) :=
  if negb (parsetree.IsBody body) then (h, ([], Some not_body))
  else
    let headings := parsetree.Headings body in
    Chapters_loop headings 0 getPrefix h [].

End extraction.

(** *** pages.go *)

(** The loop of [getParents], over [chapters[0 : Index(chapters, chapter)]];
    [None] is a panic of [slices.Insert]. *)
Fixpoint getParents_loop (chapter : Chapter.t) (before : list Chapter.t)
    (parents : list (option Chapter.t)) : option (list (option Chapter.t)) :=
  match before with
  | [] => Some parents
  | current :: rest =>
      let isParent := bool_decide (Chapter.Level current < Chapter.Level chapter) in
      if isParent then
        match slices.Insert None parents (Some current)
                (GoInt.sub (Chapter.Level current) 1) with
        | Some parents => getParents_loop chapter rest parents
        | None => None
        end
      else getParents_loop chapter rest parents
  end.

Definition getParents (chapter : Chapter.t) (chapters : list Chapter.t)
    : option (list (option Chapter.t)) :=
  getParents_loop chapter
    (take (Z.to_nat (slices.Index chapters chapter)) chapters) [].

(** The loop of [getNext], over [chapters[nextIndex:]]. *)
Fixpoint getNext_loop (chapter : Chapter.t) (after : list Chapter.t)
    : option Chapter.t :=
  match after with
  | [] => None
  | next :: rest =>
      if bool_decide (Chapter.Level next = Chapter.Level chapter) then Some next
      else
        let isNoLongerInCurrentChapter :=
          bool_decide (Chapter.Level next < Chapter.Level chapter) in
        if isNoLongerInCurrentChapter then None
        else getNext_loop chapter rest
  end.

Definition getNext (chapter : Chapter.t) (chapters : list Chapter.t)
    : option Chapter.t :=
  let nextIndex := GoInt.add (slices.Index chapters chapter) 1 in
  getNext_loop chapter (drop (Z.to_nat nextIndex) chapters).

(** The loop of [getPrevious], from [previousIndex] down to 0: over
    [chapters[0 : previousIndex+1]] read backwards. *)
Fixpoint getPrevious_loop (chapter : Chapter.t) (before : list Chapter.t)
    : option Chapter.t :=
  match before with
  | [] => None
  | previous :: rest =>
      if bool_decide (Chapter.Level previous = Chapter.Level chapter)
      then Some previous
      else
        let isNoLongerInCurrentChapter :=
          bool_decide (Chapter.Level previous < Chapter.Level chapter) in
        if isNoLongerInCurrentChapter then None
        else getPrevious_loop chapter rest
  end.

Definition getPrevious (chapter : Chapter.t) (chapters : list Chapter.t)
    : option Chapter.t :=
  let previousIndex := GoInt.sub (slices.Index chapters chapter) 1 in
  getPrevious_loop chapter
    (reverse (take (Z.to_nat (previousIndex + 1)) chapters)).

(** The loop of [getChildren], over [chapters[nextChapterIndex:]]. *)
Fixpoint getChildren_loop (chapter : Chapter.t) (after : list Chapter.t)
    (children : list Chapter.t) : list Chapter.t :=
  match after with
  | [] => children
  | current :: rest =>
      let isChild :=
        bool_decide (Chapter.Level current = GoInt.add (Chapter.Level chapter) 1) in
      let isConsidered := bool_decide (Chapter.Level current <= 3) in
      let children :=
        if isChild && isConsidered then children ++ [current] else children in
      let isNoLongerInCurrentChapter :=
        bool_decide (Chapter.Level current <= Chapter.Level chapter) in
      if isNoLongerInCurrentChapter then children
      else getChildren_loop chapter rest children
  end.

Definition getChildren (chapter : Chapter.t) (chapters : list Chapter.t)
    : list Chapter.t :=
  let nextChapterIndex := GoInt.add (slices.Index chapters chapter) 1 in
  getChildren_loop chapter (drop (Z.to_nat nextChapterIndex) chapters) [].

(** The loop of [Pages]; [None] is a panic inside [getParents]. *)
Fixpoint Pages_loop (chapters rest : list Chapter.t) (pages : list Page.t)
    : option (list Page.t) :=
  match rest with
  | [] => Some pages
  | chapter :: rest =>
      let id := Chapter.Id chapter in
      let level := Chapter.Level chapter in
      let path := Chapter.Path chapter in
      let title := Chapter.Title chapter in
      let content := Chapter.Content chapter in
      let next := getNext chapter chapters in
      let hasNext := bool_decide (next <> None) in
      let previous := getPrevious chapter chapters in
      let hasPrevious := bool_decide (previous <> None) in
      match getParents chapter chapters with
      | None => None
      | Some parents =>
          let hasParents := negb (slices.IsEmpty parents) in
          let children := getChildren chapter chapters in
          let hasChildren := negb (slices.IsEmpty children) in
          let page :=
            Page.mk id level path title content next hasNext previous
              hasPrevious parents hasParents children hasChildren in
          Pages_loop chapters rest (pages ++ [page])
      end
  end.

Section pages.

Variable Render : Node -> string + error.
Variable Fields : string -> list string.

Definition Pages (h : Heap) (body : Node)
    : option (Heap * (list Page.t * option error)) :=
  if negb (parsetree.IsBody body) then Some (h, ([], Some not_body))
  else
    match Chapters Render Fields h body with
    | (h, (_, Some err)) => Some (h, ([], Some err))
    | (h, (chapters, None)) =>
        match Pages_loop chapters chapters [] with
        | Some pages => Some (h, (pages, None))
        | None => None
        end
    end.

End pages.

(** *** transformers.go *)

Section transformers.

Variable Parse : string -> Node * option error.
Variable Render : Node -> string + error.
(** [url.QueryUnescape] *)
Variable QueryUnescape : string -> string * option error.

(** The predicate that [ResolveCrossReferences] hands to [slices.FindFunc]. *)
Definition isCrossReferenced (attribute : Attribute) (page : Page.t) : bool :=
  match QueryUnescape (Val attribute) with
  | (_, Some _) => false
  | (referencedTitle, None) =>
      bool_decide (Text (Page.Title page) = referencedTitle)
  end.

(** One iteration of [for index, attribute := range link.Attr], on the
    attributes of the link as they are when it starts. *)
Definition Attr_step (pages : list Page.t) (attr : list Attribute)
    (index : nat) : list Attribute :=
  match attr !! index with
  | None => attr
  | Some attribute =>
      if bool_decide (Key attribute = "href") then
        match slices.FindFunc pages (isCrossReferenced attribute) with
        | Some crossReferencedPage =>
            <[index := mkAttribute (Namespace attribute) (Key attribute)
                         (Page.Path crossReferencedPage)]> attr
        | None => attr
        end
      else attr
  end.

Definition Attr_loop (pages : list Page.t) (attr : list Attribute)
    : list Attribute :=
  foldl (Attr_step pages) attr (seq 0 (length attr)).

(** [for _, link := range links]: each link is a pointer into the tree
    under [body], whose attributes are overwritten in place. *)
Fixpoint links_loop (pages : list Page.t) (links : list path) (body : Node)
    : Node :=
  match links with
  | [] => body
  | link :: rest => links_loop pages rest (update body link (Attr_loop pages))
  end.

Fixpoint ResolveCrossReferences_loop (pages rest : list Page.t) (h : Heap)
    : Heap * option error :=
  match rest with
  | [] => (h, None)
  | page :: rest =>
      match parsetree.New Parse (load h (Page.Content page)) with
      | (_, Some err) => (h, Some err)
      | (tree, None) =>
          let body := parsetree.Body tree in
          let links := parsetree.ElementsByTagName body ["a"] in
          let body := links_loop pages links body in
          match parsetree.Html Render (parsetree.Children body) with
          | (_, Some err) => (h, Some err)
          | (html, None) =>
              ResolveCrossReferences_loop pages rest
                (store h (Page.Content page) html)
          end
      end
  end.

(** [ResolveCrossReferences]: the heap after it, and the error returned. *)
Definition ResolveCrossReferences (pages : list Page.t) (h : Heap)
    : Heap * option error :=
  ResolveCrossReferences_loop pages pages h.

End transformers.

(** *** book.go *)

Module MetaData.
Record t : Type := mk {
  Title : string;
  Author : string;
  Date : string;
  Preface : string
}.
End MetaData.

Module Book.
Record t : Type := mk {
  MetaData : MetaData.t;
  Pages : list Page.t
}.
End Book.

Definition not_head : error :=
  errors.New "passed HTML node is not a 'head' element".

Definition no_title : error :=
  errors.New "passed HTML 'head' node contains no 'title'".

(** The loop of [getTitle] over the children of the head. *)
Fixpoint getTitle_loop (child : Node) : string * option error :=
  match child with
  | nil => ("", Some no_title)
  | node _ tag _ _ s =>
      if bool_decide (tag = "title") then (parsetree.Text child, None)
      else getTitle_loop s
  end.

(** [getTitle]; [None] is the panic of [head.FirstChild] on a nil head. *)
Definition getTitle (head : Node) : option (string * option error) :=
  if parsetree.IsNil head then None
  else Some (getTitle_loop (FirstChild head)).

(** The loop of [getAuthor] and of [getDate] over the meta elements, each
    a pointer below [head]; the two functions differ in the name they look
    for. *)
Fixpoint getAuthor_loop (head : Node) (metas : list path)
    : string * option error :=
  match metas with
  | [] => ("", None)
  | meta :: rest =>
      let attributes := parsetree.AttributeMap (deref head meta) in
      match attributes !! "name" with
      | Some name =>
          if bool_decide (name = "author") then
            match attributes !! "content" with
            | Some content => (content, None)
            | None => getAuthor_loop head rest
            end
          else getAuthor_loop head rest
      | None => getAuthor_loop head rest
      end
  end.

Definition getAuthor (head : Node) : string * option error :=
  let metas := parsetree.ElementsByTagName head ["meta"] in
  getAuthor_loop head metas.

Fixpoint getDate_loop (head : Node) (metas : list path)
    : string * option error :=
  match metas with
  | [] => ("", None)
  | meta :: rest =>
      let attributes := parsetree.AttributeMap (deref head meta) in
      match attributes !! "name" with
      | Some name =>
          if bool_decide (name = "dcterms.date") then
            match attributes !! "content" with
            | Some content => (content, None)
            | None => getDate_loop head rest
            end
          else getDate_loop head rest
      | None => getDate_loop head rest
      end
  end.

Definition getDate (head : Node) : string * option error :=
  let metas := parsetree.ElementsByTagName head ["meta"] in
  getDate_loop head metas.

Section book_go.

Variable Parse : string -> Node * option error.
Variable Render : Node -> string + error.
Variable QueryUnescape : string -> string * option error.
Variable Fields : string -> list string.

(** [getPreface]; [None] is the panic of [body.FirstChild] on a nil body. *)
Definition getPreface (body : Node) : option (string * option error) :=
  if parsetree.IsNil body then None
  else
    match parsetree.Html Render
            (parsetree.SiblingsUntilFunc (FirstChild body)
               (Some parsetree.IsHeading)) with
    | (preface, Some err) => Some (preface, Some err)
    | (preface, None) => Some (preface, None)
    end.

(** [New]: the heap after it, the book (nil with an error) and the error;
    [None] is a panic. *)
Definition New (h : Heap) (file : string)
    : option (Heap * (option Book.t * option error)) :=
  match parsetree.New Parse file with
  | (_, Some err) => Some (h, (None, Some err))
  | (tree, None) =>
      let head := parsetree.Head tree in
      let body := parsetree.Body tree in
      if negb (parsetree.IsHead head) then Some (h, (None, Some not_head))
      else if negb (parsetree.IsBody body) then Some (h, (None, Some not_body))
      else
        match getTitle head with
        | None => None
        | Some (_, Some err) => Some (h, (None, Some err))
        | Some (title, None) =>
            match getAuthor head with
            | (_, Some err) => Some (h, (None, Some err))
            | (author, None) =>
                match getDate head with
                | (_, Some err) => Some (h, (None, Some err))
                | (date, None) =>
                    match getPreface body with
                    | None => None
                    | Some (_, Some err) => Some (h, (None, Some err))
                    | Some (preface, None) =>
                        match Pages Render Fields h body with
                        | None => None
                        | Some (h, (_, Some err)) => Some (h, (None, Some err))
                        | Some (h, (pages, None)) =>
                            match ResolveCrossReferences Parse Render
                                    QueryUnescape pages h with
                            | (h, Some err) => Some (h, (None, Some err))
                            | (h, None) =>
                                let book :=
                                  Book.mk
                                    (MetaData.mk title author date preface)
                                    pages in
                                Some (h, (Some book, None))
                            end
                        end
                    end
                end
            end
        end
  end.

End book_go.

End book.

(** ** The specification's reading

    Definitions that follow the words of the specification, to compare
    the code with. *)

Module spec.

Import Stdlib.Strings.Ascii.
Import html book.

(** A node and the siblings after it, in document order. *)
Fixpoint siblings (n : Node) : list Node :=
  match n with
  | nil => []
  | node _ _ _ _ s => n :: siblings s
  end.

(** The child nodes of a node, in document order. *)
Definition child_nodes (n : Node) : list Node := siblings (FirstChild n).

(** A heading element: an element whose tag denotes a level 1 to 6. *)
Definition heading_tags : list string := ["h1"; "h2"; "h3"; "h4"; "h5"; "h6"].

Definition is_heading_element (n : Node) : bool :=
  bool_decide (Type_ n = ElementNode) && bool_decide (Data n ∈ heading_tags).

(** "Direct-or-nested heading elements within the body in document
    order". *)
Fixpoint headings_within_loop (child : Node) : list Node :=
  match child with
  | nil => []
  | node _ _ _ c s =>
      (if is_heading_element child then [child] else [])
      ++ headings_within_loop c ++ headings_within_loop s
  end.

Definition headings_within (body : Node) : list Node :=
  headings_within_loop (FirstChild body).

(** The heading elements that are direct children. *)
Definition direct_headings (body : Node) : list Node :=
  List.filter is_heading_element (child_nodes body).

(** The three counters of the numbering, one per level 1, 2, 3. *)
Record counters : Type := mkCounters { c1 : Z; c2 : Z; c3 : Z }.

Definition dotted (ns : list Z) : string :=
  String.concat "." (pretty <$> ns).

(** The counters after a heading of the level, and its prefix. *)
Definition number (c : counters) (level : Z) : counters * string :=
  if bool_decide (level = 1) then
    (mkCounters (c1 c + 1) 0 (c3 c), dotted [c1 c + 1])
  else if bool_decide (level = 2) then
    (mkCounters (c1 c) (c2 c + 1) 0, dotted [c1 c; c2 c + 1])
  else if bool_decide (level = 3) then
    (mkCounters (c1 c) (c2 c) (c3 c + 1), dotted [c1 c; c2 c; c3 c + 1])
  else (c, "").

Fixpoint numbering_from (c : counters) (levels : list Z) : list string :=
  match levels with
  | [] => []
  | level :: rest =>
      let '(c, pre) := number c level in pre :: numbering_from c rest
  end.

(** The prefixes of headings of these levels, visited in order. *)
Definition numbering (levels : list Z) : list string :=
  numbering_from (mkCounters 0 0 0) levels.

(** The last Section of a level among those before S, if any. *)
Definition last_of_level (level : Z) (before : list Chapter.t)
    : option Chapter.t :=
  last (List.filter (fun c => bool_decide (Chapter.Level c = level)) before).

(** The largest level of a Section before S whose level is smaller than
    the level of S; 0 when there is none. *)
Fixpoint deepest_candidate (level : Z) (before : list Chapter.t) : Z :=
  match before with
  | [] => 0
  | c :: rest =>
      if bool_decide (Chapter.Level c < level)
      then Z.max (Chapter.Level c) (deepest_candidate level rest)
      else deepest_candidate level rest
  end.

(** The Sections after S "before the next Section with level <= S.level". *)
Fixpoint span (level : Z) (after : list Chapter.t) : list Chapter.t :=
  match after with
  | [] => []
  | c :: rest =>
      if bool_decide (Chapter.Level c <= level) then [] else c :: span level rest
  end.

(** "Exactly the Sections with level == S.level+1 that occur before the
    next Section with level <= S.level". *)
Definition direct_children (level : Z) (after : list Chapter.t)
    : list Chapter.t :=
  List.filter (fun c => bool_decide (Chapter.Level c = level + 1))
    (span level after).

(** "Percent-decode it": an escape, a percent sign with two hexadecimal
    digits, stands for the byte that the digits denote, and every other
    character for itself; a percent sign that is not followed by two
    hexadecimal digits cannot be decoded, which is [None]. *)
Fixpoint percent_decode (s : string) : option string :=
  match s with
  | EmptyString => Some EmptyString
  | String c rest =>
      if Ascii.eqb c "%" then
        match rest with
        | String a (String b rest) =>
            if url.ishex a && url.ishex b then
              String (Ascii.ascii_of_N (url.unhex a * 16 + url.unhex b))
                <$> percent_decode rest
            else None
        | _ => None
        end
      else String c <$> percent_decode rest
  end.

(** The string with a space for every plus sign. *)
Fixpoint plus_as_space (s : string) : string :=
  match s with
  | EmptyString => EmptyString
  | String c rest =>
      String (if Ascii.eqb c "+" then " "%char else c) (plus_as_space rest)
  end.

(** The rewritten attribute: the same attribute with another value. *)
Definition with_val (a : Attribute) (v : string) : Attribute :=
  mkAttribute (Namespace a) (Key a) v.

(** "The first one in document order" whose title text equals the
    decoded value. *)
Definition first_titled (title : string) (pages : list Page.t)
    : option Page.t :=
  List.find (fun page => bool_decide (Text (Page.Title page) = title)) pages.

(** What becomes of an attribute of an anchor: a reference attribute whose
    value decodes to the title of a Section gets the path of the first
    such Section; any other attribute is left as it is. *)
Definition resolved (QueryUnescape : string -> string * option error)
    (pages : list Page.t) (a : Attribute) : Attribute :=
  if bool_decide (Key a = "href") then
    match QueryUnescape (Val a) with
    | (title, None) =>
        match first_titled title pages with
        | Some target => with_val a (Page.Path target)
        | None => a
        end
    | (_, Some _) => a
    end
  else a.

End spec.

(** ** Loop invariants and relations used in the proofs *)

Module inv.

Import html book.

(** The counters of the closure, read as the counters of the
    specification. *)
Definition to_spec (c : Counters) : spec.counters :=
  spec.mkCounters (h1Counter c) (h2Counter c) (h3Counter c).

(** No counter exceeds the number of headings visited. *)
Definition counters_below (c : Counters) (n : Z) : Prop :=
  (0 <= h1Counter c <= n) /\ (0 <= h2Counter c <= n) /\ (0 <= h3Counter c <= n).

(** The state of the loop of [getParents] after the chapters [seen]:
    one slot per level up to the deepest candidate, each with the last
    chapter of its level. *)
Definition parents_of (level : Z) (seen : list Chapter.t)
    (parents : list (option Chapter.t)) : Prop :=
  Z.of_nat (length parents) = spec.deepest_candidate level seen
  /\ forall k : nat, (k < length parents)%nat ->
       parents !! k = Some (spec.last_of_level (Z.of_nat k + 1) seen).

(** The page that [Pages] makes of a chapter. *)
Definition page_of (chapters : list Chapter.t) (chapter : Chapter.t)
    (page : Page.t) : Prop :=
  Page.Id page = Chapter.Id chapter
  /\ Page.Level page = Chapter.Level chapter
  /\ Page.Path page = Chapter.Path chapter
  /\ Page.Title page = Chapter.Title chapter
  /\ Page.Content page = Chapter.Content chapter
  /\ Page.Next page = getNext chapter chapters
  /\ Page.Previous page = getPrevious chapter chapters
  /\ Some (Page.Parents page) = getParents chapter chapters
  /\ Page.Children page = getChildren chapter chapters.

End inv.

(** ** Library functions to run the code with

    The code is parameterised by the library functions it calls.  To run it
    on documents, this module gives instances of them: [QueryUnescape]
    is [url.QueryUnescape]; [Fields] splits at ASCII white space
    as Go's [strings.Fields] does; [Render] writes elements and text the
    way [html.Render] does for them, without escaping; [Parse] knows the
    few texts the examples use. *)

Module demo.

Import Stdlib.Strings.Ascii.
Import html book.

Definition QueryUnescape (s : string) : string * option error :=
  url.QueryUnescape s.

Definition Fields (s : string) : list string := String.words s.

Definition quote : string := String (Ascii.ascii_of_N 34) "".

Definition render_attribute (a : Attribute) : string :=
  " " +:+ Key a +:+ "=" +:+ quote +:+ Val a +:+ quote.

Fixpoint render_nodes (n : Node) (siblings_too : bool) : string :=
  match n with
  | nil => ""
  | node t d a c s =>
      match t with
      | TextNode => d
      | ElementNode =>
          "<" +:+ d +:+ String.concat "" (render_attribute <$> a) +:+ ">"
          +:+ render_nodes c true +:+ "</" +:+ d +:+ ">"
      | _ => ""
      end +:+ (if siblings_too then render_nodes s true else "")
  end.

Definition Render (n : Node) : string + error := inl (render_nodes n false).

Definition elem (tag : string) (attr : list Attribute)
    (children sibling : Node) : Node :=
  node ElementNode tag attr children sibling.

Definition text (data : string) (sibling : Node) : Node :=
  node TextNode data [] nil sibling.

Definition document (body_children : Node) : Node :=
  node DocumentNode "" [] 
    (elem "html" [] (elem "head" [] nil (elem "body" [] body_children nil)) nil)
    nil.

Definition href (v : string) : Attribute := mkAttribute "" "href" v.

(** Three anchors: to the title of a Section, with an escape that cannot
    be decoded, and to the title of no Section; [rest] comes after them. *)
Definition anchors_then (rest : Node) : Node :=
  elem "a" [href "Getting%20Started"] (text "link" nil)
    (elem "a" [href "%zz"] (text "broken" nil)
    (elem "a" [href "Nowhere"] (text "none" nil) rest)).

Definition anchors : Node := anchors_then nil.

Definition anchors_text : string := render_nodes anchors true.

Definition anchors_tree : Node := document anchors.

Definition Parse (s : string) : Node * option error :=
  if bool_decide (s = anchors_text) then (anchors_tree, None)
  else (document (text s nil), None).

Definition empty_heap : Heap := mkHeap 0%nat ∅.

(** [<body><h1>A</h1><h2>B</h2><h3>C</h3><h1>D</h1><h3>E</h3></body>] *)
Definition quirk_body : Node :=
  elem "body" []
    (elem "h1" [] (text "A" nil)
    (elem "h2" [] (text "B" nil)
    (elem "h3" [] (text "C" nil)
    (elem "h1" [] (text "D" nil)
    (elem "h3" [] (text "E" nil) nil))))) nil.

(** [<body><div><h1>Getting Started</h1></div><p>text</p></body>] *)
Definition nested_body : Node :=
  elem "body" []
    (elem "div" [] (elem "h1" [] (text "Getting Started" nil) nil)
    (elem "p" [] (text "text" nil) nil)) nil.

(** The chapters of [quirk_body]. *)
Definition quirk_chapters : list Chapter.t :=
  (Chapters Render Fields empty_heap quirk_body).2.1.

Definition no_chapter : Chapter.t :=
  Chapter.mk 0%nat 0 0 "" (mkTitle "" "" "") 0%nat.

(** The k-th chapter of [quirk_body], from 0. *)
Definition quirk_chapter (k : nat) : Chapter.t :=
  default no_chapter (quirk_chapters !! k).

(** A book of two Sections with the same title; the first contains the
    three anchors. *)
Definition book_body : Node :=
  elem "body" []
    (elem "h1" [] (text "Getting  Started" nil)
    (anchors_then
    (elem "h1" [] (text "Getting Started" nil)
    (elem "p" [] (text "text" nil) nil)))) nil.

Definition book_heap : Heap :=
  match Pages Render Fields empty_heap book_body with
  | Some (h, _) => h
  | None => empty_heap
  end.

Definition book_pages : list Page.t :=
  match Pages Render Fields empty_heap book_body with
  | Some (_, (pages, _)) => pages
  | None => []
  end.

Definition no_page : Page.t :=
  Page.mk 0 0 "" (mkTitle "" "" "") 0%nat None false None false [] false []
    false.

Definition first_page : Page.t := default no_page (book_pages !! 0%nat).

(** The heap after the cross-references of the book were resolved. *)
Definition resolved_heap : Heap :=
  (ResolveCrossReferences Parse Render QueryUnescape book_pages book_heap).1.

(** The chapters of [book_body]. *)
Definition book_chapters : list Chapter.t :=
  (Chapters Render Fields empty_heap book_body).2.1.

Definition book_chapter (k : nat) : Chapter.t :=
  default no_chapter (book_chapters !! k).

(** A parser that accepts the text of the three anchors only. *)
Definition Parse_strict (s : string) : Node * option error :=
  if bool_decide (s = anchors_text) then (anchors_tree, None)
  else (nil, Some (errors.Lib "parse error")).

(** A whole file: a head with a title and an author, and [book_body]. *)
Definition book_document : Node :=
  node DocumentNode "" []
    (elem "html" []
       (elem "head" []
          (elem "title" [] (text "Guide" nil)
          (elem "meta" [mkAttribute "" "name" "author";
                        mkAttribute "" "content" "A. Writer"] nil nil))
          book_body) nil) nil.

Definition book_file : string := render_nodes (FirstChild book_document) true.

Definition Parse_file (s : string) : Node * option error :=
  if bool_decide (s = book_file) then (book_document, None) else Parse s.

Definition no_book : Book.t := Book.mk (MetaData.mk "" "" "" "") [].

(** The book that [New] makes of the file, and the heap after it. *)
Definition new_book : Book.t :=
  match New Parse_file Render QueryUnescape Fields empty_heap book_file with
  | Some (_, (Some b, _)) => b
  | _ => no_book
  end.

Definition new_heap : Heap :=
  match New Parse_file Render QueryUnescape Fields empty_heap book_file with
  | Some (h, _) => h
  | None => empty_heap
  end.

(** The heap after the run with the strict parser, which stops at the
    second page. *)
Definition strict_heap : Heap :=
  (ResolveCrossReferences Parse_strict Render QueryUnescape book_pages
     book_heap).1.

(** [<body><h1>A</h1><h2>B</h2><h3>C</h3><h2>D</h2><h1>E</h1></body>] *)
Definition toc_body : Node :=
  elem "body" []
    (elem "h1" [] (text "A" nil)
    (elem "h2" [] (text "B" nil)
    (elem "h3" [] (text "C" nil)
    (elem "h2" [] (text "D" nil)
    (elem "h1" [] (text "E" nil) nil))))) nil.

Definition toc_chapters : list Chapter.t :=
  (Chapters Render Fields empty_heap toc_body).2.1.

Definition toc_chapter (k : nat) : Chapter.t :=
  default no_chapter (toc_chapters !! k).

(** A parser that knows the serializations of the given nodes. *)
Definition Parse_of (known : list Node) (s : string) : Node * option error :=
  match List.find (fun t => bool_decide (render_nodes t true = s)) known with
  | Some t => (document t, None)
  | None => (document (text s nil), None)
  end.

(** An anchor to the title C++, and two anchors, to the title C++ and to
    Getting+Started; [rest] comes after them. *)
Definition self_anchor (rest : Node) : Node :=
  elem "a" [href "C++"] (text "self" nil) rest.

Definition other_anchors (rest : Node) : Node :=
  elem "a" [href "C++"] (text "other" nil)
    (elem "a" [href "Getting+Started"] (text "plus" nil) rest).

(** A book of the Sections C++ and Getting Started: the first refers to
    its own title, the second to the title of the first and, with a plus
    sign between the words, to its own. *)
Definition plus_body : Node :=
  elem "body" []
    (elem "h1" [] (text "C++" nil)
    (self_anchor
    (elem "h1" [] (text "Getting Started" nil)
    (other_anchors nil)))) nil.

Definition Parse_plus : string -> Node * option error :=
  Parse_of [self_anchor nil; other_anchors nil].

Definition plus_heap : Heap :=
  match Pages Render Fields empty_heap plus_body with
  | Some (h, _) => h
  | None => empty_heap
  end.

Definition plus_pages : list Page.t :=
  match Pages Render Fields empty_heap plus_body with
  | Some (_, (pages, _)) => pages
  | None => []
  end.

Definition plus_page (k : nat) : Page.t :=
  default no_page (plus_pages !! k).

(** The heap after the cross-references of that book were resolved. *)
Definition plus_resolved_heap : Heap :=
  (ResolveCrossReferences Parse_plus Render url.QueryUnescape plus_pages
     plus_heap).1.

End demo.

(** * Properties *)

Import html book inv.

(** ** Integers and strings *)

Lemma GoInt_wrap_small z :
  GoInt.MinInt <= z <= GoInt.MaxInt -> GoInt.wrap z = z.
Proof.
  unfold GoInt.MinInt, GoInt.MaxInt, GoInt.wrap. intros Hz.
  rewrite Z.mod_small by lia. lia.
Qed.

Lemma GoInt_add_small a b :
  GoInt.MinInt <= a + b <= GoInt.MaxInt -> GoInt.add a b = a + b.
Proof. apply GoInt_wrap_small. Qed.

Lemma GoInt_sub_small a b :
  GoInt.MinInt <= a - b <= GoInt.MaxInt -> GoInt.sub a b = a - b.
Proof. apply GoInt_wrap_small. Qed.

Lemma GoInt_bounds : GoInt.MinInt = - 2 ^ 63 /\ GoInt.MaxInt = 2 ^ 63 - 1.
Proof. done. Qed.

Ltac int_small :=
  rewrite ?GoInt_add_small, ?GoInt_sub_small
    by (destruct GoInt_bounds; unfold slices.len in *; lia).

Lemma string_length_app (s t : string) :
  String.length (s +:+ t) = (String.length s + String.length t)%nat.
Proof.
  induction s as [|a s IH]; [done|].
  change (String a s +:+ t) with (String a (s +:+ t)). cbn. by rewrite IH.
Qed.

Lemma string_app_inj_r (s1 s2 t : string) : s1 +:+ t = s2 +:+ t -> s1 = s2.
Proof.
  revert s2. induction s1 as [|a s1 IH]; intros [|b s2] Heq; try done.
  - apply (f_equal String.length) in Heq.
    change ("" +:+ t) with t in Heq.
    change (String b s2 +:+ t) with (String b (s2 +:+ t)) in Heq.
    cbn in Heq. rewrite string_length_app in Heq. lia.
  - apply (f_equal String.length) in Heq.
    change ("" +:+ t) with t in Heq.
    change (String a s1 +:+ t) with (String a (s1 +:+ t)) in Heq.
    cbn in Heq. rewrite string_length_app in Heq. lia.
  - change (String a (s1 +:+ t) = String b (s2 +:+ t)) in Heq.
    injection Heq as -> Heq. f_equal. by apply IH.
Qed.

Lemma page_path_inj (a b : Z) :
  "page" +:+ Sprintf_d a +:+ ".html" = "page" +:+ Sprintf_d b +:+ ".html" ->
  a = b.
Proof.
  intros Heq. apply (inj (String.app "page")) in Heq.
  apply string_app_inj_r in Heq. by apply (inj pretty) in Heq.
Qed.

(** ** Headings *)

Lemma HeadingMap_Some (d : string) (level : Z) :
  parsetree.HeadingMap !! d = Some level ->
  1 <= level <= 6 /\ d ∈ spec.heading_tags
  /\ (level = 1 <-> d = "h1") /\ (level = 2 <-> d = "h2")
  /\ (level = 3 <-> d = "h3").
Proof.
  unfold parsetree.HeadingMap, spec.heading_tags.
  rewrite !lookup_insert_Some, lookup_empty.
  intros H. repeat (destruct H as [[<- <-]|[_ H]]; [set_solver by lia|]).
  done.
Qed.

Lemma HeadingMap_tags (d : string) :
  d ∈ spec.heading_tags -> is_Some (parsetree.HeadingMap !! d).
Proof.
  unfold spec.heading_tags. rewrite !elem_of_cons, elem_of_nil.
  intros H. repeat (destruct H as [->|H]; [by eexists|]). done.
Qed.

Lemma IsHeading_spec (n : Node) :
  parsetree.IsHeading n = spec.is_heading_element n.
Proof.
  unfold parsetree.IsHeading, spec.is_heading_element, parsetree.IsElementFunc,
    parsetree.IsElement.
  destruct n as [|t d a c s]; [done|]. cbn. f_equal.
  apply bool_decide_ext. split.
  - intros [l Hl]. by apply HeadingMap_Some in Hl as (_ & ? & _).
  - apply HeadingMap_tags.
Qed.

Lemma IsHeading_level (n : Node) :
  parsetree.IsHeading n = true ->
  exists level, parsetree.HeadingLevel n = (level, None)
    /\ parsetree.HeadingMap !! Data n = Some level
    /\ parsetree.TagName n = Data n.
Proof.
  unfold parsetree.IsHeading, parsetree.IsElementFunc, parsetree.HeadingLevel,
    parsetree.TagName.
  intros [He [l Hl]%bool_decide_eq_true]%andb_true_iff.
  rewrite He, Hl. eauto.
Qed.

Lemma ChildrenFunc_loop_filter (child : Node) (p : Node -> bool) :
  parsetree.ChildrenFunc_loop child (Some p) = List.filter p (spec.siblings child).
Proof.
  induction child as [|t d a c _ s IH]; [done|].
  cbn [parsetree.ChildrenFunc_loop spec.siblings List.filter].
  rewrite IH. by destruct (p _).
Qed.

Lemma Headings_direct (body : Node) :
  parsetree.Headings body = spec.direct_headings body.
Proof.
  unfold parsetree.Headings, parsetree.ChildrenFunc, spec.direct_headings,
    spec.child_nodes.
  destruct body as [|t d a c s]; [done|]. cbn.
  rewrite ChildrenFunc_loop_filter. apply List.filter_ext, IsHeading_spec.
Qed.

Lemma Headings_IsHeading (body : Node) :
  Forall (fun n => parsetree.IsHeading n = true) (parsetree.Headings body).
Proof.
  unfold parsetree.Headings, parsetree.ChildrenFunc.
  destruct body as [|t d a c s]; [constructor|]. cbn.
  rewrite ChildrenFunc_loop_filter. apply Forall_forall.
  intros n Hn%list_elem_of_In%List.filter_In. tauto.
Qed.

(** ** The Section extractor *)

Section extraction_facts.

Variable Render : Node -> string + error.
Variable Fields : string -> list string.

Lemma Html_loop_total (nodes : list Node) (buffer : string) :
  (forall n, exists text, Render n = inl text) ->
  exists text, parsetree.Html_loop Render nodes buffer = (text, None).
Proof.
  intros Hr. revert buffer.
  induction nodes as [|n nodes IH]; intros buffer; cbn; [eauto|].
  destruct (parsetree.IsNil n); cbn; [apply IH|].
  destruct (Hr n) as [text ->]. apply IH.
Qed.

(** One call of the closure does what the specification's counters do,
    as long as no counter is at the largest [int]. *)
Lemma prefix_number (c c' : Counters) (heading : Node) (level n : Z)
    (pre : string) :
  parsetree.IsHeading heading = true ->
  parsetree.HeadingLevel heading = (level, None) ->
  counters_below c n -> n < GoInt.MaxInt ->
  prefix c heading = (c', pre) ->
  spec.number (to_spec c) level = (to_spec c', pre) /\ counters_below c' (n + 1).
Proof.
  intros (l & Hl & Hmap & Htag)%IsHeading_level Hlevel (H1 & H2 & H3) Hn.
  assert (l = level) as -> by congruence.
  apply HeadingMap_Some in Hmap as (_ & _ & E1 & E2 & E3).
  unfold prefix, spec.number, counters_below. rewrite Htag.
  destruct GoInt_bounds as [Hmin Hmax].
  rewrite !GoInt_add_small by lia.
  repeat case_bool_decide; try (exfalso; intuition congruence);
    intros [= <- <-]; cbn; (split; [done|lia]).
Qed.

Lemma Chapters_body_inr (heading : Node) (index : Z) (c c' : Counters)
    (h h' : Heap) (chapter : Chapter.t) :
  Chapters_body Render Fields heading index c h = inr (chapter, c', h') ->
  Chapter.Id chapter = GoInt.add index 1
  /\ Chapter.Path chapter = "page" +:+ Sprintf_d (Chapter.Id chapter) +:+ ".html"
  /\ parsetree.HeadingLevel heading = (Chapter.Level chapter, None)
  /\ prefix c heading = (c', Prefix (Chapter.Title chapter))
  /\ Text (Chapter.Title chapter) = Join (Fields (parsetree.Text heading)) " "
  /\ Chapter.Content chapter = next h
  /\ Chapter.addr chapter = S (next h)
  /\ next h' = S (S (next h))
  /\ parsetree.Html Render
       (parsetree.SiblingsUntilFunc heading (Some parsetree.IsHeading))
     = (load h' (Chapter.Content chapter), None)
  /\ (forall a, a <> next h -> load h' a = load h a).
Proof.
  unfold Chapters_body.
  destruct (parsetree.HeadingLevel heading) as [level [err|]]; [done|].
  destruct (parsetree.Html Render (parsetree.Children heading))
    as [headingHtml [err|]]; [done|].
  destruct (parsetree.Html Render _) as [contentHtml [err|]]; [done|].
  destruct (prefix c heading) as [c1 pre]. cbn.
  intros [= <- <- <-]. cbn. unfold load. cbn.
  rewrite lookup_insert_eq. repeat split; try done.
  intros a Ha. by rewrite lookup_insert_ne.
Qed.

Lemma Chapters_body_total (heading : Node) (index : Z) (c : Counters)
    (h : Heap) :
  (forall n, exists text, Render n = inl text) ->
  parsetree.IsHeading heading = true ->
  exists r, Chapters_body Render Fields heading index c h = inr r.
Proof.
  intros Hr (level & Hl & _)%IsHeading_level. unfold Chapters_body.
  rewrite Hl. unfold parsetree.Html.
  destruct (Html_loop_total (parsetree.Children heading) "" Hr) as [t1 ->].
  destruct (Html_loop_total
    (parsetree.SiblingsUntilFunc heading (Some parsetree.IsHeading)) "" Hr)
    as [t2 ->].
  destruct (prefix c heading). cbn. eauto.
Qed.

(** The slice built so far is only appended to. *)
Lemma Chapters_loop_acc (headings : list Node) (index : Z) (c : Counters)
    (h : Heap) (chapters : list Chapter.t) :
  Chapters_loop Render Fields headings index c h chapters =
  let r := Chapters_loop Render Fields headings index c h [] in
  (r.1, (chapters ++ r.2.1, r.2.2)).
Proof.
  revert index c h chapters.
  induction headings as [|heading rest IH]; intros index c h chapters; cbn.
  - by rewrite app_nil_r.
  - destruct (Chapters_body _ _ _ _ _ _) as [err|[[chapter c'] h']]; cbn.
    + by rewrite app_nil_r.
    + rewrite (IH _ _ _ (chapters ++ [chapter])), (IH _ _ _ [chapter]). cbn.
      by rewrite <- app_assoc.
Qed.

Lemma Chapters_loop_cons (heading : Node) (rest : list Node) (index : Z)
    (c : Counters) (h : Heap) :
  Chapters_loop Render Fields (heading :: rest) index c h [] =
  match Chapters_body Render Fields heading index c h with
  | inl err => (h, ([], Some err))
  | inr (chapter, c', h') =>
      let r := Chapters_loop Render Fields rest (index + 1) c' h' [] in
      (r.1, (chapter :: r.2.1, r.2.2))
  end.
Proof.
  cbn. destruct (Chapters_body _ _ _ _ _ _) as [err|[[chapter c'] h']]; [done|].
  by rewrite Chapters_loop_acc.
Qed.

(** What the loop builds, whether it ends with an error or not: a chapter
    for each of the first headings, with the level of its heading, at
    addresses allocated in sequence. *)
Lemma Chapters_loop_shape (headings : list Node) (index : Z) (c : Counters)
    (h : Heap) :
  let r := Chapters_loop Render Fields headings index c h [] in
  (length r.2.1 <= length headings)%nat
  /\ (r.2.2 = None -> length r.2.1 = length headings)
  /\ ((forall n, exists text, Render n = inl text) ->
      Forall (fun n => parsetree.IsHeading n = true) headings -> r.2.2 = None)
  /\ forall (k : nat) chapter, r.2.1 !! k = Some chapter ->
       (exists heading, headings !! k = Some heading
          /\ parsetree.HeadingLevel heading = (Chapter.Level chapter, None))
       /\ Chapter.Id chapter = GoInt.add (index + Z.of_nat k) 1
       /\ Chapter.Path chapter
          = "page" +:+ Sprintf_d (Chapter.Id chapter) +:+ ".html"
       /\ Chapter.Content chapter = (next h + 2 * k)%nat
       /\ Chapter.addr chapter = (next h + 2 * k + 1)%nat.
Proof.
  revert index c h.
  induction headings as [|heading rest IH]; intros index c h.
  { cbn. split; [lia|]. split; [done|]. split; [done|].
    intros k chapter Hk. by destruct k. }
  rewrite Chapters_loop_cons.
  destruct (Chapters_body _ _ _ _ _ _) as [err|[[chapter c'] h']] eqn:Hbody.
  { cbn. split; [lia|]. split; [done|]. split.
    - intros Hr [Hh _]%Forall_cons.
      destruct (Chapters_body_total heading index c h Hr Hh) as [r Hr'].
      congruence.
    - intros k chapter Hk. by destruct k. }
  specialize (IH (index + 1) c' h') as (Hlen & Hnone & Htotal & Hnew).
  apply Chapters_body_inr in Hbody
    as (Hid & Hpath & Hlevel & _ & _ & Hcontent & Haddr & Hnext & _).
  cbn. split; [lia|]. split; [|split].
  - intros Herr. f_equal. by apply Hnone.
  - intros Hr [_ Hrest]%Forall_cons. by apply Htotal.
  - intros [|k] chapter' Hk; cbn in Hk.
    + injection Hk as <-. rewrite Z.add_0_r.
      split; [by exists heading|]. repeat split; try done; lia.
    + apply Hnew in Hk as (Hh & Hi & Hp & Hc & Ha).
      split; [done|]. split; [rewrite Hi; f_equal; lia|].
      split; [done|]. lia.
Qed.

Lemma Chapters_loop_numbering (headings : list Node) (index : Z)
    (c : Counters) (h : Heap) :
  Forall (fun n => parsetree.IsHeading n = true) headings ->
  0 <= index -> index + slices.len headings <= GoInt.MaxInt ->
  counters_below c index ->
  let r := Chapters_loop Render Fields headings index c h [] in
  (fun ch => Prefix (Chapter.Title ch)) <$> r.2.1
  = spec.numbering_from (to_spec c) (Chapter.Level <$> r.2.1).
Proof.
  revert index c h.
  induction headings as [|heading rest IH]; intros index c h Hh Hi Hlen Hc;
    [done|].
  rewrite Chapters_loop_cons.
  destruct (Chapters_body _ _ _ _ _ _) as [err|[[chapter c'] h']] eqn:Hbody;
    [done|].
  apply Forall_cons in Hh as [Hheading Hrest].
  unfold slices.len in *. cbn [length] in Hlen.
  apply Chapters_body_inr in Hbody as (_ & _ & Hlevel & Hpre & _).
  destruct (prefix_number c c' heading (Chapter.Level chapter) index
              (Prefix (Chapter.Title chapter)) Hheading Hlevel Hc)
    as [Hnumber Hc']; [lia|done|].
  cbn. rewrite Hnumber. f_equal. apply IH; [done|lia|lia|done].
Qed.

(** [Html] returns no error exactly when every node of the list that is
    not nil is rendered, and an error it returns is the error of
    rendering a node of the list. *)
Lemma Html_loop_ok (nodes : list Node) (buffer : string) :
  (parsetree.Html_loop Render nodes buffer).2 = None <->
  forall n, n ∈ nodes -> parsetree.IsNil n = false ->
    exists text, Render n = inl text.
Proof.
  revert buffer. induction nodes as [|n nodes IH]; intros buffer; cbn.
  { split; [|done]. intros _ n Hn. by apply elem_of_nil in Hn. }
  destruct (parsetree.IsNil n) eqn:Hnil; cbn.
  - rewrite IH. split.
    + intros Hall m [->|Hm]%elem_of_cons Hm'; [congruence|by apply Hall].
    + intros Hall m Hm. apply Hall. by right.
  - destruct (Render n) as [text|e] eqn:Hn.
    + rewrite IH. split.
      * intros Hall m [->|Hm]%elem_of_cons Hm'; [by exists text|by apply Hall].
      * intros Hall m Hm. apply Hall. by right.
    + cbn. split; [done|]. intros Hall.
      destruct (Hall n) as [text Htext]; [by left|done|congruence].
Qed.

Lemma Html_loop_failure (nodes : list Node) (buffer : string) (e : error) :
  (parsetree.Html_loop Render nodes buffer).2 = Some e ->
  exists n, n ∈ nodes /\ Render n = inr e.
Proof.
  revert buffer. induction nodes as [|n nodes IH]; intros buffer; cbn; [done|].
  destruct (parsetree.IsNil n); cbn.
  { intros (m & Hm & He)%IH. exists m. split; [by right|done]. }
  destruct (Render n) as [text|e'] eqn:Hn.
  - intros (m & Hm & He)%IH. exists m. split; [by right|done].
  - cbn. intros [= <-]. exists n. split; [by left|done].
Qed.

(** The body of the loop fails exactly when one of the two serializations
    for the heading does, with the error of the node that is not
    rendered: the error branch after [HeadingLevel] is not taken for a
    heading. *)
Lemma Chapters_body_errors (heading : Node) (index : Z) (c : Counters)
    (h : Heap) :
  parsetree.IsHeading heading = true ->
  ((exists r, Chapters_body Render Fields heading index c h = inr r) <->
   forall n,
     n ∈ parsetree.Children heading
         ++ parsetree.SiblingsUntilFunc heading (Some parsetree.IsHeading) ->
     parsetree.IsNil n = false -> exists text, Render n = inl text)
  /\ forall e, Chapters_body Render Fields heading index c h = inl e ->
       exists n,
         n ∈ parsetree.Children heading
             ++ parsetree.SiblingsUntilFunc heading (Some parsetree.IsHeading)
         /\ Render n = inr e.
Proof.
  intros (level & Hl & _)%IsHeading_level. unfold Chapters_body.
  rewrite Hl. unfold parsetree.Html.
  pose proof (Html_loop_ok (parsetree.Children heading) "") as Hok1.
  pose proof (Html_loop_failure (parsetree.Children heading) "") as Hfail1.
  pose proof (Html_loop_ok
    (parsetree.SiblingsUntilFunc heading (Some parsetree.IsHeading)) "")
    as Hok2.
  pose proof (Html_loop_failure
    (parsetree.SiblingsUntilFunc heading (Some parsetree.IsHeading)) "")
    as Hfail2.
  destruct (parsetree.Html_loop Render (parsetree.Children heading) "")
    as [t1 [e1|]]; cbn [snd] in *.
  { split.
    - split; [by intros [r Hr]|]. intros Hall.
      assert (Some e1 = None) as Hno; [|done]. apply Hok1.
      intros n Hn. apply Hall, elem_of_app. by left.
    - intros e [= <-]. destruct (Hfail1 e1 eq_refl) as (n & Hn & He).
      exists n. split; [|done]. apply elem_of_app. by left. }
  destruct (parsetree.Html_loop Render
              (parsetree.SiblingsUntilFunc heading (Some parsetree.IsHeading))
              "") as [t2 [e2|]]; cbn [snd] in *.
  { split.
    - split; [by intros [r Hr]|]. intros Hall.
      assert (Some e2 = None) as Hno; [|done]. apply Hok2.
      intros n Hn. apply Hall, elem_of_app. by right.
    - intros e [= <-]. destruct (Hfail2 e2 eq_refl) as (n & Hn & He).
      exists n. split; [|done]. apply elem_of_app. by right. }
  destruct (prefix c heading). cbn. split; [|done].
  split; [|by eauto].
  intros _ n [Hn|Hn]%elem_of_app; [by apply Hok1|by apply Hok2].
Qed.

(** The loop returns no error exactly when every node it has to
    serialize is rendered, and an error it returns is the error of
    rendering one of them. *)
Lemma Chapters_loop_errors (headings : list Node) (index : Z) (c : Counters)
    (h : Heap) :
  Forall (fun n => parsetree.IsHeading n = true) headings ->
  let r := Chapters_loop Render Fields headings index c h [] in
  (r.2.2 = None <->
   forall heading n, heading ∈ headings ->
     n ∈ parsetree.Children heading
         ++ parsetree.SiblingsUntilFunc heading (Some parsetree.IsHeading) ->
     parsetree.IsNil n = false -> exists text, Render n = inl text)
  /\ forall e, r.2.2 = Some e ->
       exists heading n, heading ∈ headings
         /\ n ∈ parsetree.Children heading
                ++ parsetree.SiblingsUntilFunc heading
                     (Some parsetree.IsHeading)
         /\ Render n = inr e.
Proof.
  revert index c h.
  induction headings as [|heading rest IH]; intros index c h Hall.
  { cbn. split; [|done]. split; [|done].
    intros _ heading n Hin. by apply elem_of_nil in Hin. }
  apply Forall_cons in Hall as [Hheading Hrest].
  rewrite Chapters_loop_cons.
  destruct (Chapters_body_errors heading index c h Hheading) as [Hok Hfail].
  destruct (Chapters_body _ _ _ _ _ _) as [err|[[chapter c'] h']] eqn:Hbody.
  { cbn. split.
    - split; [done|]. intros Hrender.
      destruct Hok as [_ [r Hr]]; [|done].
      intros n Hn. apply (Hrender heading); [by left|done].
    - intros e [= <-]. destruct (Hfail err eq_refl) as (n & Hn & He).
      exists heading, n. split; [by left|done]. }
  specialize (IH (index + 1) c' h' Hrest) as [IHok IHfail].
  cbn zeta in *. cbn [fst snd]. split.
  - rewrite IHok. split.
    + intros Hrender heading' n [->|Hin]%elem_of_cons.
      * apply Hok. by eexists.
      * by apply Hrender.
    + intros Hrender heading' n Hin. apply Hrender. by right.
  - intros e (heading' & n & Hin & Hn & He)%IHfail.
    exists heading', n. split; [by right|done].
Qed.

(** C8: a node that is not a body element is rejected, by the extractor
    and by the entry point of the hierarchy resolution alike: both return
    the error of the structural check and an empty list. *)
Theorem non_body_rejected (h : Heap) (n : Node) :
  parsetree.IsBody n = false ->
  Chapters Render Fields h n
  = (h, ([], Some (errors.New "passed HTML node is not a 'body' element")))
  /\ Pages Render Fields h n
     = Some (h, ([], Some (errors.New "passed HTML node is not a 'body' element"))).
Proof.
  intros Hn. unfold Chapters, Pages. rewrite Hn. done.
Qed.

(** C9: the heading enumeration admits exactly the elements h1 to h6; for
    every node it selects the level lookup succeeds with a level from 1 to
    6, so the error branch after [HeadingLevel] is never taken: an error
    that the extractor returns for a body is the error of rendering a node
    that it serializes for one of the headings, and it returns none when
    all of these are rendered.  Every Section extracted, also when the
    extraction ends with an error, bears the level of a selected heading,
    from 1 to 6. *)
Theorem heading_levels_in_range (h : Heap) (body : Node) :
  (forall n, parsetree.IsHeading n = true <->
     Type_ n = ElementNode /\ Data n ∈ ["h1"; "h2"; "h3"; "h4"; "h5"; "h6"])
  /\ (forall heading, heading ∈ parsetree.Headings body ->
        exists level, parsetree.HeadingLevel heading = (level, None)
          /\ 1 <= level <= 6)
  /\ (forall chapter, chapter ∈ (Chapters Render Fields h body).2.1 ->
        1 <= Chapter.Level chapter <= 6
        /\ exists heading, heading ∈ parsetree.Headings body
             /\ parsetree.HeadingLevel heading = (Chapter.Level chapter, None))
  /\ (parsetree.IsBody body = true ->
      forall e, (Chapters Render Fields h body).2.2 = Some e ->
        exists heading n, heading ∈ parsetree.Headings body
          /\ n ∈ parsetree.Children heading
                 ++ parsetree.SiblingsUntilFunc heading
                      (Some parsetree.IsHeading)
          /\ Render n = inr e)
  /\ (parsetree.IsBody body = true ->
      (forall heading n, heading ∈ parsetree.Headings body ->
         n ∈ parsetree.Children heading
             ++ parsetree.SiblingsUntilFunc heading (Some parsetree.IsHeading) ->
         exists text, Render n = inl text) ->
      (Chapters Render Fields h body).2.2 = None).
Proof.
  split; [|split; [|split; [|split]]]; cycle 3.
  { intros Hbody e. unfold Chapters. rewrite Hbody. cbn [negb].
    apply (Chapters_loop_errors (parsetree.Headings body) 0 getPrefix h).
    apply Headings_IsHeading. }
  { intros Hbody Hrender. unfold Chapters. rewrite Hbody. cbn [negb].
    apply (Chapters_loop_errors (parsetree.Headings body) 0 getPrefix h).
    - apply Headings_IsHeading.
    - intros heading n Hheading Hn _. by eapply Hrender. }
  - intros n. rewrite IsHeading_spec. unfold spec.is_heading_element.
    rewrite andb_true_iff, !bool_decide_eq_true. done.
  - intros heading Hin.
    pose proof (Headings_IsHeading body) as Hall.
    rewrite Forall_forall in Hall.
    destruct (IsHeading_level heading (Hall _ Hin)) as (level & Hl & Hmap & _).
    exists level. split; [done|]. by apply HeadingMap_Some in Hmap as [? _].
  - intros chapter Hin. unfold Chapters in Hin.
    destruct (parsetree.IsBody body); cbn in Hin; [|by apply elem_of_nil in Hin].
    apply list_elem_of_lookup in Hin as [k Hk].
    apply Chapters_loop_shape in Hk as ((heading & Hh & Hlevel) & _).
    assert (parsetree.HeadingMap !! Data heading = Some (Chapter.Level chapter))
      as Hmap.
    { unfold parsetree.HeadingLevel in Hlevel.
      destruct (parsetree.HeadingMap !! Data heading); by simplify_eq. }
    split; [by apply HeadingMap_Some in Hmap as [? _]|].
    exists heading. split; [|done]. by eapply list_elem_of_lookup_2.
Qed.

(** C1: the numbering prefixes of the Sections extracted are those of the
    three counters of the specification run over the levels of the
    Sections in document order: level 1 increments the first counter and
    resets the second, level 2 increments the second and resets the third,
    level 3 increments the third, levels 4 to 6 get the empty prefix. *)
Theorem numbering_prefixes (h : Heap) (body : Node) :
  slices.len (parsetree.Headings body) <= GoInt.MaxInt ->
  let chapters := (Chapters Render Fields h body).2.1 in
  (fun chapter => Prefix (Chapter.Title chapter)) <$> chapters
  = spec.numbering (Chapter.Level <$> chapters).
Proof.
  intros Hlen. unfold Chapters.
  destruct (parsetree.IsBody body); cbn; [|done].
  apply (Chapters_loop_numbering (parsetree.Headings body) 0 getPrefix h).
  - apply Headings_IsHeading.
  - done.
  - lia.
  - unfold counters_below. cbn. lia.
Qed.

(** C2, amended: the extractor makes one Section for each heading element
    that is a direct child of the body, in document order; the i-th has
    Id i and Path page<i>.html, and the Paths are pairwise distinct.  It
    returns no error exactly when no serialization fails, a serialization
    being the rendering of a child of such a heading or of a node between
    it and the next heading. *)
Theorem chapters_of_direct_headings (h : Heap) (body : Node) :
  parsetree.IsBody body = true ->
  slices.len (spec.direct_headings body) <= GoInt.MaxInt ->
  let r := Chapters Render Fields h body in
  (r.2.2 = None -> length r.2.1 = length (spec.direct_headings body))
  /\ (r.2.2 = None <->
      forall heading n, heading ∈ spec.direct_headings body ->
        n ∈ parsetree.Children heading
            ++ parsetree.SiblingsUntilFunc heading (Some parsetree.IsHeading) ->
        parsetree.IsNil n = false -> exists text, Render n = inl text)
  /\ (forall (i : nat) chapter, r.2.1 !! i = Some chapter ->
        Chapter.Id chapter = Z.of_nat i + 1
        /\ Chapter.Path chapter = "page" +:+ pretty (Z.of_nat i + 1) +:+ ".html"
        /\ exists heading, spec.direct_headings body !! i = Some heading
             /\ parsetree.HeadingLevel heading = (Chapter.Level chapter, None))
  /\ NoDup (Chapter.Path <$> r.2.1).
Proof.
  intros Hbody Hlen. unfold Chapters. rewrite Hbody. cbn [negb].
  rewrite <- Headings_direct in *.
  pose proof (Chapters_loop_shape (parsetree.Headings body) 0 getPrefix h)
    as (Hle & Hnone & Htotal & Hnew).
  set (r := Chapters_loop _ _ _ _ _ _ _) in *. cbn zeta.
  assert (forall (i : nat) chapter, r.2.1 !! i = Some chapter ->
            Chapter.Id chapter = Z.of_nat i + 1
            /\ Chapter.Path chapter
               = "page" +:+ Sprintf_d (Z.of_nat i + 1) +:+ ".html") as Hid.
  { intros i chapter Hi. pose proof (lookup_lt_Some _ _ _ Hi) as Hlt.
    apply Hnew in Hi as (_ & Hi & Hp & _).
    rewrite GoInt_add_small in Hi
      by (destruct GoInt_bounds; unfold slices.len in *; lia).
    rewrite Hp, Hi. split; [lia|]. do 3 f_equal. }
  split; [done|]. split; [|split].
  - apply (Chapters_loop_errors (parsetree.Headings body) 0 getPrefix h).
    apply Headings_IsHeading.
  - intros i chapter Hi. destruct (Hid _ _ Hi) as [-> ->].
    split; [done|]. split; [done|]. by apply Hnew in Hi as (? & _).
  - apply NoDup_alt. intros i j p.
    rewrite !list_lookup_fmap.
    intros (ci & Hci & ->)%fmap_Some (cj & Hcj & Heq)%fmap_Some.
    destruct (Hid _ _ Hci) as [_ Hpi]. destruct (Hid _ _ Hcj) as [_ Hpj].
    rewrite Hpi, Hpj in Heq. apply page_path_inj in Heq. lia.
Qed.

End extraction_facts.

(** ** The extractor on concrete documents *)

Lemma non_body_rejected_witness :
  parsetree.IsBody nil = false
  /\ Chapters demo.Render demo.Fields demo.empty_heap nil
     = (demo.empty_heap,
        ([], Some (errors.New "passed HTML node is not a 'body' element")))
  /\ Pages demo.Render demo.Fields demo.empty_heap nil
     = Some (demo.empty_heap,
        ([], Some (errors.New "passed HTML node is not a 'body' element"))).
Proof.
  split; [reflexivity|].
  apply (non_body_rejected demo.Render demo.Fields demo.empty_heap nil).
  reflexivity.
Defined.

(** The headings h1, h2, h3, h1, h3 are numbered 1, 1.1, 1.1.1, 2, 2.0.2. *)
Lemma numbering_prefixes_witness :
  slices.len (parsetree.Headings demo.quirk_body) <= GoInt.MaxInt
  /\ (fun chapter => Prefix (Chapter.Title chapter)) <$>
       (Chapters demo.Render demo.Fields demo.empty_heap demo.quirk_body).2.1
     = ["1"; "1.1"; "1.1.1"; "2"; "2.0.2"].
Proof.
  assert (slices.len (parsetree.Headings demo.quirk_body) <= GoInt.MaxInt)
    as Hlen by (vm_compute; discriminate).
  split; [exact Hlen|].
  rewrite (numbering_prefixes demo.Render demo.Fields demo.empty_heap
             demo.quirk_body Hlen).
  vm_compute. reflexivity.
Defined.

Lemma chapters_of_direct_headings_witness :
  parsetree.IsBody demo.quirk_body = true
  /\ slices.len (spec.direct_headings demo.quirk_body) <= GoInt.MaxInt
  /\ NoDup (Chapter.Path <$>
       (Chapters demo.Render demo.Fields demo.empty_heap demo.quirk_body).2.1)
  /\ length (Chapters demo.Render demo.Fields demo.empty_heap demo.quirk_body).2.1
     = 5%nat.
Proof.
  assert (parsetree.IsBody demo.quirk_body = true) as Hbody by reflexivity.
  assert (slices.len (spec.direct_headings demo.quirk_body) <= GoInt.MaxInt)
    as Hlen by (vm_compute; discriminate).
  destruct (chapters_of_direct_headings demo.Render demo.Fields
              demo.empty_heap demo.quirk_body Hbody Hlen)
    as (Hcount & Hnone & _ & Hpaths).
  split; [exact Hbody|]. split; [exact Hlen|]. split; [exact Hpaths|].
  rewrite Hcount; [reflexivity|].
  apply Hnone. intros heading n _ _ _. by eexists.
Defined.

(** C2 as stated fails: a heading nested inside another element is a
    heading element within the body, and no Section is made for it. *)
Lemma nested_heading_not_extracted :
  parsetree.IsBody demo.nested_body = true
  /\ length (spec.headings_within demo.nested_body) = 1%nat
  /\ Chapters demo.Render demo.Fields demo.empty_heap demo.nested_body
     = (demo.empty_heap, ([], None))
  /\ length (Chapters demo.Render demo.Fields demo.empty_heap
               demo.nested_body).2.1
     <> length (spec.headings_within demo.nested_body).
Proof. vm_compute. repeat split; discriminate. Qed.

(** ** The hierarchy resolver *)

(** Pointers to chapters allocated one by one are pairwise distinct, and
    then [slices.Index] finds a chapter of the slice where it is. *)
Lemma Index_loop_distinct (chapters : list Chapter.t) (i : nat)
    (S : Chapter.t) (index : Z) :
  NoDup (Chapter.addr <$> chapters) -> chapters !! i = Some S ->
  slices.Index_loop chapters S index = index + Z.of_nat i.
Proof.
  revert i index.
  induction chapters as [|c rest IH]; intros i index Hnd Hi; [done|].
  rewrite fmap_cons in Hnd. apply NoDup_cons in Hnd as [Hc Hrest].
  cbn. unfold slices.go_eq, Chapter_comparable.
  destruct i as [|i]; cbn in Hi.
  - injection Hi as ->. rewrite bool_decide_true by done. lia.
  - rewrite bool_decide_false.
    + rewrite (IH i) by done. lia.
    + intros Heq. apply Hc. rewrite <- Heq.
      apply list_elem_of_fmap. exists S. split; [done|].
      by eapply list_elem_of_lookup_2.
Qed.

Lemma Index_distinct (chapters : list Chapter.t) (i : nat) (S : Chapter.t) :
  NoDup (Chapter.addr <$> chapters) -> chapters !! i = Some S ->
  slices.Index chapters S = Z.of_nat i.
Proof.
  intros Hnd Hi. unfold slices.Index.
  by rewrite (Index_loop_distinct chapters i S 0).
Qed.

(** *** next and previous *)

Lemma getNext_loop_spec (S T : Chapter.t) (after : list Chapter.t) :
  getNext_loop S after = Some T <->
  exists j : nat, after !! j = Some T /\ Chapter.Level T = Chapter.Level S
    /\ forall (k : nat) c, (k < j)%nat -> after !! k = Some c ->
         Chapter.Level S < Chapter.Level c.
Proof.
  induction after as [|c rest IH]; cbn.
  { split; [done|]. by intros (j & Hj & _). }
  repeat case_bool_decide.
  - split.
    + intros [= <-]. exists 0%nat. split; [done|]. split; [done|].
      intros k c' Hk. lia.
    + intros (j & Hj & HT & Hbetween). destruct j as [|j]; [by cbn in Hj|].
      specialize (Hbetween 0%nat c ltac:(lia) eq_refl). lia.
  - split; [done|]. intros (j & Hj & HT & Hbetween).
    destruct j as [|j]; cbn in Hj; [congruence|].
    specialize (Hbetween 0%nat c ltac:(lia) eq_refl). lia.
  - rewrite IH. split.
    + intros (j & Hj & HT & Hbetween). exists (Datatypes.S j).
      split; [done|]. split; [done|].
      intros [|k] c' Hk Hc'; cbn in Hc'; [simplify_eq; lia|].
      apply (Hbetween k); [lia|done].
    + intros (j & Hj & HT & Hbetween).
      destruct j as [|j]; cbn in Hj; [congruence|].
      exists j. split; [done|]. split; [done|].
      intros k c' Hk Hc'. apply (Hbetween (Datatypes.S k)); [lia|done].
Qed.

Lemma getPrevious_loop_getNext_loop (S : Chapter.t) (before : list Chapter.t) :
  getPrevious_loop S before = getNext_loop S before.
Proof. induction before as [|c rest IH]; cbn; [done|]. by rewrite IH. Qed.

Section navigation_facts.

Variable chapters : list Chapter.t.
Variable i : nat.
Variable S : Chapter.t.
Hypothesis distinct : NoDup (Chapter.addr <$> chapters).
Hypothesis at_i : chapters !! i = Some S.

Lemma getNext_spec (T : Chapter.t) :
  slices.len chapters <= GoInt.MaxInt ->
  getNext S chapters = Some T <->
  exists j : nat, (i < j)%nat /\ chapters !! j = Some T
    /\ Chapter.Level T = Chapter.Level S
    /\ forall (k : nat) c, (i < k < j)%nat -> chapters !! k = Some c ->
         Chapter.Level S < Chapter.Level c.
Proof.
  intros Hlen. unfold getNext. rewrite (Index_distinct chapters i S) by done.
  pose proof (lookup_lt_Some _ _ _ at_i) as Hi.
  int_small. replace (Z.to_nat (Z.of_nat i + 1)) with (Datatypes.S i) by lia.
  rewrite getNext_loop_spec. split.
  - intros (j & Hj & HT & Hbetween). rewrite lookup_drop in Hj.
    exists (Datatypes.S i + j)%nat. split; [lia|]. split; [done|].
    split; [done|]. intros k c Hk Hc.
    apply (Hbetween (k - Datatypes.S i)%nat); [lia|].
    rewrite lookup_drop. by replace (Datatypes.S i + (k - Datatypes.S i))%nat with k by lia.
  - intros (j & Hij & Hj & HT & Hbetween).
    exists (j - Datatypes.S i)%nat. rewrite lookup_drop.
    replace (Datatypes.S i + (j - Datatypes.S i))%nat with j by lia.
    split; [done|]. split; [done|]. intros k c Hk Hc.
    rewrite lookup_drop in Hc. apply (Hbetween (Datatypes.S i + k)%nat); [lia|done].
Qed.

Lemma getPrevious_spec (T : Chapter.t) :
  slices.len chapters <= GoInt.MaxInt ->
  getPrevious S chapters = Some T <->
  exists j : nat, (j < i)%nat /\ chapters !! j = Some T
    /\ Chapter.Level T = Chapter.Level S
    /\ forall (k : nat) c, (j < k < i)%nat -> chapters !! k = Some c ->
         Chapter.Level S < Chapter.Level c.
Proof.
  intros Hmax. unfold getPrevious. rewrite (Index_distinct chapters i S) by done.
  pose proof (lookup_lt_Some _ _ _ at_i) as Hi.
  int_small. replace (Z.to_nat (Z.of_nat i - 1 + 1)) with i by lia.
  rewrite getPrevious_loop_getNext_loop, getNext_loop_spec.
  assert (length (take i chapters) = i) as Hlen by (rewrite length_take; lia).
  assert (forall k : nat, (k < i)%nat ->
            reverse (take i chapters) !! k = chapters !! (i - Datatypes.S k)%nat)
    as Hrev.
  { intros k Hk. rewrite reverse_lookup by lia.
    rewrite Hlen. apply lookup_take_lt. lia. }
  split.
  - intros (j & Hj & HT & Hbetween).
    assert (j < i)%nat as Hji.
    { apply lookup_lt_Some in Hj. rewrite length_reverse, Hlen in Hj. lia. }
    rewrite Hrev in Hj by done.
    exists (i - Datatypes.S j)%nat. split; [lia|]. split; [done|].
    split; [done|]. intros k c Hk Hc.
    apply (Hbetween (i - Datatypes.S k)%nat); [lia|].
    rewrite Hrev by lia.
    by replace (i - Datatypes.S (i - Datatypes.S k))%nat with k by lia.
  - intros (j & Hji & Hj & HT & Hbetween).
    exists (i - Datatypes.S j)%nat. rewrite Hrev by lia.
    replace (i - Datatypes.S (i - Datatypes.S j))%nat with j by lia.
    split; [done|]. split; [done|]. intros k c Hk Hc.
    rewrite Hrev in Hc by lia.
    apply (Hbetween (i - Datatypes.S k)%nat); [lia|done].
Qed.

(** C5: the next of S is the first Section after S of the level of S,
    unless a Section of a smaller level comes first or the list ends; the
    previous of S is the same backwards.  So the next of S, when there is
    one, has the level of S, and every Section between them is deeper. *)
Theorem next_previous_same_level :
  slices.len chapters <= GoInt.MaxInt ->
  (forall T, getNext S chapters = Some T <->
     exists j : nat, (i < j)%nat /\ chapters !! j = Some T
       /\ Chapter.Level T = Chapter.Level S
       /\ forall (k : nat) c, (i < k < j)%nat -> chapters !! k = Some c ->
            Chapter.Level S < Chapter.Level c)
  /\ (forall T, getPrevious S chapters = Some T <->
        exists j : nat, (j < i)%nat /\ chapters !! j = Some T
          /\ Chapter.Level T = Chapter.Level S
          /\ forall (k : nat) c, (j < k < i)%nat -> chapters !! k = Some c ->
               Chapter.Level S < Chapter.Level c).
Proof.
  intros Hlen. split; intros T.
  - by apply getNext_spec.
  - by apply getPrevious_spec.
Qed.

End navigation_facts.

(** *** children *)

Lemma getChildren_loop_spec (S : Chapter.t) (after children : list Chapter.t) :
  GoInt.MinInt <= Chapter.Level S <= 2 ->
  getChildren_loop S after children
  = children ++ spec.direct_children (Chapter.Level S) after.
Proof.
  intros HS. unfold spec.direct_children. revert children.
  induction after as [|c rest IH]; intros children; cbn.
  { by rewrite app_nil_r. }
  destruct GoInt_bounds as [Hmin Hmax].
  rewrite GoInt_add_small by lia.
  destruct (decide (Chapter.Level c <= Chapter.Level S)) as [Hle|Hgt].
  - rewrite (bool_decide_false (Chapter.Level c = _)) by lia.
    rewrite !(bool_decide_true (Chapter.Level c <= Chapter.Level S)) by done.
    cbn. by rewrite app_nil_r.
  - rewrite !(bool_decide_false (Chapter.Level c <= Chapter.Level S)) by done.
    cbn. rewrite IH.
    destruct (decide (Chapter.Level c = Chapter.Level S + 1)) as [Heq|Hne].
    + rewrite !(bool_decide_true (Chapter.Level c = _)) by done.
      rewrite (bool_decide_true (Chapter.Level c <= 3)) by lia.
      cbn. by rewrite <- app_assoc.
    + rewrite !(bool_decide_false (Chapter.Level c = _)) by done. done.
Qed.

Lemma getChildren_loop_leaf (S : Chapter.t) (after children : list Chapter.t) :
  3 <= Chapter.Level S < GoInt.MaxInt ->
  getChildren_loop S after children = children.
Proof.
  intros HS. revert children.
  induction after as [|c rest IH]; intros children; cbn; [done|].
  destruct GoInt_bounds as [Hmin Hmax].
  rewrite GoInt_add_small by lia.
  assert ((bool_decide (Chapter.Level c = Chapter.Level S + 1)
           && bool_decide (Chapter.Level c <= 3)) = false) as ->.
  { apply andb_false_iff. rewrite !bool_decide_eq_false. lia. }
  case_bool_decide; [done|apply IH].
Qed.

Section children_facts.

Variable chapters : list Chapter.t.
Variable i : nat.
Variable S : Chapter.t.
Hypothesis distinct : NoDup (Chapter.addr <$> chapters).
Hypothesis at_i : chapters !! i = Some S.

(** C6: the children of a Section S of level 1 or 2 are exactly the
    Sections of level S.level + 1 after S and before the next Section of
    level <= S.level, in document order; a Section of level 3 or more has
    no children. *)
Theorem children_of_section :
  slices.len chapters <= GoInt.MaxInt ->
  1 <= Chapter.Level S <= 6 ->
  (Chapter.Level S <= 2 ->
     getChildren S chapters
     = spec.direct_children (Chapter.Level S) (drop (Datatypes.S i) chapters))
  /\ (3 <= Chapter.Level S -> getChildren S chapters = []).
Proof.
  intros Hlen HS. unfold getChildren.
  rewrite (Index_distinct chapters i S) by done.
  pose proof (lookup_lt_Some _ _ _ at_i) as Hi.
  destruct GoInt_bounds as [Hmin Hmax].
  int_small. replace (Z.to_nat (Z.of_nat i + 1)) with (Datatypes.S i) by lia.
  split; intros HS'.
  - rewrite getChildren_loop_spec by lia. done.
  - apply getChildren_loop_leaf. lia.
Qed.

End children_facts.

(** *** ancestors *)

(** [slices.Insert] at an index that is in range of [int]: the slice is
    extended with zero values up to the index, and the index is set. *)
Lemma Insert_spec {A : Type} (zero : A) (slice : list A) (element : A)
    (index : Z) :
  0 <= index < GoInt.MaxInt -> slices.len slice <= GoInt.MaxInt ->
  slices.Insert zero slice element index
  = Some (<[Z.to_nat index := element]>
            (resize (Nat.max (length slice) (Z.to_nat index + 1)) zero slice)).
Proof.
  intros Hindex Hlen. unfold slices.Insert, slices.len in *.
  destruct GoInt_bounds as [Hmin Hmax].
  destruct (decide (index < Z.of_nat (length slice))) as [Hlt|Hge].
  - rewrite (bool_decide_true (index < _)) by done.
    rewrite (bool_decide_false (index >= _)) by lia.
    rewrite bool_decide_false by lia. rewrite bool_decide_true by lia.
    do 3 f_equal. lia.
  - rewrite (bool_decide_false (index < _)) by done.
    rewrite (bool_decide_true (index >= _)) by lia.
    rewrite (GoInt_add_small index 1) by lia.
    rewrite GoInt_sub_small by lia. rewrite GoInt_add_small by lia.
    rewrite bool_decide_false by lia. rewrite bool_decide_true by lia.
    do 3 f_equal. lia.
Qed.

Lemma lookup_insert_resize {A : Type} (zero element : A) (slice : list A)
    (i n k : nat) :
  (length slice <= n)%nat -> (i < n)%nat ->
  <[i := element]> (resize n zero slice) !! k =
  if decide (k = i) then Some element
  else if decide (k < length slice)%nat then slice !! k
  else if decide (k < n)%nat then Some zero else None.
Proof.
  intros Hn Hi. destruct (decide (k = i)) as [->|Hne].
  - apply list_lookup_insert_eq. by rewrite length_resize.
  - rewrite list_lookup_insert_ne by done.
    rewrite resize_ge by done.
    destruct (decide (k < length slice)%nat).
    + by rewrite lookup_app_l.
    + rewrite lookup_app_r by lia.
      destruct (decide (k < n)%nat).
      * apply lookup_replicate_2. lia.
      * apply lookup_replicate_None. lia.
Qed.

Lemma deepest_candidate_app (level : Z) (l1 l2 : list Chapter.t) :
  spec.deepest_candidate level (l1 ++ l2)
  = Z.max (spec.deepest_candidate level l1) (spec.deepest_candidate level l2).
Proof.
  induction l1 as [|c l1 IH]; cbn.
  - assert (0 <= spec.deepest_candidate level l2); [|lia].
    induction l2 as [|c l2 IH2]; cbn; [done|]. case_bool_decide; lia.
  - case_bool_decide; lia.
Qed.

Lemma deepest_candidate_bounds (level : Z) (l : list Chapter.t) :
  0 < level ->
  0 <= spec.deepest_candidate level l < level
  /\ forall c, c ∈ l -> Chapter.Level c < level ->
       Chapter.Level c <= spec.deepest_candidate level l.
Proof.
  intros Hlevel. induction l as [|c l [IH1 IH2]]; cbn.
  { split; [lia|]. by intros c Hc%elem_of_nil. }
  split; [case_bool_decide; lia|].
  intros c' [->|Hc']%elem_of_cons Hlt.
  - rewrite bool_decide_true by done. lia.
  - specialize (IH2 c' Hc' Hlt). case_bool_decide; lia.
Qed.

Lemma last_of_level_snoc (level : Z) (l : list Chapter.t) (c : Chapter.t) :
  spec.last_of_level level (l ++ [c])
  = if decide (Chapter.Level c = level) then Some c
    else spec.last_of_level level l.
Proof.
  unfold spec.last_of_level. rewrite List.filter_app. cbn.
  destruct (decide (Chapter.Level c = level)).
  - rewrite bool_decide_true by done. apply last_snoc.
  - rewrite bool_decide_false by done. by rewrite app_nil_r.
Qed.

Lemma last_of_level_Some (level : Z) (l : list Chapter.t) (c : Chapter.t) :
  spec.last_of_level level l = Some c ->
  Chapter.Level c = level /\ exists j : nat, l !! j = Some c.
Proof.
  unfold spec.last_of_level. intros Hc.
  assert (c ∈ List.filter (fun c => bool_decide (Chapter.Level c = level)) l)
    as [Hin Hl%bool_decide_eq_true]%list_elem_of_In%List.filter_In.
  { apply last_Some in Hc as [l' ->]. set_solver. }
  split; [done|]. by apply list_elem_of_lookup, list_elem_of_In.
Qed.

Lemma last_of_level_None (level : Z) (l : list Chapter.t) :
  (forall c, c ∈ l -> Chapter.Level c <> level) ->
  spec.last_of_level level l = None.
Proof.
  intros Hall. unfold spec.last_of_level.
  destruct (last _) as [c|] eqn:Hc; [|done].
  apply last_of_level_Some in Hc as [Hl [j Hj]].
  destruct (Hall c); [|done]. by eapply list_elem_of_lookup_2.
Qed.

Lemma getParents_loop_spec (S : Chapter.t) (before seen : list Chapter.t)
    (parents : list (option Chapter.t)) :
  0 < Chapter.Level S < GoInt.MaxInt ->
  Forall (fun c => 1 <= Chapter.Level c) before ->
  parents_of (Chapter.Level S) seen parents ->
  exists parents',
    getParents_loop S before parents = Some parents'
    /\ parents_of (Chapter.Level S) (seen ++ before) parents'.
Proof.
  intros HS. revert seen parents.
  induction before as [|c rest IH]; intros seen parents Hvalid Hinv.
  { exists parents. by rewrite app_nil_r. }
  apply Forall_cons in Hvalid as [Hc Hrest].
  replace (seen ++ c :: rest) with ((seen ++ [c]) ++ rest)
    by (by rewrite <- app_assoc).
  cbn [getParents_loop].
  destruct Hinv as [Hlen Hslots].
  destruct (deepest_candidate_bounds (Chapter.Level S) seen) as [Hdeep Hcand];
    [lia|].
  destruct GoInt_bounds as [Hmin Hmax].
  case_bool_decide as Hparent; cycle 1.
  { apply IH; [done|]. split.
    - rewrite deepest_candidate_app. cbn.
      rewrite bool_decide_false by done. lia.
    - intros k Hk. rewrite Hslots by done. f_equal.
      rewrite last_of_level_snoc. destruct (decide _); [|done].
      exfalso. lia. }
  rewrite GoInt_sub_small by lia.
  rewrite Insert_spec by (unfold slices.len; lia).
  apply IH; [done|].
  set (i := Z.to_nat (Chapter.Level c - 1)).
  set (n := Nat.max (length parents) (i + 1)).
  assert (Z.of_nat i = Chapter.Level c - 1) as Hi by (unfold i; lia).
  assert (length parents <= n /\ i < n)%nat as [Hn1 Hn2] by (unfold n; lia).
  split.
  - rewrite length_insert, length_resize, deepest_candidate_app. cbn.
    rewrite bool_decide_true by done. lia.
  - intros k. rewrite length_insert, length_resize. intros Hk.
    rewrite lookup_insert_resize by lia.
    rewrite last_of_level_snoc.
    destruct (decide (k = i)) as [->|Hne].
    + rewrite decide_True by lia. done.
    + rewrite (decide_False (P := Chapter.Level c = Z.of_nat k + 1)) by lia.
      destruct (decide (k < length parents)%nat); [by apply Hslots|].
      rewrite decide_True by done. f_equal. symmetry.
      assert (k < i)%nat by (unfold n in Hk; lia).
      apply last_of_level_None. intros c' Hc' Hl.
      specialize (Hcand c' Hc'). lia.
Qed.

Section parents_facts.

Variable chapters : list Chapter.t.
Variable i : nat.
Variable S : Chapter.t.
Hypothesis distinct : NoDup (Chapter.addr <$> chapters).
Hypothesis at_i : chapters !! i = Some S.

(** C4: the ancestors of S are built from the Sections before S: slot
    level-1 holds the last Section of that level before S, for the levels
    below the level of S that occur before S up to the deepest of them,
    and a slot whose level does not occur before S is empty.  So every
    entry has a level below that of S, sits in slot level-1 and stands
    before S in the list. *)
Theorem ancestors_by_level :
  Forall (fun c => 1 <= Chapter.Level c <= 6) chapters ->
  exists parents,
    getParents S chapters = Some parents
    /\ Z.of_nat (length parents)
       = spec.deepest_candidate (Chapter.Level S) (take i chapters)
    /\ (forall k : nat, (k < length parents)%nat ->
          parents !! k
          = Some (spec.last_of_level (Z.of_nat k + 1) (take i chapters)))
    /\ (forall (k : nat) c, parents !! k = Some (Some c) ->
          Chapter.Level c < Chapter.Level S
          /\ Z.of_nat k = Chapter.Level c - 1
          /\ exists j : nat, (j < i)%nat /\ chapters !! j = Some c).
Proof.
  intros Hvalid. unfold getParents.
  rewrite (Index_distinct chapters i S) by done. rewrite Nat2Z.id.
  assert (1 <= Chapter.Level S <= 6) as HS.
  { rewrite Forall_forall in Hvalid. apply Hvalid.
    by eapply list_elem_of_lookup_2. }
  destruct GoInt_bounds as [Hmin Hmax].
  destruct (getParents_loop_spec S (take i chapters) [] [])
    as (parents & Hloop & Hlen & Hslots).
  - lia.
  - apply Forall_take. eapply Forall_impl; [exact Hvalid|]. cbn. lia.
  - split; [done|]. cbn. lia.
  - cbn in Hlen, Hslots. exists parents.
    split; [done|]. split; [done|]. split; [done|].
    intros k c Hk. pose proof (lookup_lt_Some _ _ _ Hk) as Hlt.
    rewrite Hslots in Hk by done. injection Hk as Hk.
    apply last_of_level_Some in Hk as [Hl [j Hj]].
    destruct (deepest_candidate_bounds (Chapter.Level S) (take i chapters))
      as [Hdeep _]; [lia|].
    split; [lia|]. split; [lia|].
    exists j. apply lookup_take_Some in Hj as [Hj Hji]. done.
Qed.

End parents_facts.

(** ** The cross-reference resolver *)

(** *** Pointers into the tree *)

Lemma deref_nil (p : path) : deref nil p = nil.
Proof. induction p as [|[] p IH]; cbn; done. Qed.

(** Overwriting the attributes of one node changes the attributes of that
    node and nothing else. *)
Lemma deref_update (f : list Attribute -> list Attribute) (p q : path)
    (root : Node) :
  Type_ (deref (update root q f) p) = Type_ (deref root p)
  /\ Data (deref (update root q f) p) = Data (deref root p)
  /\ parsetree.IsNil (deref (update root q f) p) = parsetree.IsNil (deref root p)
  /\ (f [] = [] ->
      Attr (deref (update root q f) p)
      = if decide (p = q) then f (Attr (deref root p)) else Attr (deref root p)).
Proof.
  revert q root. induction p as [|st p IH]; intros q root.
  - destruct root as [|t d a c s]; cbn.
    + repeat split; try done. intros ->. by destruct (decide _).
    + destruct q as [|[] q]; cbn; repeat split; try done.
  - destruct root as [|t d a c s].
    + cbn [update]. rewrite !deref_nil. cbn.
      repeat split; try done. intros ->. by destruct (decide _).
    + destruct q as [|[] q]; destruct st; cbn; try (repeat split; done).
      * destruct (IH q c) as (HT & HD & HN & HA).
        repeat split; try done. intros Hf. rewrite (HA Hf).
        repeat case_decide; simplify_eq; done.
      * destruct (IH q s) as (HT & HD & HN & HA).
        repeat split; try done. intros Hf. rewrite (HA Hf).
        repeat case_decide; simplify_eq; done.
Qed.

Lemma Contains_a (d : string) : slices.Contains ["a"] d = bool_decide (d = "a").
Proof.
  unfold slices.Contains, slices.Index. cbn.
  unfold slices.go_eq, slices.string_comparable.
  destruct (decide (d = "a")) as [->|Hne].
  - by rewrite !bool_decide_true.
  - rewrite !(bool_decide_false (d = "a")) by done. cbn.
    apply bool_decide_false. lia.
Qed.

Lemma ElementsByTagName_loop_NoDup (child : Node) (tags : list string) :
  NoDup (parsetree.ElementsByTagName_loop child tags).
Proof.
  induction child as [|t d a c IHc s IHs]; cbn; [constructor|].
  apply NoDup_app. split; [|split].
  - destruct (slices.Contains tags d); [apply NoDup_singleton|constructor].
  - intros p Hp. destruct (slices.Contains tags d); [|by apply elem_of_nil in Hp].
    apply list_elem_of_singleton in Hp as ->.
    intros [(? & ? & _)%list_elem_of_fmap|(? & ? & _)%list_elem_of_fmap]%elem_of_app;
      discriminate.
  - apply NoDup_app. split; [|split].
    + apply NoDup_fmap; [|done]. intros ?? [=]. done.
    + intros p (p1 & -> & _)%list_elem_of_fmap (p2 & ? & _)%list_elem_of_fmap.
      discriminate.
    + apply NoDup_fmap; [|done]. intros ?? [=]. done.
Qed.

Lemma ElementsByTagName_NoDup (n : Node) (tags : list string) :
  NoDup (parsetree.ElementsByTagName n tags).
Proof.
  unfold parsetree.ElementsByTagName.
  destruct (parsetree.IsNil n); [constructor|].
  destruct (slices.IsEmpty tags); [constructor|].
  apply NoDup_fmap; [|apply ElementsByTagName_loop_NoDup].
  intros ?? [=]. done.
Qed.

(** The pointers that [ElementsByTagName] returns lead to the nodes below
    the first child, and its siblings, whose [Data] is the tag. *)
Lemma ElementsByTagName_loop_elem (child : Node) (p : path) :
  p ∈ parsetree.ElementsByTagName_loop child ["a"] <->
  parsetree.IsNil (deref child p) = false /\ Data (deref child p) = "a".
Proof.
  revert child. induction p as [|st p IH]; intros child.
  - destruct child as [|t d a c s]; cbn.
    + split; [by intros ?%elem_of_nil|]. by intros [? _].
    + rewrite Contains_a, !elem_of_app, !list_elem_of_fmap.
      case_bool_decide as Hd; split.
      * done.
      * intros _. left. by apply list_elem_of_singleton.
      * intros [?%elem_of_nil|[(? & ? & _)|(? & ? & _)]]; done.
      * by intros [_ ?].
  - destruct child as [|t d a c s].
    + cbn [parsetree.ElementsByTagName_loop]. rewrite deref_nil.
      split; [by intros ?%elem_of_nil|]. by intros [? _].
    + cbn [parsetree.ElementsByTagName_loop]. rewrite !elem_of_app.
      rewrite !list_elem_of_fmap.
      destruct st; cbn [deref FirstChild NextSibling]; rewrite <- IH; split.
      * intros [Hp|[(p' & [= <-] & Hp')|(p' & ? & _)]]; try done.
        destruct (slices.Contains _ _); [|by apply elem_of_nil in Hp].
        by apply list_elem_of_singleton in Hp.
      * intros Hp. right. left. by exists p.
      * intros [Hp|[(p' & ? & _)|(p' & [= <-] & Hp')]]; try done.
        destruct (slices.Contains _ _); [|by apply elem_of_nil in Hp].
        by apply list_elem_of_singleton in Hp.
      * intros Hp. right. right. by exists p.
Qed.

Lemma ElementsByTagName_elem (n : Node) (p : path) :
  p ∈ parsetree.ElementsByTagName n ["a"] <->
  exists p', p = down :: p' /\ parsetree.IsNil (deref n p) = false
    /\ Data (deref n p) = "a".
Proof.
  unfold parsetree.ElementsByTagName.
  destruct n as [|t d a c s]; cbn [parsetree.IsNil].
  - split; [by intros ?%elem_of_nil|].
    intros (p' & -> & Hn & _). by rewrite deref_nil in Hn.
  - change (slices.IsEmpty ["a"]) with false. cbn iota.
    rewrite list_elem_of_fmap. split.
    + intros (p' & -> & Hp'%ElementsByTagName_loop_elem). by exists p'.
    + intros (p' & -> & Hp'). exists p'. split; [done|].
      by apply ElementsByTagName_loop_elem.
Qed.

(** ** Decoding a reference *)

Section url_facts.

Import Stdlib.Strings.Ascii.

Lemma ishex_plus (c : Ascii.ascii) :
  url.ishex (if Ascii.eqb c "+" then " "%char else c) = url.ishex c.
Proof.
  destruct (Ascii.eqb c "+") eqn:Hc; [|done].
  apply Ascii.eqb_eq in Hc as ->. reflexivity.
Qed.

Lemma unhex_plus (c : Ascii.ascii) :
  url.unhex (if Ascii.eqb c "+" then " "%char else c) = url.unhex c.
Proof.
  destruct (Ascii.eqb c "+") eqn:Hc; [|done].
  apply Ascii.eqb_eq in Hc as ->. reflexivity.
Qed.

(** The two loops of [unescape] against the decoding of the
    specification: the first fails where an escape is malformed, the
    second writes the decoded string, and a string with no percent sign
    and no plus sign is written as it is. *)
Lemma unescape_check_write (fuel : nat) (s : string) (n : nat) (hasPlus : bool) :
  (String.length s <= fuel)%nat ->
  match url.unescape_check s url.encodeQueryComponent n hasPlus with
  | None => spec.percent_decode (spec.plus_as_space s) = None
  | Some (n', hasPlus') =>
      spec.percent_decode (spec.plus_as_space s)
      = Some (url.unescape_write s url.encodeQueryComponent)
      /\ (n <= n')%nat
      /\ (hasPlus = true -> hasPlus' = true)
      /\ (n' = n -> hasPlus' = false ->
          url.unescape_write s url.encodeQueryComponent = s)
  end.
Proof.
  revert s n hasPlus.
  induction fuel as [|fuel IH]; intros s n hasPlus Hlen.
  { destruct s; [|cbn in Hlen; lia]. cbn. done. }
  destruct s as [|c rest]; [cbn; done|].
  cbn [url.unescape_check url.unescape_write spec.plus_as_space
       spec.percent_decode].
  destruct (Ascii.eqb c "%") eqn:Hpercent.
  - apply Ascii.eqb_eq in Hpercent as ->.
    change (Ascii.eqb "%" "+") with false. cbn match.
    change (Ascii.eqb "%" "%") with true. cbn match.
    destruct rest as [|a [|b rest]]; [done|done|].
    cbn [spec.plus_as_space]. rewrite !ishex_plus, !unhex_plus.
    destruct (url.ishex a && url.ishex b); [|done].
    specialize (IH rest (S n) hasPlus ltac:(cbn in Hlen; lia)).
    destruct (url.unescape_check rest _ _ _) as [[n' hasPlus']|]; cycle 1.
    { by rewrite IH. }
    destruct IH as (-> & Hn & Hp & _). cbn.
    split; [done|]. split; [lia|]. split; [done|]. lia.
  - destruct (Ascii.eqb c "+") eqn:Hplus.
    + apply Ascii.eqb_eq in Hplus as ->.
      change (Ascii.eqb " " "%") with false. cbn match.
      specialize (IH rest n true ltac:(cbn in Hlen; lia)).
      destruct (url.unescape_check rest _ _ _) as [[n' hasPlus']|]; cycle 1.
      { by rewrite IH. }
      destruct IH as (-> & Hn & Hp & _). cbn.
      split; [done|]. split; [lia|]. split; [by intros _; apply Hp|].
      intros _ Hfalse. rewrite Hp in Hfalse; done.
    + rewrite Hpercent.
      specialize (IH rest n hasPlus ltac:(cbn in Hlen; lia)).
      destruct (url.unescape_check rest _ _ _) as [[n' hasPlus']|]; cycle 1.
      { by rewrite IH. }
      destruct IH as (-> & Hn & Hp & Hsame). cbn.
      split; [done|]. split; [lia|]. split; [done|].
      intros Hn' Hfalse. by rewrite Hsame.
Qed.

(** [url.QueryUnescape] decodes a string as the specification's
    percent-decoding decodes the string with a space for every plus
    sign, and fails where that fails. *)
Lemma QueryUnescape_percent_decode (s : string) :
  url.QueryUnescape s
  = match spec.percent_decode (spec.plus_as_space s) with
    | Some decoded => (decoded, None)
    | None => ("", Some (errors.Lib "invalid URL escape"))
    end.
Proof.
  unfold url.QueryUnescape, url.unescape.
  pose proof (unescape_check_write (String.length s) s 0 false (le_n _)) as H.
  destruct (url.unescape_check s _ _ _) as [[n' hasPlus']|]; [|by rewrite H].
  destruct H as (-> & _ & _ & Hsame).
  case_bool_decide as Hn; cbn; [|done].
  destruct hasPlus'; cbn; [done|]. by rewrite Hsame.
Qed.

End url_facts.

(** *** The lookup by title *)

Lemma FindFunc_find {A : Type} (slice : list A) (predicate : A -> bool) :
  slices.FindFunc slice predicate = List.find predicate slice.
Proof. induction slice as [|x slice IH]; cbn; [done|]. by rewrite IH. Qed.

(** [first_titled] is the first match of a linear search. *)
Lemma first_titled_Some (title : string) (pages : list Page.t)
    (target : Page.t) :
  spec.first_titled title pages = Some target <->
  exists j : nat, pages !! j = Some target
    /\ Text (Page.Title target) = title
    /\ forall (k : nat) q, (k < j)%nat -> pages !! k = Some q ->
         Text (Page.Title q) <> title.
Proof.
  unfold spec.first_titled. induction pages as [|page pages IH]; cbn.
  { split; [done|]. by intros (j & Hj & _). }
  case_bool_decide as Ht.
  - split.
    + intros [= <-]. exists 0%nat. split; [done|]. split; [done|].
      intros k q Hk. lia.
    + intros (j & Hj & Htarget & Hfirst). destruct j as [|j]; [by cbn in Hj|].
      destruct (Hfirst 0%nat page); [lia|done|done].
  - rewrite IH. split.
    + intros (j & Hj & Htarget & Hfirst). exists (S j).
      split; [done|]. split; [done|].
      intros [|k] q Hk Hq; cbn in Hq; [by simplify_eq|].
      apply (Hfirst k); [lia|done].
    + intros (j & Hj & Htarget & Hfirst).
      destruct j as [|j]; cbn in Hj; [congruence|].
      exists j. split; [done|]. split; [done|].
      intros k q Hk Hq. apply (Hfirst (S k)); [lia|done].
Qed.

Lemma first_titled_None (title : string) (pages : list Page.t) :
  spec.first_titled title pages = None <->
  forall q, q ∈ pages -> Text (Page.Title q) <> title.
Proof.
  unfold spec.first_titled. induction pages as [|page pages IH]; cbn.
  { split; [|done]. by intros _ q Hq%elem_of_nil. }
  case_bool_decide as Ht.
  - split; [done|]. intros Hall. destruct (Hall page); [left|done].
  - rewrite IH. split.
    + intros Hall q [->|Hq]%elem_of_cons; [done|by apply Hall].
    + intros Hall q Hq. apply Hall. by right.
Qed.

Section resolve_facts.

Variable QueryUnescape : string -> string * option error.

Variable pages : list Page.t.

Lemma FindFunc_isCrossReferenced (attribute : Attribute) :
  slices.FindFunc pages (isCrossReferenced QueryUnescape attribute)
  = match QueryUnescape (Val attribute) with
    | (title, None) => spec.first_titled title pages
    | (_, Some _) => None
    end.
Proof.
  rewrite FindFunc_find. unfold isCrossReferenced, spec.first_titled.
  destruct (QueryUnescape (Val attribute)) as [title [err|]]; [|done].
  induction pages as [|page rest IH]; cbn; done.
Qed.

(** The loop over the attributes of a link rewrites each of them on its
    own. *)
Lemma Attr_step_resolved (seen todo : list Attribute) (attribute : Attribute) :
  Attr_step QueryUnescape pages (seen ++ attribute :: todo) (length seen)
  = seen ++ spec.resolved QueryUnescape pages attribute :: todo.
Proof.
  unfold Attr_step, spec.resolved.
  rewrite list_lookup_middle by done.
  case_bool_decide; [|done].
  rewrite FindFunc_isCrossReferenced.
  destruct (QueryUnescape (Val attribute)) as [title [err|]]; [done|].
  destruct (spec.first_titled title pages) as [target|]; [|done].
  rewrite insert_app_r_alt by done. by rewrite Nat.sub_diag.
Qed.

Lemma Attr_loop_from (seen todo : list Attribute) :
  foldl (Attr_step QueryUnescape pages) (seen ++ todo)
    (seq (length seen) (length todo))
  = seen ++ (spec.resolved QueryUnescape pages <$> todo).
Proof.
  revert seen. induction todo as [|attribute todo IH]; intros seen; [done|].
  cbn [length seq foldl]. rewrite Attr_step_resolved.
  replace (seen ++ spec.resolved QueryUnescape pages attribute :: todo)
    with ((seen ++ [spec.resolved QueryUnescape pages attribute]) ++ todo)
    by (by rewrite <- app_assoc).
  replace (S (length seen))
    with (length (seen ++ [spec.resolved QueryUnescape pages attribute]))
    by (rewrite length_app; cbn; lia).
  rewrite IH. by rewrite <- app_assoc.
Qed.

Lemma Attr_loop_resolved (attr : list Attribute) :
  Attr_loop QueryUnescape pages attr
  = spec.resolved QueryUnescape pages <$> attr.
Proof. apply (Attr_loop_from [] attr). Qed.

(** The loop over the links rewrites the attributes of the nodes the links
    point to, and nothing else in the tree. *)
Lemma links_loop_deref (links : list path) (body : Node) (p : path) :
  NoDup links ->
  let body' := links_loop QueryUnescape pages links body in
  Type_ (deref body' p) = Type_ (deref body p)
  /\ Data (deref body' p) = Data (deref body p)
  /\ parsetree.IsNil (deref body' p) = parsetree.IsNil (deref body p)
  /\ Attr (deref body' p)
     = if decide (p ∈ links)
       then spec.resolved QueryUnescape pages <$> Attr (deref body p)
       else Attr (deref body p).
Proof.
  revert body. induction links as [|link links IH]; intros body Hnd; cbn.
  { repeat split; try done. }
  apply NoDup_cons in Hnd as [Hlink Hnd].
  destruct (IH (update body link (Attr_loop QueryUnescape pages)) Hnd)
    as (HT & HD & HN & HA).
  destruct (deref_update (Attr_loop QueryUnescape pages) p link body)
    as (HT' & HD' & HN' & HA').
  cbn zeta in *. rewrite HT, HD, HN, HA, HT', HD', HN', HA' by done.
  repeat split; try done.
  rewrite Attr_loop_resolved.
  repeat case_decide; try done; exfalso;
    rewrite ?elem_of_cons in *; subst; tauto.
Qed.

End resolve_facts.

(** *** The loop over the pages *)

Lemma load_store_eq (h : Heap) (a : loc) (v : string) : load (store h a v) a = v.
Proof. unfold load, store. cbn. by rewrite lookup_insert_eq. Qed.

Lemma load_store_ne (h : Heap) (a b : loc) (v : string) :
  a <> b -> load (store h a v) b = load h b.
Proof. intros Hne. unfold load, store. cbn. by rewrite lookup_insert_ne. Qed.

Section pages_facts.

Variable Parse : string -> Node * option error.
Variable Render : Node -> string + error.
Variable QueryUnescape : string -> string * option error.

Variable pages : list Page.t.

(** The body of a page after its links were rewritten. *)
Local Abbreviation rewritten tree :=
  (links_loop QueryUnescape pages
     (parsetree.ElementsByTagName (parsetree.Body tree) ["a"])
     (parsetree.Body tree)).

Lemma Html_loop_error (nodes : list Node) (buffer text : string) (e : error) :
  parsetree.Html_loop Render nodes buffer = (text, Some e) ->
  exists n, Render n = inr e.
Proof.
  revert buffer. induction nodes as [|n nodes IH]; intros buffer; cbn; [done|].
  destruct (parsetree.IsNil n); cbn; [apply IH|].
  destruct (Render n) as [t|e'] eqn:Hn; [apply IH|].
  intros [= <- <-]. by exists n.
Qed.

(** After a run without error, the content of every page processed is
    the serialization of its rewritten body, and no other content was
    written. *)
Lemma ResolveCrossReferences_loop_content (rest : list Page.t) (h h' : Heap) :
  NoDup (Page.Content <$> rest) ->
  ResolveCrossReferences_loop Parse Render QueryUnescape pages rest h
  = (h', None) ->
  (forall a, a ∉ Page.Content <$> rest -> load h' a = load h a)
  /\ forall (i : nat) page, rest !! i = Some page ->
       exists tree, Parse (load h (Page.Content page)) = (tree, None)
         /\ parsetree.Html Render (parsetree.Children (rewritten tree))
            = (load h' (Page.Content page), None).
Proof.
  revert h. induction rest as [|page rest IH]; intros h Hnd; cbn.
  { intros [= <-]. split; [done|]. intros i page Hi. by destruct i. }
  rewrite fmap_cons in Hnd. apply NoDup_cons in Hnd as [Hpage Hnd].
  unfold parsetree.New.
  destruct (Parse (load h (Page.Content page))) as [tree [err|]] eqn:Hparse;
    [done|].
  destruct (parsetree.Html Render (parsetree.Children (rewritten tree)))
    as [html [err|]] eqn:Hhtml; [done|].
  intros Hrest. apply IH in Hrest as [Hother Hpages]; [|done].
  split.
  - intros a Ha. rewrite ?fmap_cons in Ha.
    apply not_elem_of_cons in Ha as [Hne Ha].
    rewrite Hother by done. by apply load_store_ne.
  - intros [|i] page' Hi; cbn in Hi.
    + injection Hi as <-. exists tree. split; [done|].
      by rewrite Hother, load_store_eq.
    + destruct (Hpages i page' Hi) as (tree' & Hparse' & Hhtml').
      assert (Page.Content page <> Page.Content page') as Hne.
      { intros Heq. apply Hpage. rewrite Heq.
        apply list_elem_of_fmap. exists page'. split; [done|].
        by eapply list_elem_of_lookup_2. }
      rewrite load_store_ne in Hparse' by done. by exists tree'.
Qed.

(** An error returned is an error of [html.Parse] or of [html.Render]. *)
Lemma ResolveCrossReferences_loop_error (rest : list Page.t) (h h' : Heap)
    (e : error) :
  ResolveCrossReferences_loop Parse Render QueryUnescape pages rest h
  = (h', Some e) ->
  (exists text, (Parse text).2 = Some e) \/ (exists n, Render n = inr e).
Proof.
  revert h. induction rest as [|page rest IH]; intros h; cbn; [done|].
  unfold parsetree.New.
  destruct (Parse (load h (Page.Content page))) as [tree [err|]] eqn:Hparse.
  { intros [= <- <-]. left. exists (load h (Page.Content page)).
    by rewrite Hparse. }
  destruct (parsetree.Html Render _) as [html [err|]] eqn:Hhtml; [|apply IH].
  intros [= <- <-]. right. by eapply Html_loop_error.
Qed.

Lemma ResolveCrossReferences_loop_total (rest : list Page.t) (h : Heap) :
  (forall text, (Parse text).2 = None) ->
  (forall n, exists text, Render n = inl text) ->
  (ResolveCrossReferences_loop Parse Render QueryUnescape pages rest h).2
  = None.
Proof.
  intros Hparse Hrender. revert h.
  induction rest as [|page rest IH]; intros h; cbn; [done|].
  unfold parsetree.New.
  specialize (Hparse (load h (Page.Content page))).
  destruct (Parse (load h (Page.Content page))) as [tree [err|]]; [done|].
  unfold parsetree.Html.
  destruct (Html_loop_total Render
    (parsetree.Children
       (links_loop QueryUnescape pages
          (parsetree.ElementsByTagName (parsetree.Body tree) ["a"])
          (parsetree.Body tree))) "" Hrender) as [text ->].
  apply IH.
Qed.

(** The attributes of a link after the rewriting. *)
Lemma rewritten_link (tree : Node) (link : path) :
  link ∈ parsetree.ElementsByTagName (parsetree.Body tree) ["a"] ->
  Attr (deref (rewritten tree) link)
  = spec.resolved QueryUnescape pages <$> Attr (deref (parsetree.Body tree) link).
Proof.
  intros Hlink.
  destruct (links_loop_deref QueryUnescape pages
              (parsetree.ElementsByTagName (parsetree.Body tree) ["a"])
              (parsetree.Body tree) link (ElementsByTagName_NoDup _ _))
    as (_ & _ & _ & ->).
  by rewrite decide_True.
Qed.

(** The rewriting changes attributes only: every node keeps its type and
    its data. *)
Lemma rewritten_node (tree : Node) (p : path) :
  Type_ (deref (rewritten tree) p) = Type_ (deref (parsetree.Body tree) p)
  /\ Data (deref (rewritten tree) p) = Data (deref (parsetree.Body tree) p).
Proof.
  destruct (links_loop_deref QueryUnescape pages
              (parsetree.ElementsByTagName (parsetree.Body tree) ["a"])
              (parsetree.Body tree) p (ElementsByTagName_NoDup _ _))
    as (HT & HD & _).
  by split.
Qed.

(** A link none of whose reference attributes decodes to a title keeps
    all its attributes. *)
Lemma rewritten_link_same (tree : Node) (link : path) :
  link ∈ parsetree.ElementsByTagName (parsetree.Body tree) ["a"] ->
  (forall a, a ∈ Attr (deref (parsetree.Body tree) link) ->
     Key a = "href" ->
     forall title, QueryUnescape (Val a) = (title, None) ->
       forall q, q ∈ pages -> Text (Page.Title q) <> title) ->
  Attr (deref (rewritten tree) link) = Attr (deref (parsetree.Body tree) link).
Proof.
  intros Hlink Hnone. rewrite rewritten_link by done.
  rewrite <- (list_fmap_id (Attr (deref (parsetree.Body tree) link))) at 2.
  apply Forall_fmap_ext_1, Forall_forall. intros a Ha. unfold spec.resolved.
  case_bool_decide as Hkey; [|done].
  destruct (QueryUnescape (Val a)) as [title [err|]] eqn:Hdecode; [done|].
  assert (spec.first_titled title pages = None) as ->; [|done].
  apply first_titled_None. by eapply Hnone.
Qed.

Variable h : Heap.
Variable i : nat.
Variable page : Page.t.
Variable tree : Node.
Variable link : path.
Variable index : nat.
Variable attribute : Attribute.

Hypothesis distinct : NoDup (Page.Content <$> pages).
Hypothesis at_i : pages !! i = Some page.
Hypothesis parsed : Parse (load h (Page.Content page)) = (tree, None).
Hypothesis is_link :
  link ∈ parsetree.ElementsByTagName (parsetree.Body tree) ["a"].
Hypothesis at_index :
  Attr (deref (parsetree.Body tree) link) !! index = Some attribute.
Hypothesis is_href : Key attribute = "href".

Lemma rewritten_attribute :
  Attr (deref (rewritten tree) link) !! index
  = Some (spec.resolved QueryUnescape pages attribute).
Proof.
  rewrite rewritten_link by done. rewrite list_lookup_fmap.
  by rewrite at_index.
Qed.

Lemma page_content (h' : Heap) :
  ResolveCrossReferences Parse Render QueryUnescape pages h = (h', None) ->
  parsetree.Html Render (parsetree.Children (rewritten tree))
  = (load h' (Page.Content page), None).
Proof.
  intros Hrun.
  destruct (ResolveCrossReferences_loop_content pages h h' distinct Hrun)
    as [_ Hpages].
  destruct (Hpages i page at_i) as (tree' & Hparse' & Hhtml).
  rewrite parsed in Hparse'. by injection Hparse' as <-.
Qed.

(** C7: a reference attribute that cannot be decoded is left as it is,
    while every attribute of every link of the body is still treated on
    its own; the error of the decoding is never returned: an error that is
    returned comes from parsing or from serializing, there is none when
    neither fails, and after a run without error the content of every page
    is the serialization of its rewritten body. *)
Theorem decode_failure_left_alone (garbage : string) (err : error) :
  QueryUnescape (Val attribute) = (garbage, Some err) ->
  let r := ResolveCrossReferences Parse Render QueryUnescape pages h in
  let links (t : Node) :=
    parsetree.ElementsByTagName (parsetree.Body t) ["a"] in
  let body' (t : Node) :=
    links_loop QueryUnescape pages (links t) (parsetree.Body t) in
  Attr (deref (body' tree) link) !! index = Some attribute
  /\ ((forall a, a ∈ Attr (deref (parsetree.Body tree) link) ->
        Key a = "href" -> (QueryUnescape (Val a)).2 <> None) ->
      Type_ (deref (body' tree) link) = Type_ (deref (parsetree.Body tree) link)
      /\ Data (deref (body' tree) link) = Data (deref (parsetree.Body tree) link)
      /\ Attr (deref (body' tree) link)
         = Attr (deref (parsetree.Body tree) link))
  /\ (forall link', link' ∈ links tree ->
        Attr (deref (body' tree) link')
        = spec.resolved QueryUnescape pages
            <$> Attr (deref (parsetree.Body tree) link'))
  /\ (forall e, r.2 = Some e ->
        (exists text, (Parse text).2 = Some e) \/ (exists n, Render n = inr e))
  /\ ((forall text, (Parse text).2 = None) ->
      (forall n, exists text, Render n = inl text) -> r.2 = None)
  /\ (r.2 = None ->
      forall (i' : nat) page', pages !! i' = Some page' ->
        exists tree', Parse (load h (Page.Content page')) = (tree', None)
          /\ parsetree.Html Render (parsetree.Children (body' tree'))
             = (load r.1 (Page.Content page'), None)).
Proof.
  intros Hdecode. cbn zeta.
  split; [|split; [|split; [|split; [|split]]]].
  - rewrite rewritten_attribute. unfold spec.resolved.
    by rewrite bool_decide_true, Hdecode by done.
  - intros Hfail. destruct (rewritten_node tree link) as [HT HD].
    split; [done|]. split; [done|]. apply rewritten_link_same; [done|].
    intros a Ha Hkey title Ha'. destruct (Hfail a Ha Hkey).
    by rewrite Ha'.
  - intros link' Hlink'. by apply rewritten_link.
  - intros e He.
    destruct (ResolveCrossReferences Parse Render QueryUnescape pages h)
      as [h' r] eqn:Hrun.
    cbn in He. subst r. by eapply ResolveCrossReferences_loop_error.
  - intros Hparse Hrender. by apply ResolveCrossReferences_loop_total.
  - intros Hnone.
    destruct (ResolveCrossReferences Parse Render QueryUnescape pages h)
      as [h' r] eqn:Hrun.
    cbn in Hnone. subst r. cbn.
    by apply (ResolveCrossReferences_loop_content pages h h' distinct Hrun).
Qed.

End pages_facts.

(** *** References decoded by [url.QueryUnescape] *)

Section decoded_references.

Variable Parse : string -> Node * option error.
Variable Render : Node -> string + error.

Variable pages : list Page.t.
Variable h : Heap.
Variable i : nat.
Variable page : Page.t.
Variable tree : Node.
Variable link : path.
Variable index : nat.
Variable attribute : Attribute.

Hypothesis distinct : NoDup (Page.Content <$> pages).
Hypothesis at_i : pages !! i = Some page.
Hypothesis parsed : Parse (load h (Page.Content page)) = (tree, None).
Hypothesis is_link :
  link ∈ parsetree.ElementsByTagName (parsetree.Body tree) ["a"].
Hypothesis at_index :
  Attr (deref (parsetree.Body tree) link) !! index = Some attribute.
Hypothesis is_href : Key attribute = "href".

(** C3, amended: the value of a reference attribute is decoded as
    [url.QueryUnescape] decodes it, which is the percent-decoding of the
    value with a space for every plus sign.  In the body of every page, a
    reference attribute of an anchor whose value so decoded is the title
    text of some page gets the Path of the first such page in document
    order, and one whose value so decoded is the title of no page keeps
    its value; the new content of the page is the serialization of the
    body rewritten so. *)
Theorem cross_references_resolved (h' : Heap) (title : string) :
  ResolveCrossReferences Parse Render url.QueryUnescape pages h = (h', None) ->
  spec.percent_decode (spec.plus_as_space (Val attribute)) = Some title ->
  let body' :=
    links_loop url.QueryUnescape pages
      (parsetree.ElementsByTagName (parsetree.Body tree) ["a"])
      (parsetree.Body tree) in
  url.QueryUnescape (Val attribute) = (title, None)
  /\ parsetree.Html Render (parsetree.Children body')
     = (load h' (Page.Content page), None)
  /\ (forall (j : nat) target,
        pages !! j = Some target -> Text (Page.Title target) = title ->
        (forall (k : nat) q, (k < j)%nat -> pages !! k = Some q ->
           Text (Page.Title q) <> title) ->
        Attr (deref body' link) !! index
        = Some (mkAttribute (Namespace attribute) "href" (Page.Path target)))
  /\ ((forall q, q ∈ pages -> Text (Page.Title q) <> title) ->
      Attr (deref body' link) !! index = Some attribute)
  /\ ((forall a, a ∈ Attr (deref (parsetree.Body tree) link) ->
        Key a = "href" ->
        forall t, spec.percent_decode (spec.plus_as_space (Val a)) = Some t ->
          forall q, q ∈ pages -> Text (Page.Title q) <> t) ->
      Type_ (deref body' link) = Type_ (deref (parsetree.Body tree) link)
      /\ Data (deref body' link) = Data (deref (parsetree.Body tree) link)
      /\ Attr (deref body' link) = Attr (deref (parsetree.Body tree) link)).
Proof.
  intros Hrun Hdecoded. cbn zeta.
  assert (url.QueryUnescape (Val attribute) = (title, None)) as Hdecode.
  { by rewrite QueryUnescape_percent_decode, Hdecoded. }
  split; [done|].
  split; [by eapply page_content|].
  rewrite (rewritten_attribute url.QueryUnescape pages tree link index
             attribute is_link at_index).
  unfold spec.resolved. rewrite bool_decide_true, Hdecode by done.
  split; [|split].
  - intros j target Hj Htitle Hfirst.
    assert (spec.first_titled title pages = Some target) as ->.
    { apply first_titled_Some. by exists j. }
    unfold spec.with_val. by rewrite is_href.
  - intros Hnone. by apply first_titled_None in Hnone as ->.
  - intros Hnone.
    destruct (rewritten_node url.QueryUnescape pages tree link) as [HT HD].
    split; [done|]. split; [done|]. apply rewritten_link_same; [done|].
    intros a Ha Hkey t Ht. apply (Hnone a Ha Hkey).
    pose proof (QueryUnescape_percent_decode (Val a)) as Hdecode'.
    destruct (spec.percent_decode (spec.plus_as_space (Val a))); congruence.
Qed.

(** C10, amended: a reference inside page S whose value, decoded as
    [url.QueryUnescape] decodes it (percent-decoded with a space for
    every plus sign), is the title of S itself, S being the first page
    with that title, is rewritten to the Path of S: the lookup searches
    all the pages, S included. *)
Theorem self_reference_resolved (h' : Heap) :
  ResolveCrossReferences Parse Render url.QueryUnescape pages h = (h', None) ->
  spec.percent_decode (spec.plus_as_space (Val attribute))
  = Some (Text (Page.Title page)) ->
  (forall (k : nat) q, (k < i)%nat -> pages !! k = Some q ->
     Text (Page.Title q) <> Text (Page.Title page)) ->
  let body' :=
    links_loop url.QueryUnescape pages
      (parsetree.ElementsByTagName (parsetree.Body tree) ["a"])
      (parsetree.Body tree) in
  url.QueryUnescape (Val attribute) = (Text (Page.Title page), None)
  /\ parsetree.Html Render (parsetree.Children body')
     = (load h' (Page.Content page), None)
  /\ Attr (deref body' link) !! index
     = Some (mkAttribute (Namespace attribute) "href" (Page.Path page)).
Proof.
  intros Hrun Hdecoded Hfirst. cbn zeta.
  assert (url.QueryUnescape (Val attribute)
          = (Text (Page.Title page), None)) as Hdecode.
  { by rewrite QueryUnescape_percent_decode, Hdecoded. }
  split; [done|].
  split; [by eapply page_content|].
  rewrite (rewritten_attribute url.QueryUnescape pages tree link index
             attribute is_link at_index).
  unfold spec.resolved. rewrite bool_decide_true, Hdecode by done.
  assert (spec.first_titled (Text (Page.Title page)) pages = Some page) as ->.
  { apply first_titled_Some. by exists i. }
  unfold spec.with_val. by rewrite is_href.
Qed.

End decoded_references.

(** ** From the extractor to the resolvers

    The lists that the later stages get from the earlier ones satisfy what
    the properties above assume of them. *)

Section pipeline_facts.

Variable Render : Node -> string + error.
Variable Fields : string -> list string.

(** The chapters extracted are distinct pointers with distinct contents,
    and their levels are heading levels. *)
Lemma Chapters_well_formed (h : Heap) (body : Node) :
  let chapters := (Chapters Render Fields h body).2.1 in
  NoDup (Chapter.addr <$> chapters)
  /\ NoDup (Chapter.Content <$> chapters)
  /\ Forall (fun c => 1 <= Chapter.Level c <= 6) chapters.
Proof.
  unfold Chapters. destruct (parsetree.IsBody body); cbn [negb];
    [|cbn; repeat split; constructor].
  pose proof (Chapters_loop_shape Render Fields (parsetree.Headings body) 0
                getPrefix h) as (_ & _ & _ & Hnew).
  set (r := Chapters_loop _ _ _ _ _ _ _) in *. cbn zeta.
  split; [|split].
  - apply NoDup_alt. intros i j a. rewrite !list_lookup_fmap.
    intros (ci & Hci & ->)%fmap_Some (cj & Hcj & Heq)%fmap_Some.
    apply Hnew in Hci as (_ & _ & _ & _ & Hi).
    apply Hnew in Hcj as (_ & _ & _ & _ & Hj). lia.
  - apply NoDup_alt. intros i j a. rewrite !list_lookup_fmap.
    intros (ci & Hci & ->)%fmap_Some (cj & Hcj & Heq)%fmap_Some.
    apply Hnew in Hci as (_ & _ & _ & Hi & _).
    apply Hnew in Hcj as (_ & _ & _ & Hj & _). lia.
  - apply Forall_lookup. intros k c Hk.
    apply Hnew in Hk as ((heading & _ & Hlevel) & _).
    unfold parsetree.HeadingLevel in Hlevel.
    destruct (parsetree.HeadingMap !! Data heading) as [l|] eqn:Hmap;
      [|done].
    injection Hlevel as <-. by apply HeadingMap_Some in Hmap as [? _].
Qed.

(** [getParents] does not panic on chapters whose levels are heading
    levels. *)
Lemma getParents_total (S : Chapter.t) (chapters : list Chapter.t) :
  1 <= Chapter.Level S <= 6 ->
  Forall (fun c => 1 <= Chapter.Level c <= 6) chapters ->
  is_Some (getParents S chapters).
Proof.
  intros HS Hvalid. unfold getParents.
  destruct GoInt_bounds as [Hmin Hmax].
  destruct (getParents_loop_spec S
              (take (Z.to_nat (slices.Index chapters S)) chapters) [] [])
    as (parents & Hloop & _).
  - lia.
  - apply Forall_take. eapply Forall_impl; [exact Hvalid|]. cbn. lia.
  - split; [done|]. cbn. lia.
  - by exists parents.
Qed.

Lemma Pages_loop_spec (chapters rest : list Chapter.t) (pages : list Page.t) :
  Forall (fun c => 1 <= Chapter.Level c <= 6) chapters ->
  Forall (fun c => 1 <= Chapter.Level c <= 6) rest ->
  exists new, Pages_loop chapters rest pages = Some (pages ++ new)
    /\ Forall2 (page_of chapters) rest new.
Proof.
  intros Hvalid. revert pages.
  induction rest as [|chapter rest IH]; intros pages Hrest; cbn.
  { exists []. by rewrite app_nil_r. }
  apply Forall_cons in Hrest as [Hchapter Hrest].
  destruct (getParents_total chapter chapters Hchapter Hvalid)
    as [parents Hparents].
  rewrite Hparents.
  destruct (IH (pages ++
    [Page.mk (Chapter.Id chapter) (Chapter.Level chapter)
       (Chapter.Path chapter) (Chapter.Title chapter)
       (Chapter.Content chapter) (getNext chapter chapters)
       (bool_decide (getNext chapter chapters <> None))
       (getPrevious chapter chapters)
       (bool_decide (getPrevious chapter chapters <> None))
       parents (negb (slices.IsEmpty parents))
       (getChildren chapter chapters)
       (negb (slices.IsEmpty (getChildren chapter chapters)))]) Hrest)
    as (new & -> & Hnew).
  eexists (_ :: new). rewrite <- app_assoc. split; [done|].
  constructor; [|done]. unfold page_of. cbn. by rewrite Hparents.
Qed.

(** [Pages] returns: it does not panic.  Without error it returns one
    page per chapter, with the fields and the content pointer of the
    chapter. *)
Lemma Pages_spec (h : Heap) (body : Node) :
  let r := Chapters Render Fields h body in
  exists pages,
    Pages Render Fields h body = Some (r.1, (pages, r.2.2))
    /\ (r.2.2 = None ->
        Forall2 (page_of r.2.1) r.2.1 pages
        /\ NoDup (Page.Content <$> pages)).
Proof.
  pose proof (Chapters_well_formed h body) as (_ & Hcontent & Hvalid).
  unfold Pages, Chapters in *.
  destruct (parsetree.IsBody body); cbn [negb] in *.
  2: { exists []. by split. }
  destruct (Chapters_loop _ _ _ _ _ _ _) as [h' [chapters [err|]]]; cbn in *.
  { exists []. by split. }
  destruct (Pages_loop_spec chapters chapters [] Hvalid Hvalid)
    as (pages & -> & Hpages).
  exists pages. split; [done|]. intros _. split; [done|].
  assert (Page.Content <$> pages = Chapter.Content <$> chapters) as ->;
    [|done].
  clear Hcontent Hvalid. revert Hpages.
  generalize chapters at 1. intros all Hpages.
  induction Hpages as [|c p rest pages' Hcp _ IH]; [done|].
  cbn. destruct Hcp as (_ & _ & _ & _ & -> & _). by rewrite IH.
Qed.

End pipeline_facts.

(** ** The resolvers on concrete documents *)

Lemma quirk_chapters_distinct : NoDup (Chapter.addr <$> demo.quirk_chapters).
Proof.
  apply (Chapters_well_formed demo.Render demo.Fields demo.empty_heap
           demo.quirk_body).
Qed.

Lemma quirk_chapters_levels :
  Forall (fun c => 1 <= Chapter.Level c <= 6) demo.quirk_chapters.
Proof.
  apply (Chapters_well_formed demo.Render demo.Fields demo.empty_heap
           demo.quirk_body).
Qed.

Lemma book_pages_distinct : NoDup (Page.Content <$> demo.book_pages).
Proof.
  destruct (Pages_spec demo.Render demo.Fields demo.empty_heap demo.book_body)
    as (pages & Hpages & Hnone).
  unfold demo.book_pages. rewrite Hpages. by apply Hnone.
Qed.

(** In h1, h2, h3, h1, h3 the last Section has two ancestor slots. *)
Lemma ancestors_by_level_witness :
  NoDup (Chapter.addr <$> demo.quirk_chapters)
  /\ demo.quirk_chapters !! 4%nat = Some (demo.quirk_chapter 4)
  /\ Forall (fun c => 1 <= Chapter.Level c <= 6) demo.quirk_chapters
  /\ exists parents,
       getParents (demo.quirk_chapter 4) demo.quirk_chapters = Some parents
       /\ length parents = 2%nat
       /\ parents !! 0%nat = Some (Some (demo.quirk_chapter 3)).
Proof.
  assert (demo.quirk_chapters !! 4%nat = Some (demo.quirk_chapter 4))
    as Hat by reflexivity.
  split; [exact quirk_chapters_distinct|]. split; [exact Hat|].
  split; [exact quirk_chapters_levels|].
  destruct (ancestors_by_level demo.quirk_chapters 4 (demo.quirk_chapter 4)
              quirk_chapters_distinct Hat quirk_chapters_levels)
    as (parents & Hparents & Hlen & Hslots & _).
  exists parents. split; [exact Hparents|].
  assert (length parents = 2%nat) as Hlen2.
  { apply Nat2Z.inj. rewrite Hlen. reflexivity. }
  split; [exact Hlen2|].
  rewrite Hslots by (rewrite Hlen2; lia). reflexivity.
Defined.

(** In h1, h2, h3, h1, h3 the next of the first Section is the fourth. *)
Lemma next_previous_same_level_witness :
  NoDup (Chapter.addr <$> demo.quirk_chapters)
  /\ demo.quirk_chapters !! 0%nat = Some (demo.quirk_chapter 0)
  /\ slices.len demo.quirk_chapters <= GoInt.MaxInt
  /\ getNext (demo.quirk_chapter 0) demo.quirk_chapters
     = Some (demo.quirk_chapter 3)
  /\ getPrevious (demo.quirk_chapter 3) demo.quirk_chapters
     = Some (demo.quirk_chapter 0).
Proof.
  assert (demo.quirk_chapters !! 0%nat = Some (demo.quirk_chapter 0))
    as Hat by reflexivity.
  assert (slices.len demo.quirk_chapters <= GoInt.MaxInt) as Hlen
    by (vm_compute; discriminate).
  split; [exact quirk_chapters_distinct|]. split; [exact Hat|].
  split; [exact Hlen|].
  split.
  - apply (next_previous_same_level demo.quirk_chapters 0
             (demo.quirk_chapter 0) quirk_chapters_distinct Hat Hlen).
    exists 3%nat. split; [lia|]. split; [reflexivity|]. split; [reflexivity|].
    intros k c Hk Hc.
    assert (k = 1 \/ k = 2)%nat as [-> | ->] by lia;
      injection Hc as <-; vm_compute; reflexivity.
  - apply (next_previous_same_level demo.quirk_chapters 3
             (demo.quirk_chapter 3) quirk_chapters_distinct eq_refl Hlen).
    exists 0%nat. split; [lia|]. split; [reflexivity|]. split; [reflexivity|].
    intros k c Hk Hc.
    assert (k = 1 \/ k = 2)%nat as [-> | ->] by lia;
      injection Hc as <-; vm_compute; reflexivity.
Defined.

(** In h1, h2, h3, h1, h3 the first Section has one child, the second. *)
Lemma children_of_section_witness :
  NoDup (Chapter.addr <$> demo.quirk_chapters)
  /\ demo.quirk_chapters !! 0%nat = Some (demo.quirk_chapter 0)
  /\ slices.len demo.quirk_chapters <= GoInt.MaxInt
  /\ 1 <= Chapter.Level (demo.quirk_chapter 0) <= 6
  /\ getChildren (demo.quirk_chapter 0) demo.quirk_chapters
     = [demo.quirk_chapter 1].
Proof.
  assert (demo.quirk_chapters !! 0%nat = Some (demo.quirk_chapter 0))
    as Hat by reflexivity.
  assert (slices.len demo.quirk_chapters <= GoInt.MaxInt) as Hlen
    by (vm_compute; discriminate).
  assert (1 <= Chapter.Level (demo.quirk_chapter 0) <= 6) as Hlevel
    by (vm_compute; split; discriminate).
  split; [exact quirk_chapters_distinct|]. split; [exact Hat|].
  split; [exact Hlen|]. split; [exact Hlevel|].
  destruct (children_of_section demo.quirk_chapters 0 (demo.quirk_chapter 0)
              quirk_chapters_distinct Hat Hlen Hlevel) as [Hchildren _].
  rewrite Hchildren by (vm_compute; discriminate). reflexivity.
Defined.

(** The first anchor of the first page of the book names the title that
    both pages have: it gets the Path of the first. *)
Lemma cross_references_resolved_witness :
  NoDup (Page.Content <$> demo.book_pages)
  /\ demo.book_pages !! 0%nat = Some demo.first_page
  /\ demo.Parse (load demo.book_heap (Page.Content demo.first_page))
     = (demo.anchors_tree, None)
  /\ [down] ∈ parsetree.ElementsByTagName (parsetree.Body demo.anchors_tree) ["a"]
  /\ Attr (deref (parsetree.Body demo.anchors_tree) [down]) !! 0%nat
     = Some (demo.href "Getting%20Started")
  /\ ResolveCrossReferences demo.Parse demo.Render demo.QueryUnescape
       demo.book_pages demo.book_heap = (demo.resolved_heap, None)
  /\ spec.percent_decode (spec.plus_as_space "Getting%20Started")
     = Some "Getting Started"
  /\ Page.Path demo.first_page = "page1.html"
  /\ Attr (deref
       (links_loop demo.QueryUnescape demo.book_pages
          (parsetree.ElementsByTagName (parsetree.Body demo.anchors_tree) ["a"])
          (parsetree.Body demo.anchors_tree)) [down]) !! 0%nat
     = Some (mkAttribute "" "href" (Page.Path demo.first_page)).
Proof.
  assert (demo.book_pages !! 0%nat = Some demo.first_page) as Hat
    by reflexivity.
  assert (demo.Parse (load demo.book_heap (Page.Content demo.first_page))
          = (demo.anchors_tree, None)) as Hparsed by reflexivity.
  assert ([down] ∈ parsetree.ElementsByTagName
            (parsetree.Body demo.anchors_tree) ["a"]) as Hlink
    by (vm_compute; left).
  assert (Attr (deref (parsetree.Body demo.anchors_tree) [down]) !! 0%nat
          = Some (demo.href "Getting%20Started")) as Hattr by reflexivity.
  assert (ResolveCrossReferences demo.Parse demo.Render demo.QueryUnescape
            demo.book_pages demo.book_heap = (demo.resolved_heap, None))
    as Hrun by (vm_compute; reflexivity).
  assert (spec.percent_decode (spec.plus_as_space "Getting%20Started")
          = Some "Getting Started") as Hdecode by reflexivity.
  split; [exact book_pages_distinct|]. split; [exact Hat|].
  split; [exact Hparsed|]. split; [exact Hlink|]. split; [exact Hattr|].
  split; [exact Hrun|]. split; [exact Hdecode|]. split; [reflexivity|].
  destruct (cross_references_resolved demo.Parse demo.Render
              demo.book_pages demo.book_heap 0
              demo.first_page demo.anchors_tree [down] 0
              (demo.href "Getting%20Started") book_pages_distinct Hat Hparsed
              Hlink Hattr eq_refl demo.resolved_heap "Getting Started"
              Hrun Hdecode) as (_ & _ & Hfirst & _).
  apply (Hfirst 0%nat demo.first_page Hat); [reflexivity|].
  intros k q Hk. lia.
Defined.

(** The same anchor stands in the page whose title it names. *)
Lemma self_reference_resolved_witness :
  NoDup (Page.Content <$> demo.book_pages)
  /\ demo.book_pages !! 0%nat = Some demo.first_page
  /\ demo.Parse (load demo.book_heap (Page.Content demo.first_page))
     = (demo.anchors_tree, None)
  /\ [down] ∈ parsetree.ElementsByTagName (parsetree.Body demo.anchors_tree) ["a"]
  /\ Attr (deref (parsetree.Body demo.anchors_tree) [down]) !! 0%nat
     = Some (demo.href "Getting%20Started")
  /\ ResolveCrossReferences demo.Parse demo.Render demo.QueryUnescape
       demo.book_pages demo.book_heap = (demo.resolved_heap, None)
  /\ spec.percent_decode (spec.plus_as_space "Getting%20Started")
     = Some (Text (Page.Title demo.first_page))
  /\ load demo.resolved_heap (Page.Content demo.first_page)
     = demo.render_nodes
         (demo.elem "a" [demo.href "page1.html"] (demo.text "link" nil)
            (NextSibling demo.anchors)) true.
Proof.
  assert (demo.book_pages !! 0%nat = Some demo.first_page) as Hat
    by reflexivity.
  assert (demo.Parse (load demo.book_heap (Page.Content demo.first_page))
          = (demo.anchors_tree, None)) as Hparsed by reflexivity.
  assert ([down] ∈ parsetree.ElementsByTagName
            (parsetree.Body demo.anchors_tree) ["a"]) as Hlink
    by (vm_compute; left).
  assert (Attr (deref (parsetree.Body demo.anchors_tree) [down]) !! 0%nat
          = Some (demo.href "Getting%20Started")) as Hattr by reflexivity.
  assert (ResolveCrossReferences demo.Parse demo.Render demo.QueryUnescape
            demo.book_pages demo.book_heap = (demo.resolved_heap, None))
    as Hrun by (vm_compute; reflexivity).
  assert (spec.percent_decode (spec.plus_as_space "Getting%20Started")
          = Some (Text (Page.Title demo.first_page)))
    as Hdecode by reflexivity.
  split; [exact book_pages_distinct|]. split; [exact Hat|].
  split; [exact Hparsed|]. split; [exact Hlink|]. split; [exact Hattr|].
  split; [exact Hrun|]. split; [exact Hdecode|].
  destruct (self_reference_resolved demo.Parse demo.Render
              demo.book_pages demo.book_heap 0
              demo.first_page demo.anchors_tree [down] 0
              (demo.href "Getting%20Started") book_pages_distinct Hat Hparsed
              Hlink Hattr eq_refl demo.resolved_heap Hrun Hdecode)
    as (_ & Hcontent & _).
  { intros k q Hk. lia. }
  apply (f_equal fst) in Hcontent. cbn [fst] in Hcontent.
  rewrite <- Hcontent. vm_compute. reflexivity.
Defined.

(** The second anchor of that page cannot be decoded: it keeps its value,
    and the run returns no error. *)
Lemma decode_failure_left_alone_witness :
  NoDup (Page.Content <$> demo.book_pages)
  /\ [down; right]
       ∈ parsetree.ElementsByTagName (parsetree.Body demo.anchors_tree) ["a"]
  /\ Attr (deref (parsetree.Body demo.anchors_tree) [down; right]) !! 0%nat
     = Some (demo.href "%zz")
  /\ demo.QueryUnescape "%zz" = ("", Some (errors.Lib "invalid URL escape"))
  /\ Attr (deref
       (links_loop demo.QueryUnescape demo.book_pages
          (parsetree.ElementsByTagName (parsetree.Body demo.anchors_tree) ["a"])
          (parsetree.Body demo.anchors_tree)) [down; right]) !! 0%nat
     = Some (demo.href "%zz")
  /\ (ResolveCrossReferences demo.Parse demo.Render demo.QueryUnescape
        demo.book_pages demo.book_heap).2 = None.
Proof.
  assert ([down; right] ∈ parsetree.ElementsByTagName
            (parsetree.Body demo.anchors_tree) ["a"]) as Hlink
    by (vm_compute; right; left).
  assert (Attr (deref (parsetree.Body demo.anchors_tree) [down; right])
            !! 0%nat = Some (demo.href "%zz")) as Hattr by reflexivity.
  assert (demo.QueryUnescape "%zz"
          = ("", Some (errors.Lib "invalid URL escape"))) as Hdecode
    by reflexivity.
  split; [exact book_pages_distinct|]. split; [exact Hlink|].
  split; [exact Hattr|]. split; [exact Hdecode|].
  destruct (decode_failure_left_alone demo.Parse demo.Render
              demo.QueryUnescape demo.book_pages demo.book_heap
              demo.anchors_tree [down; right] 0 (demo.href "%zz")
              book_pages_distinct Hlink Hattr eq_refl ""
              (errors.Lib "invalid URL escape") Hdecode)
    as (Hsame & _ & _ & _ & Htotal & _).
  split; [exact Hsame|].
  apply Htotal.
  { intros text. unfold demo.Parse. by destruct (bool_decide _). }
  intros n. by eexists.
Defined.

(** ** References with a plus sign *)

(** C3 as stated fails.  In the second page of the book of C++ and
    Getting Started, the reference C++ percent-decodes to the title of the
    first page and keeps its value, and the reference Getting+Started
    percent-decodes to the title of no page and gets the Path of the
    second page. *)
Lemma reference_with_plus_misread :
  demo.plus_pages !! 1%nat = Some (demo.plus_page 1)
  /\ (fun q => Text (Page.Title q)) <$> demo.plus_pages
     = ["C++"; "Getting Started"]
  /\ demo.Parse_plus (load demo.plus_heap (Page.Content (demo.plus_page 1)))
     = (demo.document (demo.other_anchors nil), None)
  /\ parsetree.ElementsByTagName
       (parsetree.Body (demo.document (demo.other_anchors nil))) ["a"]
     = [[down]; [down; right]]
  /\ Attr (deref (parsetree.Body (demo.document (demo.other_anchors nil)))
             [down])
     = [demo.href "C++"]
  /\ spec.percent_decode "C++" = Some "C++"
  /\ Attr (deref (parsetree.Body (demo.document (demo.other_anchors nil)))
             [down; right])
     = [demo.href "Getting+Started"]
  /\ spec.percent_decode "Getting+Started" = Some "Getting+Started"
  /\ ResolveCrossReferences demo.Parse_plus demo.Render url.QueryUnescape
       demo.plus_pages demo.plus_heap
     = (demo.plus_resolved_heap, None)
  /\ Attr (deref
       (links_loop url.QueryUnescape demo.plus_pages [[down]; [down; right]]
          (parsetree.Body (demo.document (demo.other_anchors nil))))
       [down])
     = [demo.href "C++"]
  /\ Attr (deref
       (links_loop url.QueryUnescape demo.plus_pages [[down]; [down; right]]
          (parsetree.Body (demo.document (demo.other_anchors nil))))
       [down; right])
     = [demo.href "page2.html"]
  /\ load demo.plus_resolved_heap (Page.Content (demo.plus_page 1))
     = demo.render_nodes
         (demo.elem "a" [demo.href "C++"] (demo.text "other" nil)
            (demo.elem "a" [demo.href "page2.html"] (demo.text "plus" nil)
               nil)) true.
Proof. vm_compute. repeat split. Qed.

(** C10 as stated fails.  The first page of that book, the first with the
    title C++, refers to C++, its own title percent-decoded, and the
    reference keeps its value; the content of the page stays as it was. *)
Lemma self_reference_with_plus_kept :
  demo.plus_pages !! 0%nat = Some (demo.plus_page 0)
  /\ Text (Page.Title (demo.plus_page 0)) = "C++"
  /\ Page.Path (demo.plus_page 0) = "page1.html"
  /\ demo.Parse_plus (load demo.plus_heap (Page.Content (demo.plus_page 0)))
     = (demo.document (demo.self_anchor nil), None)
  /\ parsetree.ElementsByTagName
       (parsetree.Body (demo.document (demo.self_anchor nil))) ["a"]
     = [[down]]
  /\ Attr (deref (parsetree.Body (demo.document (demo.self_anchor nil)))
             [down])
     = [demo.href "C++"]
  /\ spec.percent_decode "C++"
     = Some (Text (Page.Title (demo.plus_page 0)))
  /\ ResolveCrossReferences demo.Parse_plus demo.Render url.QueryUnescape
       demo.plus_pages demo.plus_heap
     = (demo.plus_resolved_heap, None)
  /\ Attr (deref
       (links_loop url.QueryUnescape demo.plus_pages [[down]]
          (parsetree.Body (demo.document (demo.self_anchor nil))))
       [down])
     = [demo.href "C++"]
  /\ load demo.plus_resolved_heap (Page.Content (demo.plus_page 0))
     = demo.render_nodes (demo.self_anchor nil) true.
Proof. vm_compute. repeat split. Qed.

(** * Further properties of the code *)

(** ** Package slices *)

Section slices_facts.

Context {A : Type} `{slices.Comparable A}.

Lemma Index_loop_result (slice : list A) (element : A) (index : Z) :
  0 <= index ->
  (slices.Index_loop slice element index = -1
   /\ forall x, x ∈ slice -> slices.go_eq element x = false)
  \/ exists (i : nat) x,
       slices.Index_loop slice element index = index + Z.of_nat i
       /\ slice !! i = Some x /\ slices.go_eq element x = true
       /\ forall (j : nat) y, (j < i)%nat -> slice !! j = Some y ->
            slices.go_eq element y = false.
Proof.
  revert index. induction slice as [|current rest IH]; intros index Hindex.
  { left. split; [done|]. by intros x Hx%elem_of_nil. }
  cbn. destruct (slices.go_eq element current) eqn:Heq.
  - right. exists 0%nat, current. split; [lia|]. split; [done|].
    split; [done|]. intros j y Hj. lia.
  - destruct (IH (index + 1)) as [[Hnone Hall]|(i & x & Hi & Hx & Hex & Hfirst)];
      [lia|..].
    + left. split; [done|]. intros x [->|Hx]%elem_of_cons; [done|by apply Hall].
    + right. exists (S i), x. split; [lia|]. split; [done|]. split; [done|].
      intros [|j] y Hj Hy; cbn in Hy; [by simplify_eq|].
      apply (Hfirst j); [lia|done].
Qed.

(** X1: [Index] returns -1 exactly when no element of the slice equals
    the element, and otherwise the index of the first one that does; the
    result is always between -1 and the last index. *)
Theorem Index_first_occurrence (slice : list A) (element : A) :
  (slices.Index slice element = -1 <->
     forall x, x ∈ slice -> slices.go_eq element x = false)
  /\ (forall i : nat, slices.Index slice element = Z.of_nat i <->
        exists x, slice !! i = Some x /\ slices.go_eq element x = true
          /\ forall (j : nat) y, (j < i)%nat -> slice !! j = Some y ->
               slices.go_eq element y = false)
  /\ -1 <= slices.Index slice element < slices.len slice.
Proof.
  unfold slices.Index, slices.len.
  destruct (Index_loop_result slice element 0)
    as [[Hnone Hall]|(i & x & Hi & Hx & Heq & Hfirst)]; [lia|..].
  - rewrite Hnone. split; [done|]. split; [|lia].
    intros i. split; [lia|]. intros (x & Hx & Heq & _).
    rewrite Hall in Heq; [done|]. by eapply list_elem_of_lookup_2.
  - rewrite Hi. pose proof (lookup_lt_Some _ _ _ Hx) as Hlt.
    split; [|split; [|lia]].
    + split; [lia|]. intros Hall. rewrite Hall in Heq; [done|].
      by eapply list_elem_of_lookup_2.
    + intros i'. split.
      * intros Hi'. assert (i' = i) as -> by lia. by exists x.
      * intros (x' & Hx' & Heq' & Hfirst').
        destruct (Nat.lt_trichotomy i i') as [Hlt'|[->|Hgt]]; [|done|].
        -- rewrite (Hfirst' i x) in Heq; done.
        -- rewrite (Hfirst i' x') in Heq'; done.
Qed.

(** X2: [Contains] holds exactly when some element of the slice equals
    the element. *)
Theorem Contains_some_equal (slice : list A) (element : A) :
  slices.Contains slice element = true <->
  exists x, x ∈ slice /\ slices.go_eq element x = true.
Proof.
  unfold slices.Contains, slices.Index. rewrite bool_decide_eq_true.
  destruct (Index_loop_result slice element 0)
    as [[Hnone Hall]|(i & x & Hi & Hx & Heq & Hfirst)]; [lia|..].
  - rewrite Hnone. split; [lia|]. intros (x & Hx & Heq).
    by rewrite Hall in Heq.
  - rewrite Hi. split; [|lia]. intros _. exists x. split; [|done].
    by eapply list_elem_of_lookup_2.
Qed.

(** X3: [FindFunc] returns the first element that satisfies the
    predicate, and the zero value exactly when none does. *)
Theorem FindFunc_first_match (slice : list A) (predicate : A -> bool) :
  (forall x, slices.FindFunc slice predicate = Some x <->
     exists i : nat, slice !! i = Some x /\ predicate x = true
       /\ forall (j : nat) y, (j < i)%nat -> slice !! j = Some y ->
            predicate y = false)
  /\ (slices.FindFunc slice predicate = None <->
        forall x, x ∈ slice -> predicate x = false).
Proof.
  induction slice as [|element rest [IHsome IHnone]]; cbn.
  { split; [|split; [|done]].
    - intros x. split; [done|]. by intros (i & Hi & _).
    - by intros _ x Hx%elem_of_nil. }
  destruct (predicate element) eqn:Hp.
  - split.
    + intros x. split.
      * intros [= <-]. exists 0%nat. split; [done|]. split; [done|].
        intros j y Hj. lia.
      * intros ([|i] & Hi & Hx & Hfirst); cbn in Hi; [done|].
        rewrite (Hfirst 0%nat element) in Hp; [done|lia|done].
    + split; [done|]. intros Hall. rewrite Hall in Hp; [done|left].
  - split.
    + intros x. rewrite IHsome. split.
      * intros (i & Hi & Hx & Hfirst). exists (S i).
        split; [done|]. split; [done|].
        intros [|j] y Hj Hy; cbn in Hy; [by simplify_eq|].
        apply (Hfirst j); [lia|done].
      * intros ([|i] & Hi & Hx & Hfirst); cbn in Hi; [congruence|].
        exists i. split; [done|]. split; [done|].
        intros j y Hj Hy. apply (Hfirst (S j)); [lia|done].
    + rewrite IHnone. split.
      * intros Hall x [->|Hx]%elem_of_cons; [done|by apply Hall].
      * intros Hall x Hx. apply Hall. by right.
Qed.

(** X4: [Insert] replaces and does not shift.  At a negative index it
    panics, and so it does at the largest [int], where the size of the new
    slice wraps around to a negative number.  At an index from 0 below the
    largest [int] it returns a slice as long as the longer of the slice
    and the index plus one, with the element at the index, the other
    elements of the slice where they were, and zero values in the places
    between the end of the slice and the index; the embedding sets no
    limit to the memory that [make] can allocate. *)
Theorem Insert_at_index (zero : A) (slice : list A) (element : A)
    (index : Z) :
  slices.len slice <= GoInt.MaxInt ->
  GoInt.MinInt <= index <= GoInt.MaxInt ->
  (index < 0 -> slices.Insert zero slice element index = None)
  /\ (index = GoInt.MaxInt -> slices.Insert zero slice element index = None)
  /\ (0 <= index < GoInt.MaxInt ->
      exists values,
        slices.Insert zero slice element index = Some values
        /\ slices.len values = Z.max (slices.len slice) (index + 1)
        /\ values !! Z.to_nat index = Some element
        /\ (forall (k : nat) x, Z.of_nat k <> index -> slice !! k = Some x ->
              values !! k = Some x)
        /\ (forall k : nat, slices.len slice <= Z.of_nat k < index ->
              values !! k = Some zero)).
Proof.
  intros Hlen Hint. split; [|split].
  - intros Hneg. unfold slices.Insert, slices.len in *.
    rewrite (bool_decide_true (index < _)) by lia.
    rewrite (bool_decide_false (index >= _)) by lia.
    rewrite (bool_decide_false (_ < 0)) by lia.
    by rewrite bool_decide_false by lia.
  - intros ->. unfold slices.Insert, slices.len in *.
    rewrite (bool_decide_false (GoInt.MaxInt < _)) by lia.
    rewrite (bool_decide_true (GoInt.MaxInt >= _)) by lia.
    assert (GoInt.add (Z.of_nat (length slice))
              (GoInt.sub (GoInt.add GoInt.MaxInt 1) (Z.of_nat (length slice)))
            = GoInt.MinInt) as ->.
    { unfold GoInt.add, GoInt.sub, GoInt.wrap, GoInt.MaxInt, GoInt.MinInt
        in *.
      set (n := Z.of_nat (length slice)) in *.
      replace (2 ^ 63 - 1 + 1 + 2 ^ 63) with (0 + 1 * 2 ^ 64) by lia.
      rewrite Z.mod_add, Z.mod_0_l by lia.
      replace (0 - 2 ^ 63 - n + 2 ^ 63) with (2 ^ 64 - n + -1 * 2 ^ 64)
        by lia.
      rewrite Z.mod_add by lia.
      destruct (decide (n = 0)) as [->|Hn].
      - rewrite Z.sub_0_r, Z.mod_same by lia.
        replace (0 + (0 - 2 ^ 63) + 2 ^ 63) with 0 by lia.
        rewrite Z.mod_0_l by lia. lia.
      - rewrite (Z.mod_small (2 ^ 64 - n)) by lia.
        replace (n + (2 ^ 64 - n - 2 ^ 63) + 2 ^ 63) with (0 + 1 * 2 ^ 64)
          by lia.
        rewrite Z.mod_add, Z.mod_0_l by lia. lia. }
    by rewrite bool_decide_true by (unfold GoInt.MinInt; lia).
  - intros Hindex. rewrite Insert_spec by lia.
    eexists. split; [done|]. unfold slices.len in *.
    rewrite length_insert, length_resize. split; [lia|].
    split; [|split].
    + rewrite lookup_insert_resize by lia. by rewrite decide_True.
    + intros k x Hk Hx. pose proof (lookup_lt_Some _ _ _ Hx) as Hlt.
      rewrite lookup_insert_resize by lia.
      rewrite decide_False by lia. by rewrite decide_True.
    + intros k Hk. rewrite lookup_insert_resize by lia.
      rewrite decide_False by lia. rewrite decide_False by lia.
      by rewrite decide_True by lia.
Qed.

End slices_facts.

(** ** Package parsetree *)

Lemma string_app_assoc (s t u : string) : (s +:+ t) +:+ u = s +:+ (t +:+ u).
Proof.
  induction s as [|a s IH]; [done|].
  change (String a ((s +:+ t) +:+ u) = String a (s +:+ (t +:+ u))).
  by rewrite IH.
Qed.

Lemma string_app_nil_r (s : string) : s +:+ "" = s.
Proof.
  induction s as [|a s IH]; [done|].
  change (String a (s +:+ "") = String a s). by rewrite IH.
Qed.

Lemma siblings_cons (n : Node) (c : Node) (l : list Node) :
  spec.siblings n = c :: l -> n = c /\ spec.siblings (NextSibling n) = l.
Proof. destruct n; cbn; [done|]. by intros [= <- <-]. Qed.

(** *** Body and Head *)

Lemma Body_loop_result (child body : Node) :
  let r := parsetree.Body_loop child body in
  (r = body \/ r = nil
   \/ (parsetree.IsBody r = true /\ exists p, r = deref child p))
  /\ (forall before c after,
        spec.siblings child = before ++ c :: after ->
        Forall (fun x => parsetree.IsBody x = false) before ->
        parsetree.IsBody c = true -> r = c)
  /\ (forall before c,
        spec.siblings child = before ++ [c] ->
        Forall (fun x => parsetree.IsBody x = false) (before ++ [c]) ->
        r = parsetree.Body_loop (FirstChild c) nil).
Proof.
  revert body.
  induction child as [|t d a c IHc s IHs]; intros body; cbn zeta.
  { cbn. split; [by left|]. split.
    - intros before c after Hs. by destruct before.
    - intros before c Hs. by destruct before. }
  cbn [parsetree.Body_loop].
  destruct (parsetree.IsBody (node t d a c s)) eqn:Hbody.
  - split; [|split].
    + right. right. split; [done|]. by exists [].
    + intros [|b before] c' after Hs Hbefore Hc'; cbn in Hs.
      * by injection Hs as -> _.
      * injection Hs as <- _. apply Forall_cons in Hbefore as [Hb _].
        congruence.
    + intros before c' Hs Hall. exfalso.
      assert (node t d a c s ∈ before ++ [c']) as Hin.
      { rewrite <- Hs. cbn. left. }
      rewrite Forall_forall in Hall. specialize (Hall _ Hin). congruence.
  - destruct (IHs (parsetree.Body_loop c nil)) as (Hres & Hfirst & Hlast).
    cbn zeta in *. split; [|split].
    + destruct Hres as [Hres|[Hres|[Hr (p & Hp)]]].
      * rewrite Hres.
        destruct (IHc nil) as ([Hc|[Hc|[Hr (p & Hp)]]] & _); cbn zeta in *.
        -- right. by left.
        -- right. by left.
        -- right. right. split; [done|]. by exists (down :: p).
      * right. by left.
      * right. right. split; [done|]. by exists (right :: p).
    + intros [|b before] c' after Hs Hbefore Hc'; cbn in Hs.
      * injection Hs as <- _. congruence.
      * injection Hs as _ Hs. apply Forall_cons in Hbefore as [_ Hbefore].
        by eapply Hfirst.
    + intros [|b before] c' Hs Hall; cbn in Hs.
      * injection Hs as <- Hs. destruct s; [done|discriminate].
      * injection Hs as _ Hs. apply Forall_cons in Hall as [_ Hall].
        by eapply Hlast.
Qed.

(** X5: [Body] returns nil or a body element of the tree under the node,
    which is the node or lies below it: the node itself when it is a body
    element, else its first child that is one; when no child is one, it
    returns what it finds under the last child, whatever the children
    before it hold, and nil when the node has no child. *)
Theorem Body_found (n : Node) :
  (parsetree.Body n = nil
   \/ (parsetree.IsBody (parsetree.Body n) = true
       /\ (parsetree.Body n = n
           \/ exists p, parsetree.Body n = deref n (down :: p))))
  /\ (parsetree.IsBody n = true -> parsetree.Body n = n)
  /\ (forall before c after,
        parsetree.IsBody n = false ->
        spec.child_nodes n = before ++ c :: after ->
        Forall (fun x => parsetree.IsBody x = false) before ->
        parsetree.IsBody c = true -> parsetree.Body n = c)
  /\ (forall before c,
        parsetree.IsBody n = false ->
        spec.child_nodes n = before ++ [c] ->
        Forall (fun x => parsetree.IsBody x = false) (before ++ [c]) ->
        parsetree.Body n = parsetree.Body c)
  /\ (parsetree.IsBody n = false -> spec.child_nodes n = [] ->
      parsetree.Body n = nil).
Proof.
  unfold parsetree.Body, spec.child_nodes.
  destruct n as [|t d a c s]; cbn [parsetree.IsNil FirstChild].
  { split; [by left|]. split; [done|]. split; [|split; [|done]].
    - intros before c after _ Hs. by destruct before.
    - intros before c _ Hs. by destruct before. }
  destruct (parsetree.IsBody (node t d a c s)) eqn:Hbody.
  { split; [|split; [done|split; [done|split; done]]].
    right. split; [done|]. by left. }
  destruct (Body_loop_result c nil) as (Hres & Hfirst & Hlast). cbn zeta in *.
  split; [|split; [done|split; [|split]]].
  - destruct Hres as [Hres|[Hres|[Hr (p & Hp)]]]; [by left|by left|].
    right. split; [done|]. right. by exists p.
  - intros before c' after _. apply Hfirst.
  - intros before c' _ Hs Hall. rewrite (Hlast before c' Hs Hall).
    assert (c' ∈ before ++ [c']) as Hin by (apply elem_of_app; right; left).
    rewrite Forall_forall in Hall. specialize (Hall _ Hin).
    destruct c' as [|t' d' a' c'' s']; [done|].
    cbn [parsetree.IsNil FirstChild]. by rewrite Hall.
  - intros _ Hnone. by destruct c.
Qed.

Lemma Head_loop_result (child body : Node) :
  let r := parsetree.Head_loop child body in
  (r = body \/ r = nil
   \/ (parsetree.IsHead r = true /\ exists p, r = deref child p))
  /\ (forall before c after,
        spec.siblings child = before ++ c :: after ->
        Forall (fun x => parsetree.IsHead x = false) before ->
        parsetree.IsHead c = true -> r = c)
  /\ (forall before c,
        spec.siblings child = before ++ [c] ->
        Forall (fun x => parsetree.IsHead x = false) (before ++ [c]) ->
        r = parsetree.Head_loop (FirstChild c) nil).
Proof.
  revert body.
  induction child as [|t d a c IHc s IHs]; intros body; cbn zeta.
  { cbn. split; [by left|]. split.
    - intros before c after Hs. by destruct before.
    - intros before c Hs. by destruct before. }
  cbn [parsetree.Head_loop].
  destruct (parsetree.IsHead (node t d a c s)) eqn:Hbody.
  - split; [|split].
    + right. right. split; [done|]. by exists [].
    + intros [|b before] c' after Hs Hbefore Hc'; cbn in Hs.
      * by injection Hs as -> _.
      * injection Hs as <- _. apply Forall_cons in Hbefore as [Hb _].
        congruence.
    + intros before c' Hs Hall. exfalso.
      assert (node t d a c s ∈ before ++ [c']) as Hin.
      { rewrite <- Hs. cbn. left. }
      rewrite Forall_forall in Hall. specialize (Hall _ Hin). congruence.
  - destruct (IHs (parsetree.Head_loop c nil)) as (Hres & Hfirst & Hlast).
    cbn zeta in *. split; [|split].
    + destruct Hres as [Hres|[Hres|[Hr (p & Hp)]]].
      * rewrite Hres.
        destruct (IHc nil) as ([Hc|[Hc|[Hr (p & Hp)]]] & _); cbn zeta in *.
        -- right. by left.
        -- right. by left.
        -- right. right. split; [done|]. by exists (down :: p).
      * right. by left.
      * right. right. split; [done|]. by exists (right :: p).
    + intros [|b before] c' after Hs Hbefore Hc'; cbn in Hs.
      * injection Hs as <- _. congruence.
      * injection Hs as _ Hs. apply Forall_cons in Hbefore as [_ Hbefore].
        by eapply Hfirst.
    + intros [|b before] c' Hs Hall; cbn in Hs.
      * injection Hs as <- Hs. destruct s; [done|discriminate].
      * injection Hs as _ Hs. apply Forall_cons in Hall as [_ Hall].
        by eapply Hlast.
Qed.

(** X6: [Head] returns nil or a head element of the tree under the node,
    which is the node or lies below it: the node itself when it is a head
    element, else its first child that is one; when no child is one, it
    returns what it finds under the last child, whatever the children
    before it hold, and nil when the node has no child. *)
Theorem Head_found (n : Node) :
  (parsetree.Head n = nil
   \/ (parsetree.IsHead (parsetree.Head n) = true
       /\ (parsetree.Head n = n
           \/ exists p, parsetree.Head n = deref n (down :: p))))
  /\ (parsetree.IsHead n = true -> parsetree.Head n = n)
  /\ (forall before c after,
        parsetree.IsHead n = false ->
        spec.child_nodes n = before ++ c :: after ->
        Forall (fun x => parsetree.IsHead x = false) before ->
        parsetree.IsHead c = true -> parsetree.Head n = c)
  /\ (forall before c,
        parsetree.IsHead n = false ->
        spec.child_nodes n = before ++ [c] ->
        Forall (fun x => parsetree.IsHead x = false) (before ++ [c]) ->
        parsetree.Head n = parsetree.Head c)
  /\ (parsetree.IsHead n = false -> spec.child_nodes n = [] ->
      parsetree.Head n = nil).
Proof.
  unfold parsetree.Head, spec.child_nodes.
  destruct n as [|t d a c s]; cbn [parsetree.IsNil FirstChild].
  { split; [by left|]. split; [done|]. split; [|split; [|done]].
    - intros before c after _ Hs. by destruct before.
    - intros before c _ Hs. by destruct before. }
  destruct (parsetree.IsHead (node t d a c s)) eqn:Hhead.
  { split; [|split; [done|split; [done|split; done]]].
    right. split; [done|]. by left. }
  destruct (Head_loop_result c nil) as (Hres & Hfirst & Hlast). cbn zeta in *.
  split; [|split; [done|split; [|split]]].
  - destruct Hres as [Hres|[Hres|[Hr (p & Hp)]]]; [by left|by left|].
    right. split; [done|]. right. by exists p.
  - intros before c' after _. apply Hfirst.
  - intros before c' _ Hs Hall. rewrite (Hlast before c' Hs Hall).
    assert (c' ∈ before ++ [c']) as Hin by (apply elem_of_app; right; left).
    rewrite Forall_forall in Hall. specialize (Hall _ Hin).
    destruct c' as [|t' d' a' c'' s']; [done|].
    cbn [parsetree.IsNil FirstChild]. by rewrite Hall.
  - intros _ Hnone. by destruct c.
Qed.

(** *** ElementsByTagName *)

Lemma ElementsByTagName_loop_tags (child : Node) (tags : list string)
    (p : path) :
  p ∈ parsetree.ElementsByTagName_loop child tags <->
  parsetree.IsNil (deref child p) = false
  /\ slices.Contains tags (Data (deref child p)) = true.
Proof.
  revert child. induction p as [|st p IH]; intros child.
  - destruct child as [|t d a c s]; cbn.
    + split; [by intros ?%elem_of_nil|]. by intros [? _].
    + rewrite !elem_of_app, !list_elem_of_fmap.
      destruct (slices.Contains tags d) eqn:Hd; split.
      * done.
      * intros _. left. by apply list_elem_of_singleton.
      * intros [?%elem_of_nil|[(? & ? & _)|(? & ? & _)]]; done.
      * by intros [_ ?].
  - destruct child as [|t d a c s].
    + cbn [parsetree.ElementsByTagName_loop]. rewrite deref_nil.
      split; [by intros ?%elem_of_nil|]. by intros [? _].
    + cbn [parsetree.ElementsByTagName_loop]. rewrite !elem_of_app.
      rewrite !list_elem_of_fmap.
      destruct st; cbn [deref FirstChild NextSibling]; rewrite <- IH; split.
      * intros [Hp|[(p' & [= <-] & Hp')|(p' & ? & _)]]; try done.
        destruct (slices.Contains _ _); [|by apply elem_of_nil in Hp].
        by apply list_elem_of_singleton in Hp.
      * intros Hp. right. left. by exists p.
      * intros [Hp|[(p' & ? & _)|(p' & [= <-] & Hp')]]; try done.
        destruct (slices.Contains _ _); [|by apply elem_of_nil in Hp].
        by apply list_elem_of_singleton in Hp.
      * intros Hp. right. right. by exists p.
Qed.

(** X7: [ElementsByTagName] returns each node below the given node whose
    [Data] is one of the tags exactly once, the node itself and its
    siblings left out; it does not look at the type of a node, so a text
    node whose text is a tag is returned too. *)
Theorem ElementsByTagName_descendants (n : Node) (tags : list string) :
  NoDup (parsetree.ElementsByTagName n tags)
  /\ forall p, p ∈ parsetree.ElementsByTagName n tags <->
       exists p', p = down :: p'
         /\ parsetree.IsNil (deref n p) = false
         /\ slices.Contains tags (Data (deref n p)) = true.
Proof.
  split; [apply ElementsByTagName_NoDup|]. intros p.
  unfold parsetree.ElementsByTagName.
  destruct n as [|t d a c s]; cbn [parsetree.IsNil].
  { split; [by intros ?%elem_of_nil|].
    intros (p' & -> & Hn & _). by rewrite deref_nil in Hn. }
  destruct tags as [|tag tags].
  { change (slices.IsEmpty ([] : list string)) with true. cbn iota.
    split; [by intros ?%elem_of_nil|]. by intros (p' & _ & _ & ?). }
  assert (slices.IsEmpty (tag :: tags) = false) as ->.
  { apply bool_decide_false. unfold slices.len. cbn [length]. lia. }
  rewrite list_elem_of_fmap. split.
  - intros (p' & -> & Hp'%ElementsByTagName_loop_tags). by exists p'.
  - intros (p' & -> & Hp'). exists p'. split; [done|].
    by apply ElementsByTagName_loop_tags.
Qed.

(** *** Siblings and the content of the sections *)

Lemma SiblingsUntilFunc_loop_prefix (sibling : Node) (predicate : Node -> bool) :
  exists rest,
    spec.siblings sibling
    = parsetree.SiblingsUntilFunc_loop sibling (Some predicate) ++ rest
    /\ Forall (fun x => predicate x = false)
         (parsetree.SiblingsUntilFunc_loop sibling (Some predicate))
    /\ (rest = [] \/ exists x rest', rest = x :: rest' /\ predicate x = true).
Proof.
  induction sibling as [|t d a c _ s (rest & Hs & Hall & Hrest)]; cbn.
  { exists []. split; [done|]. split; [constructor|by left]. }
  destruct (predicate (node t d a c s)) eqn:Hp.
  - exists (node t d a c s :: spec.siblings s). split; [done|].
    split; [constructor|]. right. by eexists _, _.
  - exists rest. cbn. rewrite Hs. split; [done|]. split; [|done].
    by constructor.
Qed.

(** X8: [SiblingsUntilFunc] returns the siblings after the node up to,
    and without, the first one that satisfies the predicate, or all of
    them when there is none or the predicate is nil. *)
Theorem SiblingsUntilFunc_prefix (n : Node) (predicate : Node -> bool) :
  (exists rest,
     spec.siblings (NextSibling n)
     = parsetree.SiblingsUntilFunc n (Some predicate) ++ rest
     /\ Forall (fun x => predicate x = false)
          (parsetree.SiblingsUntilFunc n (Some predicate))
     /\ (rest = [] \/ exists x rest', rest = x :: rest' /\ predicate x = true))
  /\ parsetree.SiblingsUntilFunc n None = spec.siblings (NextSibling n).
Proof.
  unfold parsetree.SiblingsUntilFunc.
  destruct n as [|t d a c s]; cbn [parsetree.IsNil NextSibling].
  { split; [|done]. exists []. split; [done|]. split; [constructor|by left]. }
  split; [apply SiblingsUntilFunc_loop_prefix|].
  clear. induction s as [|t d a c _ s IH]; cbn; [done|]. by rewrite IH.
Qed.

Lemma siblings_partition (child : Node) (predicate : Node -> bool) :
  spec.siblings child
  = parsetree.SiblingsUntilFunc_loop child (Some predicate)
    ++ flat_map
         (fun h => h :: parsetree.SiblingsUntilFunc h (Some predicate))
         (parsetree.ChildrenFunc_loop child (Some predicate)).
Proof.
  induction child as [|t d a c _ s IH]; [done|].
  cbn [spec.siblings parsetree.SiblingsUntilFunc_loop
       parsetree.ChildrenFunc_loop].
  destruct (predicate (node t d a c s)) eqn:Hp.
  - cbn. f_equal. exact IH.
  - cbn. f_equal. exact IH.
Qed.

(** X9: the children of a body are its leading nodes, up to the first
    heading, followed by each heading with the nodes of its content:
    every child after the leading nodes is a heading or belongs to the
    content of exactly one heading, in document order.  The nodes that
    [getPreface] serializes are the leading nodes without the first
    child. *)
Theorem children_partition (body : Node) :
  let leading :=
    parsetree.SiblingsUntilFunc_loop (FirstChild body)
      (Some parsetree.IsHeading) in
  spec.child_nodes body
  = leading
    ++ flat_map
         (fun h => h :: parsetree.SiblingsUntilFunc h (Some parsetree.IsHeading))
         (parsetree.Headings body)
  /\ Forall (fun x => parsetree.IsHeading x = false) leading
  /\ (parsetree.IsNil (FirstChild body) = false ->
      parsetree.IsHeading (FirstChild body) = false ->
      leading
      = FirstChild body
        :: parsetree.SiblingsUntilFunc (FirstChild body)
             (Some parsetree.IsHeading)).
Proof.
  cbn zeta. split; [|split].
  - unfold spec.child_nodes, parsetree.Headings, parsetree.ChildrenFunc.
    destruct body as [|t d a c s]; [done|]. cbn [parsetree.IsNil FirstChild].
    apply siblings_partition.
  - by destruct (SiblingsUntilFunc_loop_prefix (FirstChild body)
                   parsetree.IsHeading) as (rest & _ & Hall & _).
  - destruct (FirstChild body) as [|t d a c s] eqn:Hfirst; [done|].
    intros _ Hh. cbn [parsetree.SiblingsUntilFunc_loop].
    by rewrite Hh.
Qed.

(** *** Html *)

Lemma Html_loop_buffer (Render : Node -> string + error) (nodes : list Node)
    (buffer : string) :
  parsetree.Html_loop Render nodes buffer
  = match parsetree.Html_loop Render nodes "" with
    | (text, None) => (buffer +:+ text, None)
    | (_, Some err) => ("", Some err)
    end.
Proof.
  revert buffer. induction nodes as [|n nodes IH]; intros buffer; cbn.
  { by rewrite string_app_nil_r. }
  destruct (parsetree.IsNil n); cbn; [apply IH|].
  destruct (Render n) as [text|err]; [|done].
  rewrite (IH (buffer +:+ text)), (IH ("" +:+ text)).
  destruct (parsetree.Html_loop Render nodes "") as [text' [err|]]; [done|].
  by rewrite string_app_assoc.
Qed.

Lemma Html_loop_app (Render : Node -> string + error)
    (nodes others : list Node) (buffer : string) :
  parsetree.Html_loop Render (nodes ++ others) buffer
  = match parsetree.Html_loop Render nodes buffer with
    | (text, None) => parsetree.Html_loop Render others text
    | (_, Some err) => ("", Some err)
    end.
Proof.
  revert buffer. induction nodes as [|n nodes IH]; intros buffer; cbn; [done|].
  destruct (parsetree.IsNil n); cbn; [apply IH|].
  destruct (Render n) as [text|err]; [apply IH|done].
Qed.

Lemma Html_loop_error_text (Render : Node -> string + error)
    (nodes : list Node) (buffer text : string) (err : error) :
  parsetree.Html_loop Render nodes buffer = (text, Some err) -> text = "".
Proof.
  revert buffer. induction nodes as [|n nodes IH]; intros buffer; cbn; [done|].
  destruct (parsetree.IsNil n); cbn; [apply IH|].
  destruct (Render n) as [t|e]; [apply IH|]. by intros [= <- _].
Qed.

(** X10: [Html] of no node is the empty text; of one node that is not
    nil it is what [html.Render] writes for the node, or the empty text
    with the error of [html.Render]; of nodes one after the other it is
    the markup of the first ones followed by the markup of the others.  A
    nil node adds nothing; when a node fails to render, [Html] returns
    the empty text with the first error, whatever was rendered before. *)
Theorem Html_concatenates (Render : Node -> string + error)
    (nodes others : list Node) :
  parsetree.Html Render [] = ("", None)
  /\ (forall n, parsetree.IsNil n = false ->
        parsetree.Html Render [n]
        = match Render n with
          | inl text => (text, None)
          | inr err => ("", Some err)
          end)
  /\ parsetree.Html Render (nodes ++ others)
     = match parsetree.Html Render nodes with
       | (text, None) =>
           match parsetree.Html Render others with
           | (text', None) => (text +:+ text', None)
           | (_, Some err) => ("", Some err)
           end
       | (_, Some err) => ("", Some err)
       end
  /\ parsetree.Html Render (nil :: others) = parsetree.Html Render others
  /\ (forall text err,
        parsetree.Html Render nodes = (text, Some err) -> text = "").
Proof.
  unfold parsetree.Html. split; [done|]. split; [|split; [|split; [done|]]].
  - intros n Hn. cbn. rewrite Hn. cbn. by destruct (Render n).
  - rewrite Html_loop_app.
    destruct (parsetree.Html_loop Render nodes "") as [text [err|]]; [done|].
    apply Html_loop_buffer.
  - intros text err. apply Html_loop_error_text.
Qed.

(** *** AttributeMap *)

Lemma AttributeMap_loop_lookup (attr : list Attribute)
    (m : gmap string string) (key : string) :
  parsetree.AttributeMap_loop attr m !! key
  = match last (List.filter (fun a => bool_decide (Key a = key)) attr) with
    | Some a => Some (Val a)
    | None => m !! key
    end.
Proof.
  revert m. induction attr as [|a attr IH]; intros m; [done|].
  cbn [parsetree.AttributeMap_loop List.filter]. rewrite IH.
  case_bool_decide as Hkey.
  - rewrite last_cons.
    destruct (last _) as [b|]; [done|]. subst key. by rewrite lookup_insert_eq.
  - destruct (last _) as [b|]; [done|]. by rewrite lookup_insert_ne.
Qed.

(** X11: in the map of [AttributeMap] a key has the value of the last
    attribute of the node with that key, and is absent exactly when the
    node has no attribute with that key; the map of a nil node is empty. *)
Theorem AttributeMap_last_wins (n : Node) (key : string) :
  parsetree.AttributeMap n !! key
  = Val <$> last (List.filter (fun a => bool_decide (Key a = key)) (Attr n))
  /\ (parsetree.AttributeMap n !! key = None <->
      forall a, a ∈ Attr n -> Key a <> key)
  /\ parsetree.AttributeMap nil = ∅.
Proof.
  assert (parsetree.AttributeMap n !! key
          = Val <$> last (List.filter (fun a => bool_decide (Key a = key))
                            (Attr n))) as Hlookup.
  { unfold parsetree.AttributeMap. destruct n as [|t d a c s]; [done|].
    cbn [parsetree.IsNil Attr]. rewrite AttributeMap_loop_lookup.
    by destruct (last _). }
  split; [done|]. split; [|done].
  rewrite Hlookup, fmap_None, last_None. split.
  - intros Hnil a Ha Hkey.
    assert (a ∈ List.filter (fun a => bool_decide (Key a = key)) (Attr n))
      as Hin.
    { apply list_elem_of_In, List.filter_In. split.
      - by apply list_elem_of_In.
      - by apply bool_decide_eq_true. }
    rewrite Hnil in Hin. by apply elem_of_nil in Hin.
  - intros Hall.
    destruct (List.filter _ (Attr n)) as [|a l] eqn:Hf; [done|].
    assert (a ∈ List.filter (fun a => bool_decide (Key a = key)) (Attr n))
      as [Hin Hkey%bool_decide_eq_true]%list_elem_of_In%List.filter_In
      by (rewrite Hf; left).
    destruct (Hall a); [by apply list_elem_of_In|done].
Qed.

(** ** book.go and the content of the chapters *)

Lemma getTitle_loop_first (child : Node) :
  (forall before c after,
     spec.siblings child = before ++ c :: after ->
     Forall (fun x => Data x <> "title") before -> Data c = "title" ->
     getTitle_loop child = (parsetree.Text c, None))
  /\ ((forall c, c ∈ spec.siblings child -> Data c <> "title") ->
      getTitle_loop child = ("", Some no_title)).
Proof.
  induction child as [|t d a c _ s [IHfirst IHnone]]; cbn.
  { split; [|done]. intros before c after Hs. by destruct before. }
  case_bool_decide as Hd; split.
  - intros [|b before] c' after Hs Hbefore Hc'; cbn in Hs.
    + by injection Hs as <- _.
    + injection Hs as <- _. by apply Forall_cons in Hbefore as [Hb _].
  - intros Hall. destruct (Hall (node t d a c s)); [left|done].
  - intros [|b before] c' after Hs Hbefore Hc'; cbn in Hs.
    + injection Hs as <- _. done.
    + injection Hs as _ Hs. apply Forall_cons in Hbefore as [_ Hbefore].
      by eapply IHfirst.
  - intros Hall. apply IHnone. intros c' Hc'. apply Hall. by right.
Qed.

(** X12: [getTitle] returns the text of the first child of the head whose
    [Data] is title, and the error that there is no title exactly when no
    child has that [Data]; it panics on a nil head. *)
Theorem getTitle_first_title (head : Node) :
  (parsetree.IsNil head = true -> getTitle head = None)
  /\ (forall before c after,
        parsetree.IsNil head = false ->
        spec.child_nodes head = before ++ c :: after ->
        Forall (fun x => Data x <> "title") before -> Data c = "title" ->
        getTitle head = Some (parsetree.Text c, None))
  /\ (parsetree.IsNil head = false ->
      (getTitle head
       = Some ("", Some (errors.New "passed HTML 'head' node contains no 'title'"))
       <-> forall c, c ∈ spec.child_nodes head -> Data c <> "title")).
Proof.
  unfold getTitle, spec.child_nodes.
  destruct (getTitle_loop_first (FirstChild head)) as [Hfirst Hnone].
  split; [by intros ->|]. split.
  - intros before c after -> Hs Hbefore Hc. f_equal. by eapply Hfirst.
  - intros ->. split; [|by intros ->%Hnone].
    intros Herr c Hc Hd.
    apply list_elem_of_lookup in Hc as [i Hi].
    assert (exists before c' after,
              spec.siblings (FirstChild head) = before ++ c' :: after
              /\ Forall (fun x => Data x <> "title") before
              /\ Data c' = "title") as (before & c' & after & Hs & Hb & Hc').
    { clear Herr Hfirst Hnone. revert i Hi.
      induction (spec.siblings (FirstChild head)) as [|x l IH]; intros i Hi;
        [done|].
      destruct (decide (Data x = "title")) as [Hx|Hx].
      - exists [], x, l. by repeat split.
      - destruct i as [|i]; cbn in Hi; [by simplify_eq|].
        destruct (IH i Hi) as (before & c' & after & -> & Hb & Hc').
        exists (x :: before), c', after. split; [done|].
        split; [by constructor|done]. }
    rewrite (Hfirst before c' after Hs Hb Hc') in Herr. by injection Herr.
Qed.

Lemma getAuthor_loop_first (head : Node) (metas : list path) :
  (getAuthor_loop head metas).2 = None
  /\ (forall (i : nat) m content,
        metas !! i = Some m ->
        parsetree.AttributeMap (deref head m) !! "name" = Some "author" ->
        parsetree.AttributeMap (deref head m) !! "content" = Some content ->
        (forall (j : nat) m', (j < i)%nat -> metas !! j = Some m' ->
           parsetree.AttributeMap (deref head m') !! "name" <> Some "author"
           \/ parsetree.AttributeMap (deref head m') !! "content" = None) ->
        getAuthor_loop head metas = (content, None))
  /\ ((forall m, m ∈ metas ->
         parsetree.AttributeMap (deref head m) !! "name" <> Some "author"
         \/ parsetree.AttributeMap (deref head m) !! "content" = None) ->
      getAuthor_loop head metas = ("", None)).
Proof.
  induction metas as [|meta rest (IHerr & IHfirst & IHnone)];
    cbn [getAuthor_loop].
  { split; [done|]. split; [|done]. intros i m content Hi. by destruct i. }
  set (attributes := parsetree.AttributeMap (deref head meta)) in *.
  split; [|split].
  - destruct (attributes !! "name") as [name|]; [|done].
    case_bool_decide; [|done]. by destruct (attributes !! "content").
  - intros [|i] m content Hi Hname Hcontent Hfirst; cbn in Hi.
    + injection Hi as <-. fold attributes in Hname, Hcontent.
      rewrite Hname, Hcontent.
      by rewrite bool_decide_true.
    + assert (getAuthor_loop head rest = (content, None)) as Hrest.
      { eapply IHfirst; [done..|]. intros j m' Hj Hm'.
        apply (Hfirst (S j)); [lia|done]. }
      destruct (Hfirst 0%nat meta) as [Hn|Hc]; [lia|done|..];
        fold attributes in Hn || fold attributes in Hc.
      * destruct (attributes !! "name") as [name|]; [|done].
        rewrite bool_decide_false; [done|congruence].
      * rewrite Hc. destruct (attributes !! "name") as [name|]; [|done].
        by case_bool_decide.
  - intros Hall. assert (getAuthor_loop head rest = ("", None)) as Hrest.
    { apply IHnone. intros m Hm. apply Hall. by right. }
    destruct (Hall meta) as [Hn|Hc]; [left|..];
      fold attributes in Hn || fold attributes in Hc.
    + destruct (attributes !! "name") as [name|]; [|done].
      rewrite bool_decide_false; [done|congruence].
    + rewrite Hc. destruct (attributes !! "name") as [name|]; [|done].
      by case_bool_decide.
Qed.

Lemma getDate_loop_first (head : Node) (metas : list path) :
  (getDate_loop head metas).2 = None
  /\ (forall (i : nat) m content,
        metas !! i = Some m ->
        parsetree.AttributeMap (deref head m) !! "name" = Some "dcterms.date" ->
        parsetree.AttributeMap (deref head m) !! "content" = Some content ->
        (forall (j : nat) m', (j < i)%nat -> metas !! j = Some m' ->
           parsetree.AttributeMap (deref head m') !! "name"
             <> Some "dcterms.date"
           \/ parsetree.AttributeMap (deref head m') !! "content" = None) ->
        getDate_loop head metas = (content, None))
  /\ ((forall m, m ∈ metas ->
         parsetree.AttributeMap (deref head m) !! "name" <> Some "dcterms.date"
         \/ parsetree.AttributeMap (deref head m) !! "content" = None) ->
      getDate_loop head metas = ("", None)).
Proof.
  induction metas as [|meta rest (IHerr & IHfirst & IHnone)];
    cbn [getDate_loop].
  { split; [done|]. split; [|done]. intros i m content Hi. by destruct i. }
  set (attributes := parsetree.AttributeMap (deref head meta)) in *.
  split; [|split].
  - destruct (attributes !! "name") as [name|]; [|done].
    case_bool_decide; [|done]. by destruct (attributes !! "content").
  - intros [|i] m content Hi Hname Hcontent Hfirst; cbn in Hi.
    + injection Hi as <-. fold attributes in Hname, Hcontent.
      rewrite Hname, Hcontent.
      by rewrite bool_decide_true.
    + assert (getDate_loop head rest = (content, None)) as Hrest.
      { eapply IHfirst; [done..|]. intros j m' Hj Hm'.
        apply (Hfirst (S j)); [lia|done]. }
      destruct (Hfirst 0%nat meta) as [Hn|Hc]; [lia|done|..];
        fold attributes in Hn || fold attributes in Hc.
      * destruct (attributes !! "name") as [name|]; [|done].
        rewrite bool_decide_false; [done|congruence].
      * rewrite Hc. destruct (attributes !! "name") as [name|]; [|done].
        by case_bool_decide.
  - intros Hall. assert (getDate_loop head rest = ("", None)) as Hrest.
    { apply IHnone. intros m Hm. apply Hall. by right. }
    destruct (Hall meta) as [Hn|Hc]; [left|..];
      fold attributes in Hn || fold attributes in Hc.
    + destruct (attributes !! "name") as [name|]; [|done].
      rewrite bool_decide_false; [done|congruence].
    + rewrite Hc. destruct (attributes !! "name") as [name|]; [|done].
      by case_bool_decide.
Qed.

(** X13: [getAuthor] never returns an error.  It returns the content
    attribute of the first node below the head, in document order, whose
    [Data] is meta and that has the name attribute author and a content
    attribute, and the empty string when there is none. *)
Theorem getAuthor_first_meta (head : Node) :
  (getAuthor head).2 = None
  /\ (forall (i : nat) m content,
        parsetree.ElementsByTagName head ["meta"] !! i = Some m ->
        parsetree.AttributeMap (deref head m) !! "name" = Some "author" ->
        parsetree.AttributeMap (deref head m) !! "content" = Some content ->
        (forall (j : nat) m', (j < i)%nat ->
           parsetree.ElementsByTagName head ["meta"] !! j = Some m' ->
           parsetree.AttributeMap (deref head m') !! "name" <> Some "author"
           \/ parsetree.AttributeMap (deref head m') !! "content" = None) ->
        getAuthor head = (content, None))
  /\ ((forall m, m ∈ parsetree.ElementsByTagName head ["meta"] ->
         parsetree.AttributeMap (deref head m) !! "name" <> Some "author"
         \/ parsetree.AttributeMap (deref head m) !! "content" = None) ->
      getAuthor head = ("", None)).
Proof. apply getAuthor_loop_first. Qed.

(** X14: [getDate] never returns an error.  It returns the content
    attribute of the first node below the head, in document order, whose
    [Data] is meta and that has the name attribute dcterms.date and a
    content attribute, and the empty string when there is none. *)
Theorem getDate_first_meta (head : Node) :
  (getDate head).2 = None
  /\ (forall (i : nat) m content,
        parsetree.ElementsByTagName head ["meta"] !! i = Some m ->
        parsetree.AttributeMap (deref head m) !! "name" = Some "dcterms.date" ->
        parsetree.AttributeMap (deref head m) !! "content" = Some content ->
        (forall (j : nat) m', (j < i)%nat ->
           parsetree.ElementsByTagName head ["meta"] !! j = Some m' ->
           parsetree.AttributeMap (deref head m') !! "name"
             <> Some "dcterms.date"
           \/ parsetree.AttributeMap (deref head m') !! "content" = None) ->
        getDate head = (content, None))
  /\ ((forall m, m ∈ parsetree.ElementsByTagName head ["meta"] ->
         parsetree.AttributeMap (deref head m) !! "name" <> Some "dcterms.date"
         \/ parsetree.AttributeMap (deref head m) !! "content" = None) ->
      getDate head = ("", None)).
Proof. apply getDate_loop_first. Qed.

(** ** The content of the chapters, the preface and [New] *)

Section content_facts.

Variable Render : Node -> string + error.
Variable Fields : string -> list string.

Lemma Chapters_body_title (heading : Node) (index : Z) (c c' : Counters)
    (h h' : Heap) (chapter : Chapter.t) :
  Chapters_body Render Fields heading index c h = inr (chapter, c', h') ->
  parsetree.Html Render (parsetree.Children heading)
  = (Html (Chapter.Title chapter), None).
Proof.
  unfold Chapters_body.
  destruct (parsetree.HeadingLevel heading) as [level [err|]]; [done|].
  destruct (parsetree.Html Render (parsetree.Children heading))
    as [headingHtml [err|]]; [done|].
  destruct (parsetree.Html Render _) as [contentHtml [err|]]; [done|].
  destruct (prefix c heading) as [c1 pre]. cbn. by intros [= <- <- <-].
Qed.

(** The loop allocates upwards and writes to what it allocates only; the
    content of each chapter is the markup of the siblings of its heading
    up to the next heading. *)
Lemma Chapters_loop_content (headings : list Node) (index : Z) (c : Counters)
    (h : Heap) :
  let r := Chapters_loop Render Fields headings index c h [] in
  (next h <= next r.1)%nat
  /\ (forall a, (a < next h)%nat -> load r.1 a = load h a)
  /\ forall (k : nat) chapter, r.2.1 !! k = Some chapter ->
       exists heading, headings !! k = Some heading
         /\ parsetree.Html Render
              (parsetree.SiblingsUntilFunc heading (Some parsetree.IsHeading))
            = (load r.1 (Chapter.Content chapter), None)
         /\ parsetree.Html Render (parsetree.Children heading)
            = (Html (Chapter.Title chapter), None)
         /\ Text (Chapter.Title chapter)
            = Join (Fields (parsetree.Text heading)) " ".
Proof.
  revert index c h.
  induction headings as [|heading rest IH]; intros index c h.
  { cbn. split; [lia|]. split; [done|]. intros k chapter Hk. by destruct k. }
  rewrite Chapters_loop_cons.
  destruct (Chapters_body _ _ _ _ _ _) as [err|[[chapter c'] h']] eqn:Hbody.
  { cbn. split; [lia|]. split; [done|]. intros k chapter Hk. by destruct k. }
  specialize (IH (index + 1) c' h') as (Hnext & Hframe & Hnew).
  pose proof (Chapters_body_title _ _ _ _ _ _ _ Hbody) as Htitle.
  apply Chapters_body_inr in Hbody
    as (_ & _ & _ & _ & Htext & Hcontent & _ & Hnext' & Hhtml & Hother).
  cbn zeta in *. cbn [fst snd]. split; [lia|]. split.
  - intros a Ha. rewrite Hframe by lia. apply Hother. lia.
  - intros [|k] chapter' Hk; cbn in Hk.
    + injection Hk as <-. exists heading. split; [done|].
      split; [|done]. rewrite Hframe by lia. done.
    + by apply Hnew in Hk.
Qed.

(** The same for [Chapters]: a node that is no body gives no chapter. *)
Lemma Chapters_markup (h : Heap) (body : Node) (k : nat)
    (chapter : Chapter.t) :
  (Chapters Render Fields h body).2.1 !! k = Some chapter ->
  exists heading, parsetree.Headings body !! k = Some heading
    /\ parsetree.Html Render
         (parsetree.SiblingsUntilFunc heading (Some parsetree.IsHeading))
       = (load (Chapters Render Fields h body).1 (Chapter.Content chapter),
          None).
Proof.
  unfold Chapters. destruct (parsetree.IsBody body); cbn [negb].
  - intros Hk.
    destruct (Chapters_loop_content (parsetree.Headings body) 0 getPrefix h)
      as (_ & _ & Hnew).
    destruct (Hnew k chapter Hk) as (heading & Hheading & Hhtml & _).
    by exists heading.
  - cbn. by destruct k.
Qed.

(** X15: the body markup of every Section extracted is the serialization
    of the nodes that follow its heading up to the next heading, its title
    markup is the serialization of the children of the heading, and its
    title text is the text of the heading with its fields joined by one
    space. *)
Theorem Chapters_content (h : Heap) (body : Node) :
  let r := Chapters Render Fields h body in
  forall (k : nat) chapter, r.2.1 !! k = Some chapter ->
    exists heading, parsetree.Headings body !! k = Some heading
      /\ parsetree.Html Render
           (parsetree.SiblingsUntilFunc heading (Some parsetree.IsHeading))
         = (load r.1 (Chapter.Content chapter), None)
      /\ parsetree.Html Render (parsetree.Children heading)
         = (Html (Chapter.Title chapter), None)
      /\ Text (Chapter.Title chapter)
         = Join (Fields (parsetree.Text heading)) " ".
Proof.
  unfold Chapters. destruct (parsetree.IsBody body); cbn [negb].
  - apply Chapters_loop_content.
  - cbn. intros k chapter Hk. by destruct k.
Qed.

(** X16: when the first child of the body is a heading, the preface is
    the body markup of the first Section. *)
Theorem getPreface_first_heading (h : Heap) (body : Node) (chapter : Chapter.t) :
  parsetree.IsBody body = true ->
  parsetree.IsHeading (FirstChild body) = true ->
  (Chapters Render Fields h body).2.1 !! 0%nat = Some chapter ->
  getPreface Render body
  = Some (load (Chapters Render Fields h body).1 (Chapter.Content chapter), None).
Proof.
  intros Hbody Hfirst Hchapter.
  destruct (Chapters_markup h body 0 chapter Hchapter)
    as (heading & Hheading & Hhtml).
  assert (heading = FirstChild body) as ->.
  { unfold parsetree.Headings, parsetree.ChildrenFunc in Hheading.
    destruct body as [|t d a c s]; [done|].
    cbn [parsetree.IsNil FirstChild] in *.
    destruct c as [|t' d' a' c' s']; [done|].
    cbn [parsetree.ChildrenFunc_loop] in Hheading.
    rewrite Hfirst in Hheading. by injection Hheading. }
  unfold getPreface. destruct body as [|t d a c s]; [done|].
  cbn [parsetree.IsNil]. by rewrite Hhtml.
Qed.

End content_facts.

Section new_facts.

Variable Parse : string -> Node * option error.
Variable Render : Node -> string + error.
Variable QueryUnescape : string -> string * option error.
Variable Fields : string -> list string.

(** X17: [New] does not panic, and it returns a book exactly when it
    returns no error. *)
Theorem New_returns (h : Heap) (file : string) :
  exists h' book err,
    New Parse Render QueryUnescape Fields h file = Some (h', (book, err))
    /\ (is_Some book <-> err = None).
Proof.
  unfold New, parsetree.New.
  destruct (Parse file) as [tree [err|]].
  { eexists _, _, _. split; [done|]. split; [by intros [? ?]|done]. }
  destruct (parsetree.IsHead (parsetree.Head tree)) eqn:Hhead; cbn [negb].
  2: { eexists _, _, _. split; [done|]. split; [by intros [? ?]|done]. }
  destruct (parsetree.IsBody (parsetree.Body tree)) eqn:Hbody; cbn [negb].
  2: { eexists _, _, _. split; [done|]. split; [by intros [? ?]|done]. }
  unfold getTitle.
  destruct (parsetree.Head tree) as [|ht hd ha hc hs]; [done|].
  cbn [parsetree.IsNil].
  destruct (getTitle_loop _) as [title [err|]].
  { eexists _, _, _. split; [done|]. split; [by intros [? ?]|done]. }
  destruct (getAuthor _) as [author [err|]].
  { eexists _, _, _. split; [done|]. split; [by intros [? ?]|done]. }
  destruct (getDate _) as [date [err|]].
  { eexists _, _, _. split; [done|]. split; [by intros [? ?]|done]. }
  unfold getPreface.
  destruct (parsetree.Body tree) as [|bt bd ba bc bs] eqn:Hb; [done|].
  cbn [parsetree.IsNil].
  destruct (parsetree.Html Render _) as [preface [err|]].
  { eexists _, _, _. split; [done|]. split; [by intros [? ?]|done]. }
  destruct (Pages_spec Render Fields h (node bt bd ba bc bs))
    as (pages & -> & _).
  destruct (Chapters Render Fields h (node bt bd ba bc bs))
    as [h1 [chapters [err|]]]; cbn [fst snd].
  { eexists _, _, _. split; [done|]. split; [by intros [? ?]|done]. }
  destruct (ResolveCrossReferences _ _ _ _ _) as [h2 [err|]].
  { eexists _, _, _. split; [done|]. split; [by intros [? ?]|done]. }
  eexists _, _, _. split; [done|]. split; [done|by eexists].
Qed.

(** X18: when [New] returns a book, its pages are one per heading that is
    a direct child of the body found in the parsed file, numbered from 1
    with the Paths page1.html, page2.html and so on; the content of a page
    is the serialization of what the links of its body markup, parsed
    again, were rewritten to, where the body markup is the serialization
    of the nodes between its heading and the next. *)
Theorem New_pages (h h' : Heap) (file : string) (book : Book.t) :
  New Parse Render QueryUnescape Fields h file = Some (h', (Some book, None)) ->
  let body := parsetree.Body (Parse file).1 in
  slices.len (parsetree.Headings body) <= GoInt.MaxInt ->
  length (Book.Pages book) = length (parsetree.Headings body)
  /\ forall (i : nat) page, Book.Pages book !! i = Some page ->
       Page.Id page = Z.of_nat i + 1
       /\ Page.Path page = "page" +:+ pretty (Z.of_nat i + 1) +:+ ".html"
       /\ exists heading markup tree,
            parsetree.Headings body !! i = Some heading
            /\ parsetree.HeadingLevel heading = (Page.Level page, None)
            /\ parsetree.Html Render
                 (parsetree.SiblingsUntilFunc heading
                    (Some parsetree.IsHeading)) = (markup, None)
            /\ Parse markup = (tree, None)
            /\ parsetree.Html Render
                 (parsetree.Children
                    (links_loop QueryUnescape (Book.Pages book)
                       (parsetree.ElementsByTagName (parsetree.Body tree) ["a"])
                       (parsetree.Body tree)))
               = (load h' (Page.Content page), None).
Proof.
  unfold New, parsetree.New.
  destruct (Parse file) as [tree [err|]]; [done|]. cbn [fst].
  destruct (parsetree.IsHead (parsetree.Head tree)); cbn [negb]; [|done].
  destruct (parsetree.IsBody (parsetree.Body tree)) eqn:Hbody; cbn [negb];
    [|done].
  destruct (getTitle _) as [[title [err|]]|]; [done| |done].
  destruct (getAuthor _) as [author [err|]]; [done|].
  destruct (getDate _) as [date [err|]]; [done|].
  destruct (getPreface _ _) as [[preface [err|]]|]; [done| |done].
  set (body := parsetree.Body tree) in *.
  destruct (Pages_spec Render Fields h body) as (pages & Hpages & Hnone).
  rewrite Hpages.
  pose proof (Chapters_loop_shape Render Fields (parsetree.Headings body) 0
                getPrefix h) as (_ & Hlen & _ & Hshape).
  pose proof (Chapters_markup Render Fields h body) as Hcontent.
  unfold Chapters in *. rewrite Hbody in *. cbn [negb] in *.
  destruct (Chapters_loop _ _ _ _ _ _ _) as [h1 [chapters [err|]]];
    cbn [fst snd] in *; [done|].
  destruct (Hnone eq_refl) as [Hof Hdistinct].
  destruct (ResolveCrossReferences _ _ _ _ _) as [h2 [err|]] eqn:Hrun; [done|].
  intros [= <- <-] Hmax. cbn [Book.Pages].
  destruct (ResolveCrossReferences_loop_content Parse Render QueryUnescape
              pages pages h1 h2 Hdistinct Hrun) as [_ Hresolved].
  specialize (Hlen eq_refl).
  split. { rewrite <- Hlen. symmetry. by eapply Forall2_length. }
  intros i page Hi.
  destruct (Forall2_lookup_r _ _ _ _ _ Hof Hi)
    as (chapter & Hchapter & HId & HLevel & HPath & _ & HContent & _).
  pose proof (lookup_lt_Some _ _ _ Hchapter) as Hlt.
  destruct (Hshape i chapter Hchapter)
    as ((heading & Hheading & Hlevel) & Hid & Hpath & _).
  rewrite GoInt_add_small in Hid
    by (destruct GoInt_bounds; unfold slices.len in *; lia).
  rewrite HId, HPath, Hpath, Hid, HLevel.
  split; [lia|]. split; [unfold Sprintf_d; do 3 f_equal|].
  destruct (Hcontent i chapter Hchapter) as (heading' & Hheading' & Hhtml).
  assert (heading' = heading) as -> by congruence.
  destruct (Hresolved i page Hi) as (tree' & Hparse & Hrendered).
  rewrite HContent in Hparse.
  exists heading, (load h1 (Chapter.Content chapter)), tree'.
  by repeat split.
Qed.

(** X27: when [New] returns a book, the parsed file has a head and a body,
    the title, author and date of the book are what [getTitle], [getAuthor]
    and [getDate] return for the head, and the preface is the
    serialization of the nodes that follow the first child of the body up
    to the first heading among them, as they were parsed: the links of the
    preface are not rewritten. *)
Theorem New_metadata (h h' : Heap) (file : string) (book : Book.t) :
  New Parse Render QueryUnescape Fields h file = Some (h', (Some book, None)) ->
  let head := parsetree.Head (Parse file).1 in
  let body := parsetree.Body (Parse file).1 in
  (Parse file).2 = None
  /\ parsetree.IsHead head = true
  /\ parsetree.IsBody body = true
  /\ getTitle head = Some (MetaData.Title (Book.MetaData book), None)
  /\ getAuthor head = (MetaData.Author (Book.MetaData book), None)
  /\ getDate head = (MetaData.Date (Book.MetaData book), None)
  /\ parsetree.Html Render
       (parsetree.SiblingsUntilFunc (FirstChild body) (Some parsetree.IsHeading))
     = (MetaData.Preface (Book.MetaData book), None).
Proof.
  unfold New, parsetree.New.
  destruct (Parse file) as [tree [err|]]; [done|]. cbn [fst snd].
  destruct (parsetree.IsHead (parsetree.Head tree)); cbn [negb]; [|done].
  destruct (parsetree.IsBody (parsetree.Body tree)) eqn:Hbody; cbn [negb];
    [|done].
  destruct (getTitle _) as [[title [err|]]|]; [done| |done].
  destruct (getAuthor _) as [author [err|]]; [done|].
  destruct (getDate _) as [date [err|]]; [done|].
  unfold getPreface.
  destruct (parsetree.IsNil (parsetree.Body tree)); [done|].
  destruct (parsetree.Html Render _) as [preface [err|]]; [done|].
  destruct (Pages _ _ _ _) as [[h1 [pages [err|]]]|]; [done| |done].
  destruct (ResolveCrossReferences _ _ _ _ _) as [h2 [err|]]; [done|].
  by intros [= <- <-].
Qed.

End new_facts.

(** ** How the navigation fields fit together *)

Section navigation_more.

Variable chapters : list Chapter.t.
Hypothesis distinct : NoDup (Chapter.addr <$> chapters).
Hypothesis fits : slices.len chapters <= GoInt.MaxInt.

Lemma chapters_lookup_inj (i j : nat) (c : Chapter.t) :
  chapters !! i = Some c -> chapters !! j = Some c -> i = j.
Proof.
  intros Hi Hj. eapply (NoDup_lookup _ i j (Chapter.addr c) distinct);
    rewrite list_lookup_fmap; [by rewrite Hi|by rewrite Hj].
Qed.

(** X19: next and previous are inverse to each other: T is the next of S
    exactly when S is the previous of T. *)
Theorem next_previous_inverse (S T : Chapter.t) :
  S ∈ chapters -> T ∈ chapters ->
  getNext S chapters = Some T <-> getPrevious T chapters = Some S.
Proof.
  intros [i Hi]%list_elem_of_lookup [j Hj]%list_elem_of_lookup.
  rewrite (getNext_spec chapters i S distinct Hi T fits).
  rewrite (getPrevious_spec chapters j T distinct Hj S fits).
  split.
  - intros (j' & Hij & Hj' & Hlevel & Hbetween).
    assert (j' = j) as -> by (by eapply chapters_lookup_inj).
    exists i. split; [done|]. split; [done|]. split; [done|].
    intros k c Hk Hc. rewrite Hlevel. by eapply Hbetween.
  - intros (i' & Hij & Hi' & Hlevel & Hbetween).
    assert (i' = i) as -> by (by eapply chapters_lookup_inj).
    exists j. split; [done|]. split; [done|]. split; [done|].
    intros k c Hk Hc. rewrite Hlevel. by eapply Hbetween.
Qed.

Lemma getChildren_spec (i : nat) (S : Chapter.t) :
  chapters !! i = Some S ->
  GoInt.MinInt <= Chapter.Level S <= 2 ->
  getChildren S chapters
  = spec.direct_children (Chapter.Level S) (drop (Datatypes.S i) chapters).
Proof.
  intros Hi HS. unfold getChildren.
  rewrite (Index_distinct chapters i S) by done.
  pose proof (lookup_lt_Some _ _ _ Hi) as Hlt.
  int_small. replace (Z.to_nat (Z.of_nat i + 1)) with (Datatypes.S i) by lia.
  by rewrite getChildren_loop_spec.
Qed.

Lemma getParents_spec (i : nat) (T : Chapter.t) :
  chapters !! i = Some T ->
  Forall (fun c => 1 <= Chapter.Level c <= 6) chapters ->
  exists parents,
    getParents T chapters = Some parents
    /\ parents_of (Chapter.Level T) (take i chapters) parents.
Proof.
  intros Hi Hvalid. unfold getParents.
  rewrite (Index_distinct chapters i T) by done. rewrite Nat2Z.id.
  assert (1 <= Chapter.Level T <= 6) as HT.
  { rewrite Forall_forall in Hvalid. apply Hvalid.
    by eapply list_elem_of_lookup_2. }
  destruct GoInt_bounds as [Hmin Hmax].
  apply (getParents_loop_spec T (take i chapters) [] []).
  - lia.
  - apply Forall_take. eapply Forall_impl; [exact Hvalid|]. cbn. lia.
  - split; [done|]. cbn. lia.
Qed.

Lemma direct_children_lookup (level : Z) (after : list Chapter.t)
    (T : Chapter.t) :
  T ∈ spec.direct_children level after ->
  exists j : nat, after !! j = Some T /\ Chapter.Level T = level + 1
    /\ forall (k : nat) c, (k < j)%nat -> after !! k = Some c ->
         level < Chapter.Level c.
Proof.
  unfold spec.direct_children.
  intros [Hspan Hlevel%bool_decide_eq_true]%list_elem_of_In%List.filter_In.
  apply list_elem_of_In in Hspan.
  induction after as [|c rest IH]; cbn in Hspan; [by apply elem_of_nil in Hspan|].
  case_bool_decide as Hc; [by apply elem_of_nil in Hspan|].
  apply elem_of_cons in Hspan as [->|Hspan].
  - exists 0%nat. split; [done|]. split; [done|]. intros k c' Hk. lia.
  - destruct (IH Hspan) as (j & Hj & _ & Hbetween).
    exists (Datatypes.S j). split; [done|]. split; [done|].
    intros [|k] c' Hk Hc'; cbn in Hc'; [simplify_eq; lia|].
    apply (Hbetween k); [lia|done].
Qed.

Lemma last_of_level_after (level : Z) (before after : list Chapter.t)
    (S : Chapter.t) :
  Chapter.Level S = level ->
  Forall (fun c => Chapter.Level c <> level) after ->
  spec.last_of_level level (before ++ S :: after) = Some S.
Proof.
  intros HS. induction after as [|c after IH] using rev_ind; intros Hafter.
  - rewrite last_of_level_snoc. by rewrite decide_True.
  - apply Forall_app in Hafter as [Hafter Hc].
    apply Forall_cons in Hc as [Hc _].
    replace (before ++ S :: after ++ [c]) with ((before ++ S :: after) ++ [c])
      by (by rewrite <- app_assoc).
    rewrite last_of_level_snoc. rewrite decide_False by done. by apply IH.
Qed.

(** X20: a child has its parent as its last ancestor: when T is among the
    children of S, the ancestors of T have one slot per level up to the
    level of S, and the last slot holds S. *)
Theorem child_has_parent (S T : Chapter.t) :
  Forall (fun c => 1 <= Chapter.Level c <= 6) chapters ->
  S ∈ chapters -> T ∈ getChildren S chapters ->
  exists parents,
    getParents T chapters = Some parents
    /\ slices.len parents = Chapter.Level S
    /\ last parents = Some (Some S).
Proof.
  intros Hvalid [i Hi]%list_elem_of_lookup HT.
  assert (1 <= Chapter.Level S <= 6) as HS.
  { rewrite Forall_forall in Hvalid. apply Hvalid.
    by eapply list_elem_of_lookup_2. }
  destruct GoInt_bounds as [Hmin Hmax].
  destruct (decide (Chapter.Level S <= 2)) as [Hle|Hgt]; cycle 1.
  { unfold getChildren in HT. rewrite getChildren_loop_leaf in HT by lia.
    by apply elem_of_nil in HT. }
  rewrite (getChildren_spec i S) in HT by (done || lia).
  apply direct_children_lookup in HT as (j & Hj & Hlevel & Hbetween).
  rewrite lookup_drop in Hj.
  destruct (getParents_spec _ T Hj Hvalid) as (parents & Hparents & Hlen & Hslots).
  exists parents. split; [done|].
  assert (take (Datatypes.S i + j) chapters
          = take i chapters ++ S :: take j (drop (Datatypes.S i) chapters))
    as Hsplit.
  { rewrite <- (take_drop_middle chapters i S Hi) at 1.
    rewrite take_app_ge by (rewrite length_take; lia).
    rewrite length_take.
    pose proof (lookup_lt_Some _ _ _ Hi) as Hlt.
    replace (Datatypes.S i + j - i `min` length chapters)%nat
      with (Datatypes.S j) by lia.
    done. }
  assert (spec.deepest_candidate (Chapter.Level T)
            (take (Datatypes.S i + j) chapters) = Chapter.Level S) as Hdeep.
  { destruct (deepest_candidate_bounds (Chapter.Level T)
                (take (Datatypes.S i + j) chapters)) as [Hb Hcand]; [lia|].
    specialize (Hcand S). rewrite Hsplit in Hcand at 1.
    assert (Chapter.Level S
            <= spec.deepest_candidate (Chapter.Level T)
                 (take (Datatypes.S i + j) chapters)); [|lia].
    apply Hcand; [|lia]. apply elem_of_app. right. left. }
  unfold slices.len. rewrite Hlen, Hdeep. split; [done|].
  rewrite last_lookup.
  replace (pred (length parents)) with (Z.to_nat (Chapter.Level S - 1)) by lia.
  rewrite Hslots by lia. f_equal.
  replace (Z.of_nat (Z.to_nat (Chapter.Level S - 1)) + 1)
    with (Chapter.Level S) by lia.
  rewrite Hsplit. apply last_of_level_after; [done|].
  apply Forall_forall. intros c Hc.
  apply list_elem_of_lookup in Hc as [k Hk].
  apply lookup_take_Some in Hk as [Hk Hkj].
  specialize (Hbetween k c Hkj Hk). lia.
Qed.

Lemma getNext_loop_head (c : Chapter.t) (after : list Chapter.t) :
  getNext_loop c after
  = head (spec.direct_children (Chapter.Level c - 1) after).
Proof.
  unfold spec.direct_children.
  induction after as [|x rest IH]; cbn; [done|].
  destruct (decide (Chapter.Level x = Chapter.Level c)) as [Heq|Hne].
  - rewrite (bool_decide_true (Chapter.Level x = Chapter.Level c)) by done.
    rewrite bool_decide_false by lia. cbn.
    by rewrite bool_decide_true by lia.
  - rewrite (bool_decide_false (Chapter.Level x = Chapter.Level c)) by done.
    destruct (decide (Chapter.Level x < Chapter.Level c)) as [Hlt|Hge].
    + rewrite bool_decide_true by done. by rewrite bool_decide_true by lia.
    + rewrite bool_decide_false by done.
      rewrite (bool_decide_false (_ <= _)) by lia. cbn.
      by rewrite bool_decide_false by lia.
Qed.

Lemma direct_children_drop (level : Z) (after : list Chapter.t) (k : nat)
    (c : Chapter.t) :
  spec.direct_children level after !! k = Some c ->
  exists j : nat, after !! j = Some c
    /\ spec.direct_children level (drop (Datatypes.S j) after)
       = drop (Datatypes.S k) (spec.direct_children level after).
Proof.
  unfold spec.direct_children. revert k.
  induction after as [|x rest IH]; intros k; cbn; [done|].
  case_bool_decide as Hx; [done|]. cbn.
  case_bool_decide as Hlevel.
  - destruct k as [|k]; cbn.
    + intros [= <-]. by exists 0%nat.
    + intros (j & Hj & Hdrop)%IH. by exists (Datatypes.S j).
  - intros (j & Hj & Hdrop)%IH. by exists (Datatypes.S j).
Qed.

(** X21: the children of S are linked by next, in order: the next of the
    k-th child of S is its (k+1)-th child, and the last child has no
    next. *)
Theorem children_linked_by_next (S c : Chapter.t) (k : nat) :
  S ∈ chapters -> 1 <= Chapter.Level S <= 6 ->
  getChildren S chapters !! k = Some c ->
  getNext c chapters = getChildren S chapters !! Datatypes.S k.
Proof.
  intros [i Hi]%list_elem_of_lookup HS Hk.
  destruct GoInt_bounds as [Hmin Hmax].
  destruct (decide (Chapter.Level S <= 2)) as [Hle|Hgt]; cycle 1.
  { unfold getChildren in Hk. by rewrite getChildren_loop_leaf in Hk by lia. }
  rewrite (getChildren_spec i S) in * by (done || lia).
  assert (Chapter.Level c = Chapter.Level S + 1) as Hlevel.
  { apply list_elem_of_lookup_2, direct_children_lookup in Hk
      as (_ & _ & Hl & _). done. }
  destruct (direct_children_drop _ _ _ _ Hk) as (j & Hj & Hdrop).
  rewrite lookup_drop in Hj.
  pose proof (lookup_lt_Some _ _ _ Hj) as Hlt.
  unfold getNext. rewrite (Index_distinct chapters _ c distinct Hj).
  int_small.
  replace (Z.to_nat (Z.of_nat (Datatypes.S i + j) + 1))
    with (Datatypes.S i + Datatypes.S j)%nat by lia.
  rewrite <- drop_drop, getNext_loop_head, Hlevel.
  replace (Chapter.Level S + 1 - 1) with (Chapter.Level S) by lia.
  rewrite Hdrop. by rewrite head_lookup, lookup_drop, Nat.add_0_r.
Qed.

End navigation_more.

(** ** The pages and their flags *)

Lemma deepest_candidate_positive (level : Z) (l : list Chapter.t) :
  Forall (fun c => 1 <= Chapter.Level c) l ->
  0 < spec.deepest_candidate level l <->
  exists (j : nat) c, l !! j = Some c /\ Chapter.Level c < level.
Proof.
  induction l as [|x l IH]; intros Hvalid; cbn.
  { split; [lia|]. by intros (j & c & Hj & _). }
  apply Forall_cons in Hvalid as [Hx Hvalid]. specialize (IH Hvalid).
  case_bool_decide as Hlt.
  - split; [|lia]. intros _. by exists 0%nat, x.
  - rewrite IH. split.
    + intros (j & c & Hj & Hc). by exists (S j), c.
    + intros ([|j] & c & Hj & Hc); cbn in Hj; [simplify_eq; lia|].
      by exists j, c.
Qed.

Lemma Pages_loop_flags (chapters rest : list Chapter.t)
    (pages result : list Page.t) (P : Page.t -> Prop) :
  (forall page,
     Page.HasNext page = bool_decide (Page.Next page <> None) ->
     Page.HasPrevious page = bool_decide (Page.Previous page <> None) ->
     Page.HasParents page = negb (slices.IsEmpty (Page.Parents page)) ->
     Page.HasChildren page = negb (slices.IsEmpty (Page.Children page)) ->
     P page) ->
  Pages_loop chapters rest pages = Some result ->
  Forall P pages -> Forall P result.
Proof.
  intros HP. revert pages.
  induction rest as [|chapter rest IH]; intros pages; cbn.
  { by intros [= <-]. }
  destruct (getParents chapter chapters) as [parents|]; [|done].
  intros Hloop Hpages. apply (IH _ Hloop).
  apply Forall_app. split; [done|]. apply Forall_singleton. by apply HP.
Qed.

Section pages_more.

Variable Render : Node -> string + error.
Variable Fields : string -> list string.

(** X22: when the extraction returns no error, [Pages] returns, without
    panic, one page per chapter with the Id, Level, Path, Title and
    content of the chapter; each flag of a page tells whether its field
    is there, and a page has parents exactly when a Section of a smaller
    level stands before it. *)
Theorem Pages_pages (h : Heap) (body : Node) :
  let r := Chapters Render Fields h body in
  (r.2.2 = None ->
   exists pages,
     Pages Render Fields h body = Some (r.1, (pages, None))
     /\ length pages = length r.2.1
     /\ forall (i : nat) page, pages !! i = Some page ->
          exists chapter, r.2.1 !! i = Some chapter
            /\ Page.Id page = Chapter.Id chapter
            /\ Page.Level page = Chapter.Level chapter
            /\ Page.Path page = Chapter.Path chapter
            /\ Page.Title page = Chapter.Title chapter
            /\ Page.Content page = Chapter.Content chapter
            /\ (Page.HasNext page = true <-> is_Some (Page.Next page))
            /\ (Page.HasPrevious page = true <-> is_Some (Page.Previous page))
            /\ (Page.HasParents page = true <-> Page.Parents page <> [])
            /\ (Page.HasChildren page = true <-> Page.Children page <> [])
            /\ (Page.HasParents page = true <->
                exists (j : nat) c, (j < i)%nat /\ r.2.1 !! j = Some c
                  /\ Chapter.Level c < Chapter.Level chapter))
  /\ (forall err, r.2.2 = Some err ->
        Pages Render Fields h body = Some (r.1, ([], Some err))).
Proof.
  cbn zeta.
  pose proof (Chapters_well_formed Render Fields h body) as (Hdistinct & _ & Hvalid).
  split.
  2: { intros err Herr. unfold Pages, Chapters in *.
       destruct (parsetree.IsBody body); cbn [negb] in *;
         [|by injection Herr as <-].
       destruct (Chapters_loop _ _ _ _ _ _ _) as [h' [chapters [e|]]];
         cbn in *; [|done]. by injection Herr as <-. }
  intros Hnone.
  destruct (Pages_spec Render Fields h body) as (pages & Hpages & Hof).
  cbn zeta in *. rewrite Hnone in Hpages. destruct (Hof Hnone) as [Hof' _].
  unfold Pages in Hpages.
  exists pages. split; [done|].
  split; [symmetry; by eapply Forall2_length|].
  assert (Forall (fun page =>
            (Page.HasNext page = true <-> is_Some (Page.Next page))
            /\ (Page.HasPrevious page = true <-> is_Some (Page.Previous page))
            /\ (Page.HasParents page = true <-> Page.Parents page <> [])
            /\ (Page.HasChildren page = true <-> Page.Children page <> []))
          pages) as Hflags.
  { assert (forall A (l : list A), negb (slices.IsEmpty l) = true <-> l <> [])
      as Hempty.
    { intros A l. unfold slices.IsEmpty, slices.len.
      rewrite negb_true_iff, bool_decide_eq_false. destruct l; cbn; [|done].
      split; [lia|done]. }
    destruct (parsetree.IsBody body) eqn:Hbody; cbn [negb] in Hpages.
    2: { assert (pages = []) as -> by congruence. constructor. }
    destruct (Chapters Render Fields h body) as [h' [chapters [e|]]];
      cbn in *; [done|].
    destruct (Pages_loop chapters chapters []) as [pages'|] eqn:Hloop; [|done].
    assert (pages' = pages) as -> by congruence.
    refine (Pages_loop_flags _ _ _ _ _ _ Hloop _); [|constructor].
    intros page H1 H2 H3 H4. cbn beta. rewrite H1, H2, H3, H4.
    rewrite !bool_decide_eq_true, !Hempty.
    rewrite <- !not_eq_None_Some. done. }
  intros i page Hi.
  destruct (Forall2_lookup_r _ _ _ _ _ Hof' Hi)
    as (chapter & Hchapter & HId & HLevel & HPath & HTitle & HContent & _ & _
        & HParents & _).
  exists chapter. split; [done|]. do 5 (split; [done|]).
  rewrite Forall_forall in Hflags.
  destruct (Hflags page) as (HN & HP & HPa & HC);
    [by eapply list_elem_of_lookup_2|].
  do 4 (split; [done|]).
  rewrite HPa.
  destruct GoInt_bounds as [Hmin Hmax].
  pose proof (Index_distinct _ i chapter Hdistinct Hchapter) as Hindex.
  unfold getParents in HParents. rewrite Hindex, Nat2Z.id in HParents.
  assert (1 <= Chapter.Level chapter <= 6) as Hlevel.
  { rewrite Forall_forall in Hvalid. apply Hvalid.
    by eapply list_elem_of_lookup_2. }
  destruct (getParents_loop_spec chapter
              (take i (Chapters Render Fields h body).2.1) [] [])
    as (parents & Hloop & Hlen & _).
  { lia. }
  { apply Forall_take. eapply Forall_impl; [exact Hvalid|]. cbn. lia. }
  { split; [done|]. cbn. lia. }
  rewrite Hloop in HParents. injection HParents as ->. cbn in Hlen.
  assert (parents <> [] <->
          0 < spec.deepest_candidate (Chapter.Level chapter)
                (take i (Chapters Render Fields h body).2.1)) as ->.
  { rewrite <- Hlen. destruct parents; cbn; [|split; [lia|done]].
    split; [done|lia]. }
  rewrite deepest_candidate_positive.
  2: { apply Forall_take. eapply Forall_impl; [exact Hvalid|]. cbn. lia. }
  split.
  - intros (j & c & [Hj Hji]%lookup_take_Some & Hc). by exists j, c.
  - intros (j & c & Hji & Hj & Hc). exists j, c. split; [|done].
    by apply lookup_take_Some.
Qed.

End pages_more.

(** ** Failure and frame of the cross-reference resolver *)

Section resolve_more.

Variable Parse : string -> Node * option error.
Variable Render : Node -> string + error.
Variable QueryUnescape : string -> string * option error.
Variable pages : list Page.t.

Local Abbreviation rewritten tree :=
  (links_loop QueryUnescape pages
     (parsetree.ElementsByTagName (parsetree.Body tree) ["a"])
     (parsetree.Body tree)).

Lemma ResolveCrossReferences_loop_partial (rest : list Page.t) (h h' : Heap)
    (e : error) :
  NoDup (Page.Content <$> rest) ->
  ResolveCrossReferences_loop Parse Render QueryUnescape pages rest h
  = (h', Some e) ->
  next h' = next h
  /\ (forall a, a ∉ Page.Content <$> rest -> load h' a = load h a)
  /\ exists (k : nat) page,
       rest !! k = Some page
       /\ ((Parse (load h (Page.Content page))).2 = Some e
           \/ exists tree text,
                Parse (load h (Page.Content page)) = (tree, None)
                /\ parsetree.Html Render (parsetree.Children (rewritten tree))
                   = (text, Some e))
       /\ (forall (i : nat) p, (i < k)%nat -> rest !! i = Some p ->
             exists tree,
               Parse (load h (Page.Content p)) = (tree, None)
               /\ parsetree.Html Render (parsetree.Children (rewritten tree))
                  = (load h' (Page.Content p), None))
       /\ (forall (i : nat) p, (k <= i)%nat -> rest !! i = Some p ->
             load h' (Page.Content p) = load h (Page.Content p)).
Proof.
  revert h. induction rest as [|page rest IH]; intros h Hnd; cbn; [done|].
  rewrite fmap_cons in Hnd. apply NoDup_cons in Hnd as [Hpage Hnd].
  unfold parsetree.New.
  destruct (Parse (load h (Page.Content page))) as [tree [err|]] eqn:Hparse.
  { intros [= <- <-]. split; [done|]. split; [done|].
    exists 0%nat, page. split; [done|]. split; [left; by rewrite Hparse|].
    split; [intros i p Hi; lia|done]. }
  destruct (parsetree.Html Render (parsetree.Children (rewritten tree)))
    as [html [err|]] eqn:Hhtml.
  { intros [= <- <-]. split; [done|]. split; [done|].
    exists 0%nat, page. split; [done|].
    split; [right; by exists tree, html|].
    split; [intros i p Hi; lia|done]. }
  intros Hrest.
  apply IH in Hrest as (Hnext & Hother & k & page' & Hk & Hfail & Hbefore & Hafter);
    [|done].
  assert (forall p, p ∈ rest -> Page.Content page <> Page.Content p) as Hne.
  { intros p Hp Heq. apply Hpage. rewrite Heq.
    apply list_elem_of_fmap. by exists p. }
  split; [done|]. split.
  { intros a Ha. rewrite ?fmap_cons in Ha.
    apply not_elem_of_cons in Ha as [Hne' Ha].
    rewrite Hother by done. by apply load_store_ne. }
  exists (S k), page'. split; [done|].
  assert (Page.Content page <> Page.Content page') as Hne'
    by (apply Hne; by eapply list_elem_of_lookup_2).
  rewrite load_store_ne in Hfail by done.
  split; [done|]. split.
  - intros [|i] p Hi Hp; cbn in Hp.
    + injection Hp as <-. exists tree. split; [done|].
      by rewrite Hother, load_store_eq.
    + destruct (Hbefore i p) as (tree' & Hparse' & Hhtml'); [lia|done|].
      rewrite load_store_ne in Hparse'
        by (apply Hne; by eapply list_elem_of_lookup_2).
      by exists tree'.
  - intros [|i] p Hi Hp; cbn in Hp; [lia|].
    rewrite (Hafter i p) by (lia || done).
    apply load_store_ne, Hne. by eapply list_elem_of_lookup_2.
Qed.

(** X23: when [ResolveCrossReferences] returns an error, the pages before
    the one whose content failed to parse or to serialize have their
    rewritten content, and that page and those after it have the content
    they had: the rewriting is not undone. *)
Theorem ResolveCrossReferences_not_atomic (h h' : Heap) (e : error) :
  NoDup (Page.Content <$> pages) ->
  ResolveCrossReferences Parse Render QueryUnescape pages h = (h', Some e) ->
  exists (k : nat) page,
    pages !! k = Some page
    /\ ((Parse (load h (Page.Content page))).2 = Some e
        \/ exists tree text,
             Parse (load h (Page.Content page)) = (tree, None)
             /\ parsetree.Html Render
                  (parsetree.Children
                     (links_loop QueryUnescape pages
                        (parsetree.ElementsByTagName (parsetree.Body tree) ["a"])
                        (parsetree.Body tree)))
                = (text, Some e))
    /\ (forall (i : nat) p, (i < k)%nat -> pages !! i = Some p ->
          exists tree,
            Parse (load h (Page.Content p)) = (tree, None)
            /\ parsetree.Html Render
                 (parsetree.Children
                    (links_loop QueryUnescape pages
                       (parsetree.ElementsByTagName (parsetree.Body tree) ["a"])
                       (parsetree.Body tree)))
               = (load h' (Page.Content p), None))
    /\ (forall (i : nat) p, (k <= i)%nat -> pages !! i = Some p ->
          load h' (Page.Content p) = load h (Page.Content p)).
Proof.
  intros Hnd Hrun.
  by destruct (ResolveCrossReferences_loop_partial pages h h' e Hnd Hrun)
    as (_ & _ & Hk).
Qed.

Lemma ResolveCrossReferences_loop_frame (rest : list Page.t) (h : Heap) :
  let r := ResolveCrossReferences_loop Parse Render QueryUnescape pages rest h in
  next r.1 = next h
  /\ forall a, a ∉ Page.Content <$> rest -> load r.1 a = load h a.
Proof.
  revert h. induction rest as [|page rest IH]; intros h; cbn; [done|].
  unfold parsetree.New.
  destruct (Parse (load h (Page.Content page))) as [tree [err|]]; [done|].
  destruct (parsetree.Html Render _) as [html [err|]]; [done|].
  destruct (IH (store h (Page.Content page) html)) as [Hnext Hother].
  cbn zeta in *. split; [done|]. intros a Ha.
  apply not_elem_of_cons in Ha as [Hne Ha].
  rewrite Hother by done. by apply load_store_ne.
Qed.

(** X24: [ResolveCrossReferences] changes the markup of no content other
    than the contents of the pages it is given, whether it returns an
    error or not. *)
Theorem ResolveCrossReferences_frame (h : Heap) (a : loc) :
  a ∉ Page.Content <$> pages ->
  load (ResolveCrossReferences Parse Render QueryUnescape pages h).1 a
  = load h a.
Proof. apply ResolveCrossReferences_loop_frame. Qed.

(** X25: the rewriting of the links changes values of reference
    attributes only: at every place of the tree the node is there or not
    as before, with its type and data, and it has as many attributes, each
    with its namespace and key; an attribute whose key is not href, and
    every attribute of a node that is no link, is as before. *)
Theorem links_rewrite_values_only (body : Node) (p : path) :
  let links := parsetree.ElementsByTagName body ["a"] in
  let body' := links_loop QueryUnescape pages links body in
  parsetree.IsNil (deref body' p) = parsetree.IsNil (deref body p)
  /\ Type_ (deref body' p) = Type_ (deref body p)
  /\ Data (deref body' p) = Data (deref body p)
  /\ Namespace <$> Attr (deref body' p) = Namespace <$> Attr (deref body p)
  /\ Key <$> Attr (deref body' p) = Key <$> Attr (deref body p)
  /\ (forall (k : nat) a, Attr (deref body p) !! k = Some a ->
        Key a <> "href" -> Attr (deref body' p) !! k = Some a)
  /\ (p ∉ links -> Attr (deref body' p) = Attr (deref body p)).
Proof.
  cbn zeta.
  destruct (links_loop_deref QueryUnescape pages
              (parsetree.ElementsByTagName body ["a"]) body p
              (ElementsByTagName_NoDup _ _)) as (HT & HD & HN & HA).
  cbn zeta in *. split; [done|]. split; [done|]. split; [done|].
  assert (forall a, Namespace (spec.resolved QueryUnescape pages a) = Namespace a
                    /\ Key (spec.resolved QueryUnescape pages a) = Key a
                    /\ (Key a <> "href" ->
                        spec.resolved QueryUnescape pages a = a)) as Hres.
  { intros a. unfold spec.resolved. case_bool_decide; [|done].
    destruct (QueryUnescape (Val a)) as [title [err|]]; [done|].
    by destruct (spec.first_titled title pages). }
  rewrite HA. destruct (decide (p ∈ _)) as [Hin|Hnin].
  - rewrite <- !list_fmap_compose.
    split; [apply list_fmap_ext; intros; apply Hres|].
    split; [apply list_fmap_ext; intros; apply Hres|].
    split; [|done].
    intros k a Hk Hkey. rewrite list_lookup_fmap, Hk. cbn. f_equal.
    by apply Hres.
  - done.
Qed.

End resolve_more.

(** ** What the numbering counts *)

Lemma numbering_from_lookup (levels : list Z) (c : spec.counters) (i : nat)
    (level : Z) :
  levels !! i = Some level ->
  (level = 1 ->
   spec.numbering_from c levels !! i
   = Some (pretty (spec.c1 c
                   + Z.of_nat (length (List.filter (fun l => bool_decide (l = 1))
                                         (take (S i) levels))))))
  /\ (level < 1 \/ 3 < level -> spec.numbering_from c levels !! i = Some "").
Proof.
  revert c i. induction levels as [|l rest IH]; intros c i Hi; [done|].
  cbn [spec.numbering_from].
  destruct (spec.number c l) as [c' pre] eqn:Hnumber.
  destruct i as [|i]; cbn in Hi.
  - injection Hi as ->. unfold spec.number in Hnumber. split.
    + intros ->. cbn in *. injection Hnumber as <- <-. done.
    + intros Hl. rewrite !bool_decide_false in Hnumber by lia.
      by injection Hnumber as <- <-.
  - destruct (IH c' i Hi) as [IH1 IHn]. split; [|done].
    intros Hlevel. change ((pre :: spec.numbering_from c' rest) !! S i)
      with (spec.numbering_from c' rest !! i). rewrite (IH1 Hlevel).
    do 2 f_equal. rewrite (firstn_cons (S i) l rest).
    cbn [List.filter]. unfold spec.number in Hnumber.
    case_bool_decide as Hl.
    + injection Hnumber as <- _. cbn. lia.
    + repeat case_bool_decide; injection Hnumber as <- _; cbn; lia.
Qed.

Section numbering_more.

Variable Render : Node -> string + error.
Variable Fields : string -> list string.

(** X26: the prefix of a Section of level 1 is its rank among the Sections
    of level 1, counted from 1 in document order, and the prefix of a
    Section of level 4, 5 or 6 is empty. *)
Theorem level_1_prefix_is_rank (h : Heap) (body : Node) (i : nat)
    (chapter : Chapter.t) :
  slices.len (parsetree.Headings body) <= GoInt.MaxInt ->
  (Chapters Render Fields h body).2.1 !! i = Some chapter ->
  (Chapter.Level chapter = 1 ->
   Prefix (Chapter.Title chapter)
   = pretty (Z.of_nat (length
       (List.filter (fun c => bool_decide (Chapter.Level c = 1))
          (take (S i) (Chapters Render Fields h body).2.1)))))
  /\ (4 <= Chapter.Level chapter -> Prefix (Chapter.Title chapter) = "").
Proof.
  intros Hlen Hi.
  assert ((fun ch => Prefix (Chapter.Title ch))
            <$> (Chapters Render Fields h body).2.1
          = spec.numbering (Chapter.Level <$> (Chapters Render Fields h body).2.1))
    as Hnumbering.
  { unfold Chapters. destruct (parsetree.IsBody body); cbn; [|done].
    apply (Chapters_loop_numbering Render Fields (parsetree.Headings body) 0
             getPrefix h).
    - apply Headings_IsHeading.
    - done.
    - lia.
    - unfold counters_below. cbn. lia. }
  set (chapters := (Chapters Render Fields h body).2.1) in *.
  assert (Some (Prefix (Chapter.Title chapter))
          = spec.numbering (Chapter.Level <$> chapters) !! i) as Hprefix.
  { rewrite <- Hnumbering, list_lookup_fmap, Hi. done. }
  destruct (numbering_from_lookup (Chapter.Level <$> chapters)
              (spec.mkCounters 0 0 0) i (Chapter.Level chapter)) as [H1 Hn].
  { by rewrite list_lookup_fmap, Hi. }
  unfold spec.numbering in Hprefix. split.
  - intros Hlevel. rewrite (H1 Hlevel) in Hprefix.
    injection Hprefix as ->. do 2 f_equal. cbn [spec.c1].
    rewrite Z.add_0_l. f_equal. rewrite <- fmap_take.
    generalize (take (S i) chapters). clear. intros l.
    induction l as [|c l IH]; [done|]. cbn.
    case_bool_decide; cbn; by rewrite IH.
  - intros Hlevel. rewrite Hn in Hprefix by lia. by injection Hprefix.
Qed.

End numbering_more.

(** ** The further properties on concrete documents *)

Lemma toc_chapters_distinct : NoDup (Chapter.addr <$> demo.toc_chapters).
Proof.
  apply (Chapters_well_formed demo.Render demo.Fields demo.empty_heap
           demo.toc_body).
Qed.

Lemma toc_chapters_levels :
  Forall (fun c => 1 <= Chapter.Level c <= 6) demo.toc_chapters.
Proof.
  apply (Chapters_well_formed demo.Render demo.Fields demo.empty_heap
           demo.toc_body).
Qed.

(** Inserting 9 at index 3 into [1; 2] gives four elements, with the zero
    value at index 2. *)
Lemma Insert_at_index_witness :
  slices.len [1; 2] <= GoInt.MaxInt
  /\ GoInt.MinInt <= 3 <= GoInt.MaxInt
  /\ exists values,
       slices.Insert 0 [1; 2] 9 3 = Some values
       /\ slices.len values = 4
       /\ values !! 3%nat = Some 9
       /\ values !! 2%nat = Some 0.
Proof.
  assert (slices.len [1; 2] <= GoInt.MaxInt) as Hlen
    by (vm_compute; discriminate).
  assert (GoInt.MinInt <= 3 <= GoInt.MaxInt) as Hindex
    by (split; vm_compute; discriminate).
  split; [exact Hlen|]. split; [exact Hindex|].
  destruct (Insert_at_index 0 [1; 2] 9 3 Hlen Hindex) as (_ & _ & Hfrom).
  destruct (Hfrom ltac:(split; [discriminate|reflexivity]))
    as (values & Hinsert & Hvalues & Hat & _ & Hzero).
  exists values. split; [exact Hinsert|]. split; [exact Hvalues|].
  split; [exact Hat|].
  apply Hzero. split; [vm_compute; discriminate | reflexivity].
Defined.

(** The first Section of the book has the text of its heading with one
    space between the words. *)
Lemma Chapters_content_witness :
  demo.book_chapters !! 0%nat = Some (demo.book_chapter 0)
  /\ exists heading,
       parsetree.Headings demo.book_body !! 0%nat = Some heading
       /\ parsetree.Html demo.Render
            (parsetree.SiblingsUntilFunc heading (Some parsetree.IsHeading))
          = (demo.anchors_text, None)
       /\ Text (Chapter.Title (demo.book_chapter 0))
          = Join (demo.Fields (parsetree.Text heading)) " ".
Proof.
  assert (demo.book_chapters !! 0%nat = Some (demo.book_chapter 0)) as Hat
    by reflexivity.
  split; [exact Hat|].
  destruct (Chapters_content demo.Render demo.Fields demo.empty_heap
              demo.book_body 0 (demo.book_chapter 0) Hat)
    as (heading & Hheading & Hcontent & _ & Htext).
  exists heading. split; [exact Hheading|]. split; [|exact Htext].
  rewrite Hcontent. vm_compute. reflexivity.
Defined.

(** The body of the book starts with a heading: the preface is the body
    markup of the first Section, the three anchors. *)
Lemma getPreface_first_heading_witness :
  parsetree.IsBody demo.book_body = true
  /\ parsetree.IsHeading (FirstChild demo.book_body) = true
  /\ demo.book_chapters !! 0%nat = Some (demo.book_chapter 0)
  /\ getPreface demo.Render demo.book_body = Some (demo.anchors_text, None).
Proof.
  assert (demo.book_chapters !! 0%nat = Some (demo.book_chapter 0)) as Hat
    by reflexivity.
  split; [reflexivity|]. split; [reflexivity|]. split; [exact Hat|].
  rewrite (getPreface_first_heading demo.Render demo.Fields demo.empty_heap
             demo.book_body (demo.book_chapter 0) eq_refl eq_refl Hat).
  vm_compute. reflexivity.
Defined.

(** [New] makes a book of two pages of the file with two headings. *)
Lemma New_pages_witness :
  New demo.Parse_file demo.Render demo.QueryUnescape demo.Fields
    demo.empty_heap demo.book_file
  = Some (demo.new_heap, (Some demo.new_book, None))
  /\ slices.len
       (parsetree.Headings (parsetree.Body (demo.Parse_file demo.book_file).1))
     <= GoInt.MaxInt
  /\ length (Book.Pages demo.new_book) = 2%nat.
Proof.
  assert (New demo.Parse_file demo.Render demo.QueryUnescape demo.Fields
            demo.empty_heap demo.book_file
          = Some (demo.new_heap, (Some demo.new_book, None))) as Hnew
    by (vm_compute; reflexivity).
  assert (slices.len
            (parsetree.Headings
               (parsetree.Body (demo.Parse_file demo.book_file).1))
          <= GoInt.MaxInt) as Hlen by (vm_compute; discriminate).
  split; [exact Hnew|]. split; [exact Hlen|].
  destruct (New_pages demo.Parse_file demo.Render demo.QueryUnescape
              demo.Fields demo.empty_heap demo.new_heap demo.book_file
              demo.new_book Hnew Hlen) as [Hpages _].
  rewrite Hpages. reflexivity.
Defined.

(** The book of the file has the title of its head, and its preface still
    holds the reference that the first page had rewritten. *)
Lemma New_metadata_witness :
  New demo.Parse_file demo.Render demo.QueryUnescape demo.Fields
    demo.empty_heap demo.book_file
  = Some (demo.new_heap, (Some demo.new_book, None))
  /\ getTitle (parsetree.Head demo.book_document)
     = Some (MetaData.Title (Book.MetaData demo.new_book), None)
  /\ MetaData.Preface (Book.MetaData demo.new_book) = demo.anchors_text.
Proof.
  assert (New demo.Parse_file demo.Render demo.QueryUnescape demo.Fields
            demo.empty_heap demo.book_file
          = Some (demo.new_heap, (Some demo.new_book, None))) as Hnew
    by (vm_compute; reflexivity).
  split; [exact Hnew|].
  destruct (New_metadata demo.Parse_file demo.Render demo.QueryUnescape
              demo.Fields demo.empty_heap demo.new_heap demo.book_file
              demo.new_book Hnew)
    as (_ & _ & _ & Htitle & _ & _ & Hpreface).
  split; [exact Htitle|].
  apply (f_equal fst) in Hpreface. cbn [fst] in Hpreface.
  rewrite <- Hpreface. vm_compute. reflexivity.
Defined.

(** In h1, h2, h3, h1, h3 the fourth Section is the next of the first, so
    the first is the previous of the fourth. *)
Lemma next_previous_inverse_witness :
  NoDup (Chapter.addr <$> demo.quirk_chapters)
  /\ slices.len demo.quirk_chapters <= GoInt.MaxInt
  /\ demo.quirk_chapter 0 ∈ demo.quirk_chapters
  /\ demo.quirk_chapter 3 ∈ demo.quirk_chapters
  /\ getNext (demo.quirk_chapter 0) demo.quirk_chapters
     = Some (demo.quirk_chapter 3)
  /\ getPrevious (demo.quirk_chapter 3) demo.quirk_chapters
     = Some (demo.quirk_chapter 0).
Proof.
  assert (slices.len demo.quirk_chapters <= GoInt.MaxInt) as Hlen
    by (vm_compute; discriminate).
  assert (demo.quirk_chapter 0 ∈ demo.quirk_chapters) as Hfirst
    by (apply (list_elem_of_lookup_2 _ 0%nat); reflexivity).
  assert (demo.quirk_chapter 3 ∈ demo.quirk_chapters) as Hfourth
    by (apply (list_elem_of_lookup_2 _ 3%nat); reflexivity).
  assert (getNext (demo.quirk_chapter 0) demo.quirk_chapters
          = Some (demo.quirk_chapter 3)) as Hnext
    by (vm_compute; reflexivity).
  split; [exact quirk_chapters_distinct|]. split; [exact Hlen|].
  split; [exact Hfirst|]. split; [exact Hfourth|]. split; [exact Hnext|].
  apply (next_previous_inverse demo.quirk_chapters quirk_chapters_distinct
           Hlen (demo.quirk_chapter 0) (demo.quirk_chapter 3) Hfirst Hfourth).
  exact Hnext.
Defined.

(** In h1, h2, h3, h2, h1 the second h2 is a child of the first h1, which
    is its only ancestor. *)
Lemma child_has_parent_witness :
  NoDup (Chapter.addr <$> demo.toc_chapters)
  /\ slices.len demo.toc_chapters <= GoInt.MaxInt
  /\ Forall (fun c => 1 <= Chapter.Level c <= 6) demo.toc_chapters
  /\ demo.toc_chapter 0 ∈ demo.toc_chapters
  /\ demo.toc_chapter 3 ∈ getChildren (demo.toc_chapter 0) demo.toc_chapters
  /\ exists parents,
       getParents (demo.toc_chapter 3) demo.toc_chapters = Some parents
       /\ slices.len parents = 1
       /\ last parents = Some (Some (demo.toc_chapter 0)).
Proof.
  assert (slices.len demo.toc_chapters <= GoInt.MaxInt) as Hlen
    by (vm_compute; discriminate).
  assert (demo.toc_chapter 0 ∈ demo.toc_chapters) as Hfirst
    by (apply (list_elem_of_lookup_2 _ 0%nat); reflexivity).
  assert (demo.toc_chapter 3
            ∈ getChildren (demo.toc_chapter 0) demo.toc_chapters) as Hchild
    by (apply (list_elem_of_lookup_2 _ 1%nat); vm_compute; reflexivity).
  split; [exact toc_chapters_distinct|]. split; [exact Hlen|].
  split; [exact toc_chapters_levels|]. split; [exact Hfirst|].
  split; [exact Hchild|].
  destruct (child_has_parent demo.toc_chapters toc_chapters_distinct Hlen
              (demo.toc_chapter 0) (demo.toc_chapter 3) toc_chapters_levels
              Hfirst Hchild) as (parents & Hparents & Hslots & Hlast).
  exists parents. split; [exact Hparents|]. split; [exact Hslots|].
  exact Hlast.
Defined.

(** In h1, h2, h3, h2, h1 the next of the first h2 is the second h2, the
    second child of the first h1. *)
Lemma children_linked_by_next_witness :
  NoDup (Chapter.addr <$> demo.toc_chapters)
  /\ slices.len demo.toc_chapters <= GoInt.MaxInt
  /\ demo.toc_chapter 0 ∈ demo.toc_chapters
  /\ 1 <= Chapter.Level (demo.toc_chapter 0) <= 6
  /\ getChildren (demo.toc_chapter 0) demo.toc_chapters !! 0%nat
     = Some (demo.toc_chapter 1)
  /\ getNext (demo.toc_chapter 1) demo.toc_chapters
     = Some (demo.toc_chapter 3).
Proof.
  assert (slices.len demo.toc_chapters <= GoInt.MaxInt) as Hlen
    by (vm_compute; discriminate).
  assert (demo.toc_chapter 0 ∈ demo.toc_chapters) as Hfirst
    by (apply (list_elem_of_lookup_2 _ 0%nat); reflexivity).
  assert (1 <= Chapter.Level (demo.toc_chapter 0) <= 6) as Hlevel
    by (vm_compute; split; discriminate).
  assert (getChildren (demo.toc_chapter 0) demo.toc_chapters !! 0%nat
          = Some (demo.toc_chapter 1)) as Hchild
    by (vm_compute; reflexivity).
  split; [exact toc_chapters_distinct|]. split; [exact Hlen|].
  split; [exact Hfirst|]. split; [exact Hlevel|]. split; [exact Hchild|].
  rewrite (children_linked_by_next demo.toc_chapters toc_chapters_distinct
             Hlen (demo.toc_chapter 0) (demo.toc_chapter 1) 0 Hfirst Hlevel
             Hchild).
  vm_compute. reflexivity.
Defined.

(** With a parser that rejects the second page the run returns its error,
    and the first page stays rewritten. *)
Lemma ResolveCrossReferences_not_atomic_witness :
  NoDup (Page.Content <$> demo.book_pages)
  /\ ResolveCrossReferences demo.Parse_strict demo.Render demo.QueryUnescape
       demo.book_pages demo.book_heap
     = (demo.strict_heap, Some (errors.Lib "parse error"))
  /\ load demo.strict_heap (Page.Content demo.first_page)
     <> load demo.book_heap (Page.Content demo.first_page)
  /\ exists (k : nat) page,
       demo.book_pages !! k = Some page
       /\ forall (i : nat) p, (k <= i)%nat -> demo.book_pages !! i = Some p ->
            load demo.strict_heap (Page.Content p)
            = load demo.book_heap (Page.Content p).
Proof.
  assert (ResolveCrossReferences demo.Parse_strict demo.Render
            demo.QueryUnescape demo.book_pages demo.book_heap
          = (demo.strict_heap, Some (errors.Lib "parse error"))) as Hrun
    by (vm_compute; reflexivity).
  split; [exact book_pages_distinct|]. split; [exact Hrun|].
  split; [vm_compute; discriminate|].
  destruct (ResolveCrossReferences_not_atomic demo.Parse_strict demo.Render
              demo.QueryUnescape demo.book_pages demo.book_heap
              demo.strict_heap (errors.Lib "parse error")
              book_pages_distinct Hrun)
    as (k & page & Hpage & _ & _ & Hkept).
  exists k, page. split; [exact Hpage|exact Hkept].
Defined.

(** In h1, h2, h3, h1, h3 the fourth Section is the second of level 1. *)
Lemma level_1_prefix_is_rank_witness :
  slices.len (parsetree.Headings demo.quirk_body) <= GoInt.MaxInt
  /\ demo.quirk_chapters !! 3%nat = Some (demo.quirk_chapter 3)
  /\ Chapter.Level (demo.quirk_chapter 3) = 1
  /\ Prefix (Chapter.Title (demo.quirk_chapter 3)) = "2".
Proof.
  assert (slices.len (parsetree.Headings demo.quirk_body) <= GoInt.MaxInt)
    as Hlen by (vm_compute; discriminate).
  assert (demo.quirk_chapters !! 3%nat = Some (demo.quirk_chapter 3)) as Hat
    by reflexivity.
  split; [exact Hlen|]. split; [exact Hat|]. split; [reflexivity|].
  destruct (level_1_prefix_is_rank demo.Render demo.Fields demo.empty_heap
              demo.quirk_body 3 (demo.quirk_chapter 3) Hlen Hat)
    as [Hrank _].
  rewrite (Hrank eq_refl). vm_compute. reflexivity.
Defined.

(** Resolving the first page of the book alone leaves the content of the
    second page as it was. *)
Lemma ResolveCrossReferences_frame_witness :
  (2%nat ∉ Page.Content <$> [demo.first_page])
  /\ load demo.book_heap 2%nat = "<p>text</p>"
  /\ load (ResolveCrossReferences demo.Parse demo.Render demo.QueryUnescape
             [demo.first_page] demo.book_heap).1 2%nat
     = load demo.book_heap 2%nat.
Proof.
  assert (2%nat ∉ (Page.Content <$> [demo.first_page])) as Hother.
  { change (Page.Content <$> [demo.first_page]) with [0%nat].
    intros Hin. apply list_elem_of_singleton in Hin. discriminate Hin. }
  split; [exact Hother|]. split; [reflexivity|].
  exact (ResolveCrossReferences_frame demo.Parse demo.Render
           demo.QueryUnescape [demo.first_page] demo.book_heap 2%nat Hother).
Defined.
